(** * Stock-aware retrieval and substitution engine

    A shallow embedding of [The Backend/api.py] (inventory manager,
    substitution resolver, result ranker, patron search and the owner's full
    listing) and of the inventory half of [The Backend/ingest_data.py], with
    the properties the specification states about them.

    Conventions of the embedding.
    - A Python [float] is an IEEE binary64 number: Rocq's primitive [float],
      compared with [PrimFloat.ltb], [PrimFloat.leb] and [PrimFloat.eqb] and
      added with [PrimFloat.add].
    - A Python [dict] with string keys is a [gmap string _]; [d.get(k, v)] is
      [default v (d !! k)].
    - A value that is [None] or a string ([Optional[str]]) is an
      [option string]; for a dict read with [.get(key)], [None] stands for an
      absent key.
    - Availability and stock statuses stay the strings the code uses.
    - Code that can raise returns an [outcome]. *)

From Stdlib Require Import Floats ZArith Lia Sorted Permutation Ascii.
From stdpp Require Import gmap strings list.

Local Open Scope Z_scope.

(** ** Python values *)

Inductive exn : Set :=
| AttributeError
| KeyError
| TypeError
| ValueError
| ValidationError.

Inductive outcome (A : Type) : Type :=
| Ok (a : A)
| Raise (e : exn).
Arguments Ok {A} a.
Arguments Raise {A} e.

(** [outcome] is an error monad; stdpp's [x ← m; k] sequences two steps and
    stops at the first exception. *)
#[global] Instance outcome_ret : MRet outcome := fun A a => Ok a.
#[global] Instance outcome_bind : MBind outcome := fun A B k m =>
  match m with
  | Ok a => k a
  | Raise e => Raise e
  end.

(** [bool(x)] of an [Optional[str]]: [None] and the empty string are falsy. *)
Definition truthy (x : option string) : bool :=
  match x with
  | Some s => negb (String.eqb s "")
  | None => false
  end.

(** [a == b] on two [Optional[str]] values. *)
Definition py_eq (a b : option string) : bool :=
  match a, b with
  | Some s, Some t => String.eqb s t
  | None, None => true
  | _, _ => false
  end.

(** [d.get(k, dflt)] for a dict whose keys are all strings: the key [None]
    is never present. *)
Definition dict_get {V : Type} (d : gmap string V) (k : option string) (dflt : V) : V :=
  match k with
  | Some s => default dflt (d !! s)
  | None => dflt
  end.

(** [f"{x}"] of an [Optional[str]]. *)
Definition fstring (x : option string) : string :=
  match x with
  | Some s => s
  | None => "None"
  end.

(** [s.replace(c, "")] for a one-character [c]. *)
Fixpoint str_remove (c : ascii) (s : string) : string :=
  match s with
  | EmptyString => EmptyString
  | String a s' =>
      if Ascii.eqb a c then str_remove c s' else String a (str_remove c s')
  end.

(** ** The order of binary64 numbers

    [PrimFloat.ltb] and [PrimFloat.eqb] are specified by [SFltb] and [SFeqb]
    on [spec_float]; they are read here through an embedding of the numbers
    that are not NaN into triples of integers ordered lexicographically. *)

Module FloatOrder.

Definition is_nan (x : float) : bool := negb (PrimFloat.eqb x x).

Definition sf_nan (x : spec_float) : bool :=
  match x with
  | S754_nan => true
  | _ => false
  end.

Definition sf_ord (x : spec_float) : Z * Z * Z :=
  match x with
  | S754_zero _ => (0, 0, 0)
  | S754_infinity s => (if s then -2 else 2, 0, 0)
  | S754_nan => (0, 0, 0)
  | S754_finite s m e => if s then (-1, - e, - Z.pos m) else (1, e, Z.pos m)
  end.

Definition lex3_lt (a b : Z * Z * Z) : Prop :=
  let '(a1, a2, a3) := a in
  let '(b1, b2, b3) := b in
  a1 < b1 \/ (a1 = b1 /\ (a2 < b2 \/ (a2 = b2 /\ a3 < b3))).

Definition ord (x : float) : Z * Z * Z := sf_ord (Prim2SF x).

End FloatOrder.

(** ** Dates

    A [datetime] carries the seven fields Python compares, in that order.
    [datetime.strptime(s, "%m/%d/%Y")] fills the three date fields and leaves
    the time of day at zero; [now.replace(hour=0, minute=0, second=0,
    microsecond=0)] is [midnight]. *)

Module Datetime.

Record date : Set := { year : Z; month : Z; day : Z }.

Record datetime : Set :=
  { on : date; hour : Z; minute : Z; second : Z; microsecond : Z }.

Definition of_date (d : date) : datetime :=
  {| on := d; hour := 0; minute := 0; second := 0; microsecond := 0 |}.

Definition midnight (t : datetime) : datetime := of_date (on t).

Definition fields (t : datetime) : list Z :=
  [year (on t); month (on t); day (on t); hour t; minute t; second t; microsecond t].

(** Tuple order: the first differing field decides. *)
Fixpoint lex_ltb (a b : list Z) : bool :=
  match a, b with
  | x :: a', y :: b' => if x =? y then lex_ltb a' b' else x <? y
  | [], _ :: _ => true
  | _, [] => false
  end.

(** [t1 < t2] on two datetimes. *)
Definition ltb (t1 t2 : datetime) : bool := lex_ltb (fields t1) (fields t2).

(** The same order on the date fields alone. *)
Definition date_ltb (d1 d2 : date) : bool :=
  lex_ltb [year d1; month d1; day d1] [year d2; month d2; day d2].

End Datetime.

(** ** Tabular input

    A [csv.DictReader] row maps every header to its cell; a cell the reader
    could not fill because the line was shorter than the header is [None],
    here an absent key. [fieldnames] is [None] for a file without a header
    line. *)

Record csv_file : Type :=
  { fieldnames : option (list string);
    csv_rows : list (gmap string string) }.

(** ** Inventory manager and threshold resolver *)

Definition DEFAULT_LOW_THRESHOLD : float := 15%float.

Record InventoryManager : Type :=
  { inventory_levels : gmap string float }.

Section Inventory.

(** Built-ins of Python the code calls, kept abstract:
    [str.lower], [str.strip], [float(s)] ([None] when it raises
    [ValueError]) and [datetime.strptime(s, "%m/%d/%Y")] ([None] when it
    raises [ValueError]). *)
Context (str_lower : string -> string)
        (str_strip : string -> string)
        (float_of_str : string -> option float)
        (strptime_mdY : string -> option Datetime.date).

(** The thresholds read once at start-up from [ingredients.csv]. *)
Context (INGREDIENT_THRESHOLDS : gmap string float).

(** *** [InventoryManager.reload_inventory] *)

(** [h.lower().replace(" ","").replace("_","")] *)
Definition normalise (h : string) : string :=
  str_remove "_"%char (str_remove " "%char (str_lower h)).

(** [next((h for h in headers if normalise(h) in names), None)] *)
Definition find_col (names : list string) (headers : list string) : option string :=
  List.find (fun h => existsb (String.eqb (normalise h)) names) headers.

Definition name_col_of : list string -> option string :=
  find_col ["ingredientname"; "ingredient_name"; "ingredientid"; "name"].
Definition qty_col_of : list string -> option string :=
  find_col ["currentquantity"; "current_quantity"; "quantity"].
Definition exp_col_of : list string -> option string :=
  find_col ["expirationdate"; "expiration_date"; "expiry"; "expdate"].

(** The [try] around [strptime]: [true] exactly when the row is skipped as
    spoiled. *)
Definition is_expired (today : Datetime.datetime) (exp_str : string) : bool :=
  match strptime_mdY exp_str with
  | Some d => Datetime.ltb (Datetime.of_date d) today
  | None => false
  end.

(** The body of [for row in reader]. [.strip()] on a [None] cell raises
    [AttributeError] and [float(None)] raises [TypeError]; neither is caught
    by the inner handlers. *)
Definition add_lot (name_col qty_col : string) (exp_col : option string)
    (today : Datetime.datetime) (row : gmap string string)
    (totals : gmap string float) : outcome (gmap string float) :=
  name ← match row !! name_col with
         | Some c => Ok (str_strip c)
         | None => Raise AttributeError
         end;
  expired ← (if truthy exp_col then
               match row !! default "" exp_col with
               | Some c => Ok (is_expired today (str_strip c))
               | None => Raise AttributeError
               end
             else Ok false);
  if (expired : bool) then Ok totals
  else
    match row !! qty_col with
    | None => Raise TypeError
    | Some c =>
        match float_of_str c with
        | Some qty => Ok (<[name := (default 0 (totals !! name) + qty)%float]> totals)
        | None => Ok totals
        end
    end.

(** The loop under the outer [except Exception]: an exception ends the loop
    and the totals gathered so far are kept. *)
Fixpoint load_rows (name_col qty_col : string) (exp_col : option string)
    (today : Datetime.datetime) (rows : list (gmap string string))
    (totals : gmap string float) : gmap string float :=
  match rows with
  | [] => totals
  | row :: rest =>
      match add_lot name_col qty_col exp_col today row totals with
      | Ok totals' => load_rows name_col qty_col exp_col today rest totals'
      | Raise _ => totals
      end
  end.

(** [file] is [None] when [csv_path] does not exist; [now] is
    [datetime.now()]. The two [return]s leave the snapshot as it was; a file
    without header makes the column search raise, and the empty [totals] is
    stored. *)
Definition reload_inventory (self : InventoryManager) (file : option csv_file)
    (now : Datetime.datetime) : InventoryManager :=
  match file with
  | None => self
  | Some f =>
      match fieldnames f with
      | None => {| inventory_levels := ∅ |}
      | Some headers =>
          let name_col := name_col_of headers in
          let qty_col := qty_col_of headers in
          let exp_col := exp_col_of headers in
          if negb (truthy name_col) || negb (truthy qty_col) then self
          else
            let today := Datetime.midnight now in
            {| inventory_levels :=
                 load_rows (default "" name_col) (default "" qty_col) exp_col
                   today (csv_rows f) ∅ |}
      end
  end.

(** *** Quantities, thresholds and the two tests *)

Definition get_quantity (self : InventoryManager) (ingredient_name : option string) : float :=
  dict_get (inventory_levels self) ingredient_name 0%float.

Definition get_threshold (ingredient_name : option string) : float :=
  dict_get INGREDIENT_THRESHOLDS ingredient_name DEFAULT_LOW_THRESHOLD.

Definition is_low (self : InventoryManager) (ingredient_name : option string) : bool :=
  PrimFloat.ltb (get_quantity self ingredient_name) (get_threshold ingredient_name).

Definition is_out (self : InventoryManager) (ingredient_name : option string) : bool :=
  PrimFloat.leb (get_quantity self ingredient_name) 0%float.

End Inventory.

(** ** Menu candidates

    A substitution rule is a JSON object read with [.get]: each field is
    [None] when its key is absent. A menu hit is one row of the answer of the
    similarity search, with the metadata [ingest_menu] stores ([name],
    [price], and the rule list that [json.loads] rebuilds). *)

Record SubstitutionRule : Set :=
  { trigger_ingredient : option string;
    suggest_item_id : option string;
    suggest_item_name : option string;
    rag_justification : option string }.

Record SubstitutionSuggestion : Set :=
  { original_item : string;
    suggested_item : string;
    reason : string }.

Record menu_hit : Set :=
  { hit_id : string;
    hit_document : string;
    hit_distance : float;
    meta_name : string;
    meta_price : float;
    meta_suggested_substitutions : list SubstitutionRule }.

(** The dict [find_menu_candidates] builds and [check_stock_logic] updates. *)
Record MenuItem : Set :=
  { item_id : string;
    item_name : string;
    item_description : string;
    item_price : float;
    item_score : float;
    suggested_substitutions : list SubstitutionRule;
    substitution : option SubstitutionSuggestion;
    availability_status : string }.

Record MenuItemResult : Set :=
  { res_id : string;
    res_name : string;
    res_description : string;
    res_price : float;
    res_score : float;
    res_substitution : option SubstitutionSuggestion;
    res_availability_status : string }.

(** [item['substitution'] = s; item['availability_status'] = a] *)
Definition set_outcome (item : MenuItem) (s : option SubstitutionSuggestion)
    (a : string) : MenuItem :=
  {| item_id := item_id item;
     item_name := item_name item;
     item_description := item_description item;
     item_price := item_price item;
     item_score := item_score item;
     suggested_substitutions := suggested_substitutions item;
     substitution := s;
     availability_status := a |}.

(** ** Sorting

    [sorted(items, key=k)] is a stable sort of the keys under [<]. It is
    written here as the insertion sort that puts each element in front of the
    sorted rest and lets it pass the strictly smaller keys only; on keys that
    [<] orders totally this is the one stable sorted arrangement. *)

Section Sorted.

Context {A K : Type} (lt : K -> K -> bool) (key : A -> K).

Fixpoint insert_by (x : A) (l : list A) : list A :=
  match l with
  | [] => [x]
  | y :: l' =>
      if lt (key y) (key x) then y :: insert_by x l' else x :: y :: l'
  end.

Definition sorted (l : list A) : list A := foldr insert_by [] l.

End Sorted.

(** [(p1, s1) < (p2, s2)] on a pair of an [int] and a [float]: the first
    component that is not [==] decides. *)
Definition key_lt (a b : Z * float) : bool :=
  if a.1 =? b.1 then
    (if PrimFloat.eqb a.2 b.2 then false else PrimFloat.ltb a.2 b.2)
  else a.1 <? b.1.

(** ** Patron flow *)

Section Patron.

Context (INGREDIENT_THRESHOLDS : gmap string float)
        (inventory_manager : InventoryManager).

(** [menu_collection] is [None] when the connection failed at start-up, else
    the answer of [query(query_texts=[q], n_results=n)]. *)
Context (menu_collection : option (string -> nat -> list menu_hit)).

Definition candidate_of_hit (h : menu_hit) : MenuItem :=
  {| item_id := hit_id h;
     item_name := meta_name h;
     item_description := hit_document h;
     item_price := meta_price h;
     item_score := hit_distance h;
     suggested_substitutions := meta_suggested_substitutions h;
     substitution := None;
     availability_status := "In Stock" |}.

Definition find_menu_candidates (query : string) (n_results : nat) : list MenuItem :=
  match menu_collection with
  | None => []
  | Some collection => map candidate_of_hit (collection query n_results)
  end.

(** *** [check_stock_logic] *)

(** Step 1, the first loop: the state is [(trigger_status,
    active_trigger_name)]; an out-of-stock trigger ends the loop. *)
Fixpoint scan_triggers (subs_list : list SubstitutionRule)
    (trigger_status : string) (active_trigger_name : option string)
    : string * option string :=
  match subs_list with
  | [] => (trigger_status, active_trigger_name)
  | sub :: rest =>
      let trigger := trigger_ingredient sub in
      if is_out inventory_manager trigger then ("Out of Stock", trigger)
      else if is_low INGREDIENT_THRESHOLDS inventory_manager trigger then
        scan_triggers rest "Low Stock" trigger
      else scan_triggers rest trigger_status active_trigger_name
  end.

(** Step 3, the second loop: the first rule whose trigger [==] the
    remembered one. *)
Definition find_substitute (subs_list : list SubstitutionRule)
    (active_trigger_name : option string) : option SubstitutionRule :=
  List.find (fun sub => py_eq (trigger_ingredient sub) active_trigger_name) subs_list.

Definition make_suggestion (item : MenuItem) (sub : SubstitutionRule)
    : SubstitutionSuggestion :=
  {| original_item := item_name item;
     suggested_item := fstring (suggest_item_name sub);
     reason := default "Better availability" (rag_justification sub) |}.

Definition check_stock_logic (item : MenuItem) : MenuItem :=
  let subs_list := suggested_substitutions item in
  let '(trigger_status, active_trigger_name) :=
    scan_triggers subs_list "In Stock" None in
  if String.eqb trigger_status "In Stock" then item
  else
    match find_substitute subs_list active_trigger_name with
    | Some sub => set_outcome item (Some (make_suggestion item sub)) "Substituted"
    | None => set_outcome item (substitution item) trigger_status
    end.

(** *** [rank_results] *)

(** [status_priority.get(status, 99)] *)
Definition status_priority (status : string) : Z :=
  if String.eqb status "In Stock" then 0
  else if String.eqb status "Substituted" then 1
  else if String.eqb status "Low Stock" then 2
  else if String.eqb status "Out of Stock" then 3
  else 99.

Definition sort_key (item : MenuItem) : Z * float :=
  (status_priority (availability_status item), item_score item).

Definition rank_results (items : list MenuItem) : list MenuItem :=
  sorted key_lt sort_key items.

(** *** [patron_search] *)

Definition not_out_of_stock (item : MenuItem) : bool :=
  negb (String.eqb (availability_status item) "Out of Stock").

Definition to_result (item : MenuItem) : MenuItemResult :=
  {| res_id := item_id item;
     res_name := item_name item;
     res_description := item_description item;
     res_price := item_price item;
     res_score := item_score item;
     res_substitution := substitution item;
     res_availability_status := availability_status item |}.

(** The list under the key ["results"] of the response. *)
Definition patron_search (query : string) : list MenuItemResult :=
  let candidates := find_menu_candidates query 5 in
  let checked := map check_stock_logic candidates in
  let available_candidates := List.filter not_out_of_stock checked in
  let ranked := rank_results available_candidates in
  map to_result ranked.

End Patron.

(** ** The ranking as the specification words it

    [a] may stand before [b] when its tier is lower, or the tiers are equal
    and its score is not greater; two candidates rank alike when they have
    the same tier and [==] scores. *)

Definition tier_then_score (a b : MenuItem) : Prop :=
  let ta := status_priority (availability_status a) in
  let tb := status_priority (availability_status b) in
  ta < tb \/ (ta = tb /\ PrimFloat.leb (item_score a) (item_score b) = true).

Definition ranks_as (tier : Z) (relevance : float) (item : MenuItem) : bool :=
  (status_priority (availability_status item) =? tier)
  && PrimFloat.eqb (item_score item) relevance.

(** ** The exclusion scenario as the specification words it

    The item of hit [h] is absent from the patron response whenever some
    ingredient [b] has quantity zero and no rule of the item refers to it.
    (The code keeps no list of the ingredients of a menu item: the rules are
    all it knows of them.) *)

Definition excluded_when_unreferenced_out
    (INGREDIENT_THRESHOLDS : gmap string float) (inventory_manager : InventoryManager)
    (collection : string -> nat -> list menu_hit)
    (query : string) (h : menu_hit) (b : string) : Prop :=
  h ∈ collection query 5%nat ->
  get_quantity inventory_manager (Some b) = 0%float ->
  (forall sub, sub ∈ meta_suggested_substitutions h ->
               trigger_ingredient sub <> Some b) ->
  forall r,
    r ∈ patron_search INGREDIENT_THRESHOLDS inventory_manager (Some collection) query ->
    res_id r <> hit_id h.

(** [inventory_levels[b] = q] *)
Definition set_quantity (self : InventoryManager) (b : string) (q : float)
    : InventoryManager :=
  {| inventory_levels := <[b := q]> (inventory_levels self) |}.

(** ** Owner flow

    A metadata value of the inventory collection is a string or a number,
    the two kinds [ingest_inventory] writes. *)

Inductive meta_value : Set :=
| MStr (s : string)
| MNum (x : float).

Record inventory_doc : Type :=
  { doc_id : string;
    doc_text : string;
    doc_meta : gmap string meta_value }.

Record InventorySearchResult : Set :=
  { ingredient_name : string;
    category : string;
    current_quantity : float;
    unit : string;
    score : float;
    status : string }.

(** A [str] field of the response model: a string passes, [None] is
    rejected with a validation error (and so is a number, which a strict
    [str] field does not convert). *)
Definition str_field (v : option meta_value) : outcome string :=
  match v with
  | Some (MStr s) => Ok s
  | _ => Raise ValidationError
  end.

(** The ingredient name as a dictionary key: only a string can be a key of
    the threshold table. *)
Definition name_key (v : option meta_value) : option string :=
  match v with
  | Some (MStr s) => Some s
  | _ => None
  end.

Section Owner.

Context (float_of_str : string -> option float).
Context (INGREDIENT_THRESHOLDS : gmap string float).

(** *** [ingest_inventory] (ingest_data.py)

    [rows] is [None] when [inventory_lots.csv] does not exist. The rows are
    those of a file whose lines are as long as its header: an absent key is
    a column the file does not have, for which [row[k]] raises [KeyError]
    (a shorter line, whose missing cells the reader fills with [None], has
    no place in this row type). [float] raises [ValueError]; nothing catches
    either. *)

Definition column (row : gmap string string) (k : string) : outcome string :=
  match row !! k with
  | Some c => Ok c
  | None => Raise KeyError
  end.

Definition ingest_row (row : gmap string string) : outcome inventory_doc :=
  name ← column row "IngredientName";
  cat ← column row "Category";
  lot ← column row "LotID";
  qty_cell ← column row "CurrentQuantity";
  qty ← match float_of_str qty_cell with
        | Some q => Ok q
        | None => Raise ValueError
        end;
  default_unit ← column row "DefaultUnit";
  expiration ← column row "ExpirationDate";
  Ok {| doc_id := lot;
        doc_text := name +:+ ". Category: " +:+ cat +:+ ".";
        doc_meta := <["IngredientName" := MStr name]>
                    (<["Category" := MStr cat]>
                    (<["CurrentQuantity" := MNum qty]>
                    (<["DefaultUnit" := MStr default_unit]>
                    (<["ExpirationDate" := MStr expiration]> ∅)))) |}.

Fixpoint ingest_rows (rows : list (gmap string string)) : outcome (list inventory_doc) :=
  match rows with
  | [] => Ok []
  | row :: rest =>
      d ← ingest_row row;
      ds ← ingest_rows rest;
      Ok (d :: ds)
  end.

(** The reading loop: the documents the run gathers, which it hands to
    [collection.add] in one batch after the last row
    ([ingest_inventory_into] below is the run with the store). [Ok docs]
    says that the loop ended without exception with the batch [docs]. *)
Definition ingest_inventory (rows : option (list (gmap string string)))
    : outcome (list inventory_doc) :=
  match rows with
  | None => Ok []
  | Some rs => ingest_rows rs
  end.

(** *** [get_inventory] (api.py) *)

(** One pass of the loop body after the duplicate test. [qty <= 0] on a
    string raises [TypeError]; building the response record validates its
    fields. *)
Definition inventory_entry (meta : gmap string meta_value)
    : outcome InventorySearchResult :=
  let name := meta !! "ingredient_name" in
  let qty := default (MNum 0%float) (meta !! "current_quantity") in
  let threshold := get_threshold INGREDIENT_THRESHOLDS (name_key name) in
  q ← match qty with
      | MNum q => Ok q
      | MStr _ => Raise TypeError
      end;
  let status :=
    if PrimFloat.leb q 0%float then "Out"
    else if PrimFloat.ltb q threshold then "Low"
    else "High" in
  n ← str_field name;
  c ← str_field (Some (default (MStr "General") (meta !! "category")));
  u ← str_field (Some (default (MStr "units") (meta !! "unit")));
  Ok {| ingredient_name := n;
        category := c;
        current_quantity := q;
        unit := u;
        score := 1%float;
        status := status |}.

(** [seen_ingredients] holds the names of the entries built so far; these
    are strings, since an entry whose name is not a string raises before the
    next document is read. *)
Definition seen_mem (name : option meta_value) (seen : gset string) : bool :=
  match name with
  | Some (MStr s) => bool_decide (s ∈ seen)
  | _ => false
  end.

Definition seen_add (name : option meta_value) (seen : gset string) : gset string :=
  match name with
  | Some (MStr s) => {[s]} ∪ seen
  | _ => seen
  end.

Fixpoint inventory_listing (metadatas : list (gmap string meta_value))
    (seen_ingredients : gset string) : outcome (list InventorySearchResult) :=
  match metadatas with
  | [] => Ok []
  | meta :: rest =>
      let name := meta !! "ingredient_name" in
      if seen_mem name seen_ingredients then inventory_listing rest seen_ingredients
      else
        r ← inventory_entry meta;
        output ← inventory_listing rest (seen_add name seen_ingredients);
        Ok (r :: output)
  end.

(** [inventory_collection] is [None] when the connection failed at start-up,
    else the documents [inventory_collection.get()] returns. *)
Definition get_inventory (inventory_collection : option (list inventory_doc))
    : outcome (list InventorySearchResult) :=
  match inventory_collection with
  | None => Ok []
  | Some docs => inventory_listing (map doc_meta docs) ∅
  end.

End Owner.

(** ** The aggregate as the specification words it

    The quantity of an ingredient is the sum, in row order from [0.0], of the
    quantities of its lots; a lot is left out when its expiration date is
    present, parseable and strictly before the as-of date, and a row whose
    quantity is not a number adds nothing. *)

Section AggregateSpec.

Context (str_strip : string -> string)
        (float_of_str : string -> option float)
        (strptime_mdY : string -> option Datetime.date).

Definition lot_excluded (as_of : Datetime.date) (expiration : option string) : bool :=
  match expiration with
  | Some e =>
      match strptime_mdY (str_strip e) with
      | Some d => Datetime.date_ltb d as_of
      | None => false
      end
  | None => false
  end.

(** What one row adds to ingredient [n], if anything. [exp_col] is the
    expiration column when the table has one. *)
Definition lot_quantity (name_col qty_col : string) (exp_col : option string)
    (as_of : Datetime.date) (n : string) (row : gmap string string) : option float :=
  match row !! name_col with
  | Some c =>
      if negb (String.eqb (str_strip c) n) then None
      else if lot_excluded as_of (exp_col ≫= (row !!.)) then None
      else row !! qty_col ≫= float_of_str
  | None => None
  end.

Definition aggregate (name_col qty_col : string) (exp_col : option string)
    (as_of : Datetime.date) (rows : list (gmap string string)) (n : string) : float :=
  fold_left PrimFloat.add (omap (lot_quantity name_col qty_col exp_col as_of n) rows) 0%float.

(** Every cell the loop reads is filled: the row is as long as the header. *)
Definition complete_row (name_col qty_col : string) (exp_col : option string)
    (row : gmap string string) : Prop :=
  is_Some (row !! name_col) /\ is_Some (row !! qty_col) /\
  (forall e, exp_col = Some e -> is_Some (row !! e)).

End AggregateSpec.

(** ** Stand-ins for the built-ins, to run the definitions on examples

    They agree with Python on the strings used below and are no part of any
    general statement: ASCII lower-casing and stripping, unsigned decimal
    integers, and dates written with two, two and four digits. *)

Module Sample.

Definition lower_char (c : ascii) : ascii :=
  let n := N_of_ascii c in
  if ((65 <=? n) && (n <=? 90))%N then ascii_of_N (n + 32) else c.

Fixpoint str_lower (s : string) : string :=
  match s with
  | EmptyString => EmptyString
  | String c s' => String (lower_char c) (str_lower s')
  end.

Definition is_space (c : ascii) : bool :=
  let n := N_of_ascii c in
  (((9 <=? n) && (n <=? 13)) || ((28 <=? n) && (n <=? 32)))%N.

Fixpoint lstrip (s : string) : string :=
  match s with
  | String c s' => if is_space c then lstrip s' else s
  | EmptyString => EmptyString
  end.

Fixpoint rstrip (s : string) : string :=
  match s with
  | String c s' =>
      match rstrip s' with
      | EmptyString => if is_space c then EmptyString else String c EmptyString
      | t => String c t
      end
  | EmptyString => EmptyString
  end.

Definition str_strip (s : string) : string := rstrip (lstrip s).

Definition digit (c : ascii) : option Z :=
  let n := N_of_ascii c in
  if ((48 <=? n) && (n <=? 57))%N then Some (Z.of_N n - 48) else None.

Fixpoint digits (s : string) (acc : Z) : option Z :=
  match s with
  | EmptyString => Some acc
  | String c s' =>
      match digit c with
      | Some d => digits s' (10 * acc + d)
      | None => None
      end
  end.

Definition number (s : string) : option Z :=
  match s with
  | EmptyString => None
  | _ => digits s 0
  end.

Definition float_of_str (s : string) : option float :=
  match number s with
  | Some z => if z <? 2 ^ 53 then Some (PrimFloat.of_uint63 (Uint63.of_Z z)) else None
  | None => None
  end.

Definition leap_year (y : Z) : bool :=
  (y mod 4 =? 0) && (negb (y mod 100 =? 0) || (y mod 400 =? 0)).

Definition days_in_month (y m : Z) : Z :=
  if m =? 2 then (if leap_year y then 29 else 28)
  else if (m =? 4) || (m =? 6) || (m =? 9) || (m =? 11) then 30
  else 31.

Definition strptime_mdY (s : string) : option Datetime.date :=
  match s with
  | String m1 (String m2 (String "/" (String d1 (String d2 (String "/" y))))) =>
      match number (String m1 (String m2 EmptyString)),
            number (String d1 (String d2 EmptyString)),
            number y with
      | Some m, Some d, Some yy =>
          if (String.length y =? 4)%nat && (1 <=? m) && (m <=? 12)
             && (1 <=? d) && (d <=? days_in_month yy m) && (1 <=? yy)
          then Some {| Datetime.year := yy; Datetime.month := m; Datetime.day := d |}
          else None
      | _, _, _ => None
      end
  | _ => None
  end.

End Sample.

(** ** Threshold table ([load_thresholds_from_csv], api.py) *)

(** [needle in hay] on strings. *)
Fixpoint contains (needle hay : string) : bool :=
  String.prefix needle hay
  || match hay with
     | EmptyString => false
     | String _ hay' => contains needle hay'
     end.

Section Thresholds.

Context (str_lower : string -> string)
        (str_strip : string -> string)
        (float_of_str : string -> option float).

(** [any(x in h.lower() for x in words)] *)
Definition mentions (words : list string) (h : string) : bool :=
  existsb (fun x => contains x (str_lower h)) words.

Definition threshold_name_col (headers : list string) : option string :=
  List.find (mentions ["ingredient"; "name"; "item"]) headers.
Definition threshold_val_col (headers : list string) : option string :=
  List.find (mentions ["threshold"; "low"; "min"; "limit"; "quantity"]) headers.

(** The body of [for row in reader]: a value that is no number is skipped
    ([ValueError], [continue]); a [None] cell raises past the inner handler. *)
Definition threshold_row (name_col val_col : string) (row : gmap string string)
    (thresholds : gmap string float) : outcome (gmap string float) :=
  match row !! name_col with
  | None => Raise AttributeError
  | Some c =>
      let name := str_strip c in
      match row !! val_col with
      | None => Raise TypeError
      | Some v =>
          match float_of_str v with
          | Some val => Ok (<[name := val]> thresholds)
          | None => Ok thresholds
          end
      end
  end.

Fixpoint threshold_rows (name_col val_col : string) (rows : list (gmap string string))
    (thresholds : gmap string float) : outcome (gmap string float) :=
  match rows with
  | [] => Ok thresholds
  | row :: rest =>
      t ← threshold_row name_col val_col row thresholds;
      threshold_rows name_col val_col rest t
  end.

(** [file] is [None] when the path does not exist. The outer handler
    answers any exception with the empty table. *)
Definition load_thresholds_from_csv (file : option csv_file) : gmap string float :=
  match file with
  | None => ∅
  | Some f =>
      match fieldnames f with
      | None => ∅
      | Some headers =>
          let name_col := threshold_name_col headers in
          let val_col := threshold_val_col headers in
          if negb (truthy name_col) || negb (truthy val_col) then ∅
          else
            match threshold_rows (default "" name_col) (default "" val_col)
                    (csv_rows f) ∅ with
            | Ok thresholds => thresholds
            | Raise _ => ∅
            end
      end
  end.

(** The value one row gives to name [n], if any. *)
Definition threshold_of (name_col val_col : string) (n : string)
    (row : gmap string string) : option float :=
  match row !! name_col with
  | Some c => if String.eqb (str_strip c) n then row !! val_col ≫= float_of_str else None
  | None => None
  end.

End Thresholds.

(** ** Owner search ([find_inventory_candidates], [owner_substitute], api.py) *)

Record inventory_hit : Type :=
  { ihit_id : string;
    ihit_meta : gmap string meta_value;
    ihit_distance : float }.

Record OwnerSearchResponse : Set :=
  { results : list InventorySearchResult;
    patron_results : list MenuItemResult }.

Section OwnerSearch.

Context (INGREDIENT_THRESHOLDS : gmap string float).

(** The loop body after the duplicate test; the score is the distance of
    the hit. *)
Definition candidate_entry (h : inventory_hit) : outcome InventorySearchResult :=
  let meta := ihit_meta h in
  let name := meta !! "ingredient_name" in
  let qty := default (MNum 0%float) (meta !! "current_quantity") in
  let threshold := get_threshold INGREDIENT_THRESHOLDS (name_key name) in
  q ← match qty with
      | MNum q => Ok q
      | MStr _ => Raise TypeError
      end;
  let status :=
    if PrimFloat.leb q 0%float then "Out"
    else if PrimFloat.ltb q threshold then "Low"
    else "High" in
  n ← str_field name;
  c ← str_field (Some (default (MStr "General") (meta !! "category")));
  u ← str_field (Some (default (MStr "units") (meta !! "unit")));
  Ok {| ingredient_name := n;
        category := c;
        current_quantity := q;
        unit := u;
        score := ihit_distance h;
        status := status |}.

Fixpoint inventory_candidates (hits : list inventory_hit)
    (seen_ingredients : gset string) : outcome (list InventorySearchResult) :=
  match hits with
  | [] => Ok []
  | h :: rest =>
      let name := ihit_meta h !! "ingredient_name" in
      if seen_mem name seen_ingredients then inventory_candidates rest seen_ingredients
      else
        r ← candidate_entry h;
        candidates ← inventory_candidates rest (seen_add name seen_ingredients);
        Ok (r :: candidates)
  end.

(** [inventory_collection] is [None] when the connection failed at start-up,
    else the answer of [query(query_texts=[q], n_results=n)]. *)
Definition find_inventory_candidates
    (inventory_collection : option (string -> nat -> list inventory_hit))
    (query : string) (n_results : nat) : outcome (list InventorySearchResult) :=
  match inventory_collection with
  | None => Ok []
  | Some collection => inventory_candidates (collection query n_results) ∅
  end.

Definition owner_substitute
    (inventory_collection : option (string -> nat -> list inventory_hit))
    (query : string) : outcome OwnerSearchResponse :=
  inventory_results ← find_inventory_candidates inventory_collection query 5;
  Ok {| results := inventory_results; patron_results := [] |}.

End OwnerSearch.

(** ** Menu build ([get_col], [add_substitution],
    data_pipeline_generate_menu_json.py)

    A cleaned row maps the header names to their cells; a cell that is
    [None] reads like an absent column in [get_col], and is an absent key
    here. *)

(** [get_col(row, candidates, default)]: the first candidate column whose
    cell is not empty. *)
Fixpoint get_col (row : gmap string string) (candidates : list string)
    (dflt : string) : string :=
  match candidates with
  | [] => dflt
  | col :: rest =>
      match row !! col with
      | Some val => if truthy (Some val) then val else get_col row rest dflt
      | None => get_col row rest dflt
      end
  end.

Section MenuBuild.

Context (str_strip : string -> string).

(** [s['suggest_item_name']] on a rule: [KeyError] when the key is absent. *)
Definition rule_name (s : SubstitutionRule) : outcome string :=
  match suggest_item_name s with
  | Some n => Ok n
  | None => Raise KeyError
  end.

Fixpoint rule_names (subs : list SubstitutionRule) : outcome (list string) :=
  match subs with
  | [] => Ok []
  | s :: rest =>
      n ← rule_name s;
      ns ← rule_names rest;
      Ok (n :: ns)
  end.

(** [add_substitution(row, item_obj)], on the rule list of [item_obj]. *)
Definition add_substitution (row : gmap string string)
    (suggested_substitutions : list SubstitutionRule)
    : outcome (list SubstitutionRule) :=
  let sub_name :=
    str_strip (get_col row ["SubstituteName"; "Substitute_ItemName"; "Substitute Name"] "") in
  if truthy (Some sub_name) then
    let sub_entry :=
      {| trigger_ingredient := Some (get_col row ["Category"] "General");
         suggest_item_id := Some (get_col row ["Substitute_ID"; "SubstituteID"] "");
         suggest_item_name := Some sub_name;
         rag_justification :=
           Some (get_col row ["RAG_Justification"; "Justification"; "RAG Justification"] "") |} in
    existing_subs ← rule_names suggested_substitutions;
    if existsb (String.eqb sub_name) existing_subs
    then Ok suggested_substitutions
    else Ok (suggested_substitutions ++ [sub_entry])
  else Ok suggested_substitutions.

(** The rule list of a menu item after the rows that name it, from the
    empty list the item is created with. *)
Fixpoint add_substitutions (rows : list (gmap string string))
    (suggested_substitutions : list SubstitutionRule)
    : outcome (list SubstitutionRule) :=
  match rows with
  | [] => Ok suggested_substitutions
  | row :: rest =>
      subs ← add_substitution row suggested_substitutions;
      add_substitutions rest subs
  end.

End MenuBuild.

(** ** Menu ingest ([ingest_menu], ingest_data.py)

    An item of [menu.json] is read by key: a field is [None] when its key is
    absent. [data['menu']] maps each category to its items, in file order.
    The rule list goes through [json.dumps] at ingest and [json.loads] at
    search, and is kept as the list it is. *)

Record menu_item : Type :=
  { mi_id : option string;
    mi_name : option string;
    mi_description : option string;
    mi_category : option string;
    mi_price : option float;
    mi_tags : option (list string);
    mi_suggested_substitutions : option (list SubstitutionRule) }.

Record menu_file : Type :=
  { data_menu : option (list (string * list menu_item)) }.

Record menu_doc : Type :=
  { mdoc_id : string;
    mdoc_text : string;
    mdoc_name : string;
    mdoc_category : string;
    mdoc_price : float;
    mdoc_suggested_substitutions : list SubstitutionRule }.

(** [item[key]]: [KeyError] when the key is absent. *)
Definition required {A : Type} (field : option A) : outcome A :=
  match field with
  | Some a => Ok a
  | None => Raise KeyError
  end.

(** [sep.join(words)] *)
Fixpoint join (sep : string) (words : list string) : string :=
  match words with
  | [] => ""
  | [w] => w
  | w :: rest => w +:+ sep +:+ join sep rest
  end.

Definition process_item (item : menu_item) : outcome menu_doc :=
  name ← required (mi_name item);
  description ← required (mi_description item);
  let doc_text :=
    name +:+ ". " +:+ description +:+ ". Tags: "
    +:+ join ", " (default [] (mi_tags item)) in
  id ← required (mi_id item);
  cat ← required (mi_category item);
  price ← required (mi_price item);
  Ok {| mdoc_id := id;
        mdoc_text := doc_text;
        mdoc_name := name;
        mdoc_category := cat;
        mdoc_price := price;
        mdoc_suggested_substitutions :=
          default [] (mi_suggested_substitutions item) |}.

Fixpoint process_items (items : list menu_item) : outcome (list menu_doc) :=
  match items with
  | [] => Ok []
  | item :: rest =>
      d ← process_item item;
      ds ← process_items rest;
      Ok (d :: ds)
  end.

(** The reading loop: the documents the run gathers, which it hands to
    [collection.add] in one batch after every item was read
    ([ingest_menu_into] below is the run with the store); [file] is [None]
    when [menu.json] does not exist. [Ok docs] says that the loop ended
    without exception with the batch [docs]. *)
Definition ingest_menu (file : option menu_file) : outcome (list menu_doc) :=
  match file with
  | None => Ok []
  | Some data =>
      categories ← required (data_menu data);
      process_items (concat (map snd categories))
  end.

(** The hit a stored document makes at distance [distance]. *)
Definition hit_of_doc (d : menu_doc) (distance : float) : menu_hit :=
  {| hit_id := mdoc_id d;
     hit_document := mdoc_text d;
     hit_distance := distance;
     meta_name := mdoc_name d;
     meta_price := mdoc_price d;
     meta_suggested_substitutions := mdoc_suggested_substitutions d |}.

(** ** A run of the ingest against the store (ingest_data.py)

    Each ingest creates its collection anew, reads its file and, when it
    gathered at least one document, hands the batch to [collection.add].
    The store is not this repository's: [collection_add] stands for what it
    does with a batch, answering with the collection that then holds it or
    raising by checks of its own (an id that occurs twice in the batch, for
    one). [created] is the collection as [create_collection] made it. *)

Section Store.

Context {collection : Type} (created : collection).

(** [if documents: collection.add(...)] *)
Definition add_documents {doc : Type}
    (collection_add : list doc -> outcome collection) (documents : list doc)
    : outcome collection :=
  match documents with
  | [] => Ok created
  | _ :: _ => collection_add documents
  end.

Definition ingest_inventory_into (float_of_str : string -> option float)
    (collection_add : list inventory_doc -> outcome collection)
    (rows : option (list (gmap string string))) : outcome collection :=
  documents ← ingest_inventory float_of_str rows;
  add_documents collection_add documents.

Definition ingest_menu_into
    (collection_add : list menu_doc -> outcome collection)
    (file : option menu_file) : outcome collection :=
  documents ← ingest_menu file;
  add_documents collection_add documents.

End Store.

(** The rows [csv.DictReader] reads from lines that are as long as the
    header: every row has one cell under every header, and no other. *)
Definition full_lines (headers : list string) (rows : list (gmap string string)) : Prop :=
  Forall (fun row => dom row = (list_to_set headers : gset string)) rows.

(** The columns [ingest_inventory] reads. *)
Definition lot_columns : list string :=
  ["IngredientName"; "Category"; "LotID"; "CurrentQuantity"; "DefaultUnit";
   "ExpirationDate"].

(** * Properties *)

(** ** The order of binary64 numbers *)

Module FloatOrderFacts.
Import FloatOrder.

Ltac order_case :=
  split; intros; try reflexivity; try discriminate; try lia.

Ltac compare_cases e1 e2 m1 m2 :=
  destruct (Z.compare_spec e1 e2); simpl;
  try (change (Pos.compare_cont Eq m1 m2) with (Pos.compare m1 m2);
       destruct (Pos.compare_spec m1 m2); simpl).

Lemma SFltb_ord x y :
  sf_nan x = false -> sf_nan y = false ->
  SFltb x y = true <-> lex3_lt (sf_ord x) (sf_ord y).
Proof.
  unfold SFltb.
  destruct x as [sx|sx| |sx mx e1], y as [sy|sy| |sy my e2]; simpl;
    try discriminate; intros _ _;
    try destruct sx; try destruct sy; simpl;
    try (compare_cases e1 e2 mx my); order_case.
Qed.

Lemma SFeqb_ord x y :
  sf_nan x = false -> sf_nan y = false ->
  SFeqb x y = true <-> sf_ord x = sf_ord y.
Proof.
  unfold SFeqb.
  destruct x as [sx|sx| |sx mx e1], y as [sy|sy| |sy my e2]; simpl;
    try discriminate; intros _ _;
    try destruct sx; try destruct sy; simpl;
    try (compare_cases e1 e2 mx my); order_case;
    try match goal with
        | H : (_, _, _) = (_, _, _) |- _ => injection H; intros; lia
        end;
    repeat f_equal; lia.
Qed.

Lemma sf_nan_eqb x : sf_nan x = negb (SFeqb x x).
Proof.
  unfold SFeqb.
  destruct x as [s|s| |s m e]; simpl; try reflexivity; try (destruct s; reflexivity).
  destruct s; rewrite Z.compare_refl;
    change (Pos.compare_cont Eq m m) with (Pos.compare m m);
    rewrite Pos.compare_refl; reflexivity.
Qed.

Lemma is_nan_spec x : is_nan x = sf_nan (Prim2SF x).
Proof. unfold is_nan. rewrite FloatAxioms.eqb_spec. symmetry. apply sf_nan_eqb. Qed.

Lemma SFltb_nan_l x y : sf_nan x = true -> SFltb x y = false.
Proof. destruct x; try discriminate. reflexivity. Qed.

Lemma SFltb_nan_r x y : sf_nan y = true -> SFltb x y = false.
Proof.
  destruct y; try discriminate. intros _. unfold SFltb.
  destruct x as [s|s| |s m e]; simpl; try reflexivity; destruct s; reflexivity.
Qed.

Lemma SFeqb_nan_l x y : sf_nan x = true -> SFeqb x y = false.
Proof. destruct x; try discriminate. reflexivity. Qed.

Lemma SFeqb_nan_r x y : sf_nan y = true -> SFeqb x y = false.
Proof.
  destruct y; try discriminate. intros _. unfold SFeqb.
  destruct x as [s|s| |s m e]; simpl; try reflexivity; destruct s; reflexivity.
Qed.

(** [x < y] on numbers that are not NaN is the order of their triples. *)
Lemma ltb_ord x y :
  is_nan x = false -> is_nan y = false ->
  PrimFloat.ltb x y = true <-> lex3_lt (ord x) (ord y).
Proof.
  rewrite !is_nan_spec, FloatAxioms.ltb_spec. apply SFltb_ord.
Qed.

Lemma eqb_ord x y :
  is_nan x = false -> is_nan y = false ->
  PrimFloat.eqb x y = true <-> ord x = ord y.
Proof.
  rewrite !is_nan_spec, FloatAxioms.eqb_spec. apply SFeqb_ord.
Qed.

(** [x == y] excludes [x < y], NaN or not. *)
Lemma eqb_not_ltb x y : PrimFloat.eqb x y = true -> PrimFloat.ltb x y = false.
Proof.
  rewrite FloatAxioms.eqb_spec, FloatAxioms.ltb_spec. intros He.
  destruct (sf_nan (Prim2SF x)) eqn:Hx.
  { now rewrite SFeqb_nan_l in He. }
  destruct (sf_nan (Prim2SF y)) eqn:Hy.
  { now rewrite SFeqb_nan_r in He. }
  apply (SFeqb_ord _ _ Hx Hy) in He.
  destruct (SFltb (Prim2SF x) (Prim2SF y)) eqn:Hl; [|reflexivity].
  apply (SFltb_ord _ _ Hx Hy) in Hl. rewrite He in Hl.
  unfold lex3_lt in Hl. destruct (sf_ord (Prim2SF y)) as [[a b] c]. lia.
Qed.

Lemma ltb_irrefl x : PrimFloat.ltb x x = false.
Proof.
  destruct (is_nan x) eqn:Hx.
  - rewrite FloatAxioms.ltb_spec. apply SFltb_nan_l. now rewrite <- is_nan_spec.
  - apply eqb_not_ltb. unfold is_nan in Hx. now apply negb_false_iff in Hx.
Qed.

(** [x < y] excludes [y < x] and [x == y], NaN or not. *)
Lemma ltb_asym x y : PrimFloat.ltb x y = true -> PrimFloat.ltb y x = false.
Proof.
  rewrite !FloatAxioms.ltb_spec. intros Hl.
  destruct (sf_nan (Prim2SF x)) eqn:Hx.
  { now rewrite SFltb_nan_l in Hl. }
  destruct (sf_nan (Prim2SF y)) eqn:Hy.
  { now rewrite SFltb_nan_r in Hl. }
  apply (SFltb_ord _ _ Hx Hy) in Hl.
  destruct (SFltb (Prim2SF y) (Prim2SF x)) eqn:Hr; [|reflexivity].
  apply (SFltb_ord _ _ Hy Hx) in Hr. unfold lex3_lt in *.
  destruct (sf_ord (Prim2SF x)) as [[a b] c], (sf_ord (Prim2SF y)) as [[a' b'] c'].
  lia.
Qed.

Lemma ltb_not_eqb x y : PrimFloat.ltb x y = true -> PrimFloat.eqb x y = false.
Proof.
  intros Hl. destruct (PrimFloat.eqb x y) eqn:He; [|reflexivity].
  apply eqb_not_ltb in He. congruence.
Qed.

Lemma SFleb_ord x y :
  sf_nan x = false -> sf_nan y = false ->
  SFleb x y = true <-> ~ lex3_lt (sf_ord y) (sf_ord x).
Proof.
  unfold SFleb.
  destruct x as [sx|sx| |sx mx e1], y as [sy|sy| |sy my e2]; simpl;
    try discriminate; intros _ _;
    try destruct sx; try destruct sy; simpl;
    try (compare_cases e1 e2 mx my); order_case.
Qed.

(** [x <= y] on numbers that are not NaN is "not [y < x]". *)
Lemma leb_ord x y :
  is_nan x = false -> is_nan y = false ->
  PrimFloat.leb x y = true <-> ~ lex3_lt (ord y) (ord x).
Proof.
  rewrite !is_nan_spec, FloatAxioms.leb_spec. apply SFleb_ord.
Qed.

End FloatOrderFacts.

(** ** Dates *)

Module DatetimeFacts.
Import Datetime.

(** Against a midnight, a date at midnight compares as the dates do. *)
Lemma ltb_midnight d t :
  Datetime.ltb (of_date d) (midnight t) = date_ltb d (on t).
Proof.
  unfold Datetime.ltb, date_ltb, midnight, of_date, fields. simpl.
  destruct (year d =? year (on t)); [|reflexivity].
  destruct (month d =? month (on t)); [|reflexivity].
  destruct (day d =? day (on t)); reflexivity.
Qed.

End DatetimeFacts.

(** ** Inventory manager *)

Section InventoryFacts.

Context (str_lower : string -> string)
        (str_strip : string -> string)
        (float_of_str : string -> option float)
        (strptime_mdY : string -> option Datetime.date).
Context (INGREDIENT_THRESHOLDS : gmap string float).

Local Abbreviation add_lot := (add_lot str_strip float_of_str strptime_mdY).
Local Abbreviation load_rows := (load_rows str_strip float_of_str strptime_mdY).
Local Abbreviation reload_inventory :=
  (reload_inventory str_lower str_strip float_of_str strptime_mdY).
Local Abbreviation lot_quantity := (lot_quantity str_strip float_of_str strptime_mdY).
Local Abbreviation aggregate := (aggregate str_strip float_of_str strptime_mdY).
Local Abbreviation get_threshold := (get_threshold INGREDIENT_THRESHOLDS).
Local Abbreviation is_low := (is_low INGREDIENT_THRESHOLDS).

(** The expiry test of the loop is the date-only test of the specification. *)
Lemma is_expired_excluded now c :
  is_expired strptime_mdY (Datetime.midnight now) (str_strip c)
  = lot_excluded str_strip strptime_mdY (Datetime.on now) (Some c).
Proof.
  unfold is_expired, lot_excluded.
  destruct (strptime_mdY (str_strip c)) as [d|]; [|reflexivity].
  apply DatetimeFacts.ltb_midnight.
Qed.

(** One complete row never raises, and changes the quantity of [n] by what
    the specification lets the row add. *)
Lemma add_lot_complete nc qc ec now row totals :
  complete_row nc qc (if truthy ec then ec else None) row ->
  exists totals',
    add_lot nc qc ec (Datetime.midnight now) row totals = Ok totals' /\
    forall n,
      default 0%float (totals' !! n)
      = match lot_quantity nc qc (if truthy ec then ec else None) (Datetime.on now) n row with
        | Some q => (default 0 (totals !! n) + q)%float
        | None => default 0%float (totals !! n)
        end.
Proof.
  intros ([cn Hn] & [cq Hq] & He).
  unfold add_lot, lot_quantity. rewrite Hn, Hq. simpl.
  assert (Hexp : exists b,
    (if truthy ec then
       match row !! default "" ec with
       | Some c => Ok (is_expired strptime_mdY (Datetime.midnight now) (str_strip c))
       | None => Raise AttributeError
       end
     else Ok false) = Ok b /\
    b = lot_excluded str_strip strptime_mdY (Datetime.on now)
          ((if truthy ec then ec else None) ≫= (row !!.))).
  { destruct (truthy ec) eqn:Ht.
    - destruct ec as [e|]; [|discriminate]. simpl.
      destruct (He e eq_refl) as [c Hc]. rewrite Hc.
      eexists; split; [reflexivity|]. apply is_expired_excluded.
    - eexists; split; reflexivity. }
  destruct Hexp as (b & -> & Hb). simpl. rewrite <- Hb.
  destruct b.
  - exists totals. split; [reflexivity|]. intros n.
    destruct (negb (String.eqb (str_strip cn) n)); reflexivity.
  - destruct (float_of_str cq) as [q|] eqn:Hf; simpl.
    + eexists; split; [reflexivity|]. intros n.
      destruct (String.eqb_spec (str_strip cn) n) as [->|Hne]; simpl.
      * now rewrite lookup_insert_eq.
      * now rewrite lookup_insert_ne.
    + exists totals. split; [reflexivity|]. intros n.
      destruct (negb (String.eqb (str_strip cn) n)); reflexivity.
Qed.

Lemma load_rows_complete nc qc ec now rows : forall totals n,
  Forall (complete_row nc qc (if truthy ec then ec else None)) rows ->
  default 0%float (load_rows nc qc ec (Datetime.midnight now) rows totals !! n)
  = fold_left PrimFloat.add
      (omap (lot_quantity nc qc (if truthy ec then ec else None) (Datetime.on now) n) rows)
      (default 0%float (totals !! n)).
Proof.
  induction rows as [|row rows IH]; intros totals n Hall; [reflexivity|].
  inversion Hall as [|? ? Hrow Hrest]; subst.
  destruct (add_lot_complete nc qc ec now row totals Hrow) as (totals' & Hadd & Hq).
  simpl. rewrite Hadd, (IH totals' n Hrest), (Hq n).
  destruct (lot_quantity _ _ _ _ _ _); reflexivity.
Qed.

(** A row shorter than the header ends the load: the rows after it are not
    read, whatever they hold. *)
Lemma load_rows_short_row nc qc ec today row rest totals :
  row !! nc = None ->
  load_rows nc qc ec today (row :: rest) totals = totals.
Proof. intros H. simpl. unfold add_lot. rewrite H. reflexivity. Qed.

(** C5. For an ingredient name [s], [is_low] holds exactly when the tracked
    quantity (0.0 when [s] is not tracked) is strictly below the threshold of
    [s] (its own entry of the threshold table, else the default 15.0), and
    not when the two are equal; [is_out] holds exactly when the quantity is
    at most zero; a name that is not tracked, and the missing name [None] of
    a rule without trigger, have quantity 0.0 and are out. *)
Theorem threshold_and_stock_tests (self : InventoryManager) (s : string) :
  let q := default 0%float (inventory_levels self !! s) in
  let t := default 15%float (INGREDIENT_THRESHOLDS !! s) in
  get_quantity self (Some s) = q /\
  get_threshold (Some s) = t /\
  (is_low self (Some s) = true <-> PrimFloat.ltb q t = true) /\
  (PrimFloat.eqb q t = true -> is_low self (Some s) = false) /\
  (is_out self (Some s) = true <-> PrimFloat.leb q 0%float = true) /\
  (inventory_levels self !! s = None ->
     get_quantity self (Some s) = 0%float /\ is_out self (Some s) = true) /\
  get_quantity self None = 0%float /\ is_out self None = true.
Proof.
  cbv zeta. unfold is_low, is_out, get_quantity, get_threshold, dict_get.
  split; [reflexivity|]. split; [reflexivity|].
  split; [tauto|]. split; [apply FloatOrderFacts.eqb_not_ltb|].
  split; [tauto|]. split; [|split; reflexivity].
  intros ->. split; reflexivity.
Qed.

(** X25. When the name and quantity columns are found and every row is as
    long as the header, the reloaded snapshot gives each ingredient name the
    sum of the quantities of its rows, in row order, leaving out the rows
    whose expiration date is present, parseable and strictly before today
    (dates compared without time of day) and the rows whose quantity is not a
    number; rows with an absent or unparseable date, or a date of today or
    later, are counted. *)
Theorem reload_inventory_aggregates (self : InventoryManager) (f : csv_file)
    (headers : list string) (now : Datetime.datetime) (n : string) :
  let nc := default "" (name_col_of str_lower headers) in
  let qc := default "" (qty_col_of str_lower headers) in
  let ec := if truthy (exp_col_of str_lower headers)
            then exp_col_of str_lower headers else None in
  fieldnames f = Some headers ->
  truthy (name_col_of str_lower headers) = true ->
  truthy (qty_col_of str_lower headers) = true ->
  Forall (complete_row nc qc ec) (csv_rows f) ->
  get_quantity (reload_inventory self (Some f) now) (Some n)
  = aggregate nc qc ec (Datetime.on now) (csv_rows f) n.
Proof.
  intros nc qc ec Hf Hn Hq Hrows.
  unfold reload_inventory. rewrite Hf, Hn, Hq. simpl.
  unfold get_quantity, dict_get, aggregate. simpl.
  rewrite (load_rows_complete _ _ _ _ _ _ _ Hrows).
  now rewrite lookup_empty.
Qed.

End InventoryFacts.

(** ** Substitution resolver *)

Lemma py_eq_refl a : py_eq a a = true.
Proof. destruct a as [s|]; simpl; [apply String.eqb_refl | reflexivity]. Qed.

Lemma py_eq_true a b : py_eq a b = true <-> a = b.
Proof.
  destruct a as [s|], b as [t|]; simpl; try (split; [discriminate | intros [= ]]).
  - rewrite String.eqb_eq. split; [intros ->; reflexivity | intros [= ]; assumption].
  - split; reflexivity.
Qed.

Section ResolverFacts.

Context (INGREDIENT_THRESHOLDS : gmap string float)
        (inventory_manager : InventoryManager).

Local Abbreviation out sub := (is_out inventory_manager (trigger_ingredient sub)).
Local Abbreviation low sub :=
  (is_low INGREDIENT_THRESHOLDS inventory_manager (trigger_ingredient sub)).
Local Abbreviation scan_triggers := (scan_triggers INGREDIENT_THRESHOLDS inventory_manager).
Local Abbreviation check_stock_logic :=
  (check_stock_logic INGREDIENT_THRESHOLDS inventory_manager).

(** The first loop stops at the first out-of-stock trigger, whatever the
    state it has reached and whatever follows. *)
Lemma scan_triggers_first_out pre r post : forall st a,
  Forall (fun sub => out sub = false) pre ->
  out r = true ->
  scan_triggers (pre ++ r :: post) st a = ("Out of Stock", trigger_ingredient r).
Proof.
  induction pre as [|p pre IH]; intros st a Hpre Hr; simpl.
  - now rewrite Hr.
  - inversion Hpre as [|? ? Hp Hrest]; subst. rewrite Hp.
    destruct (low p); now apply IH.
Qed.

(** What the first loop ends with: the state it started from when no trigger
    is low or out, else the status and the trigger of a rule of the list. *)
Lemma scan_triggers_result subs : forall st a st' a',
  scan_triggers subs st a = (st', a') ->
  (Forall (fun sub => out sub = false /\ low sub = false) subs /\ st' = st /\ a' = a)
  \/ (st' = "Out of Stock" /\
      exists r, r ∈ subs /\ trigger_ingredient r = a' /\ out r = true)
  \/ (st' = "Low Stock" /\ Forall (fun sub => out sub = false) subs /\
      exists r, r ∈ subs /\ trigger_ingredient r = a' /\ low r = true).
Proof.
  induction subs as [|sub subs IH]; intros st a st' a' H; simpl in H.
  - injection H as <- <-. left. repeat split. constructor.
  - destruct (out sub) eqn:Ho.
    { injection H as <- <-. right; left. split; [reflexivity|].
      exists sub. repeat split; [apply list_elem_of_here | assumption]. }
    destruct (low sub) eqn:Hl.
    + destruct (IH _ _ _ _ H) as [(Hall & -> & ->) | [(-> & r & Hin & Ht & Hr) | (-> & Hno & r & Hin & Ht & Hr)]].
      * right; right. split; [reflexivity|]. split.
        { constructor; [assumption|]. eapply Forall_impl; [exact Hall|]. now intros ? []. }
        exists sub. repeat split; [apply list_elem_of_here | assumption].
      * right; left. split; [reflexivity|]. exists r.
        repeat split; [now apply list_elem_of_further | assumption | assumption].
      * right; right. split; [reflexivity|]. split; [now constructor|].
        exists r. repeat split; [now apply list_elem_of_further | assumption | assumption].
    + destruct (IH _ _ _ _ H) as [(Hall & -> & ->) | [(-> & r & Hin & Ht & Hr) | (-> & Hno & r & Hin & Ht & Hr)]].
      * left. repeat split. now constructor.
      * right; left. split; [reflexivity|]. exists r.
        repeat split; [now apply list_elem_of_further | assumption | assumption].
      * right; right. split; [reflexivity|]. split; [now constructor|].
        exists r. repeat split; [now apply list_elem_of_further | assumption | assumption].
Qed.

(** A rule whose trigger is low or out leaves the first loop in a state
    other than ["In Stock"], with the trigger of some rule remembered. *)
Lemma scan_triggers_triggered subs sub st' a' :
  sub ∈ subs -> out sub = true \/ low sub = true ->
  scan_triggers subs "In Stock" None = (st', a') ->
  (st' = "Out of Stock" \/ st' = "Low Stock") /\
  exists r, r ∈ subs /\ trigger_ingredient r = a'.
Proof.
  intros Hin Htrig H.
  destruct (scan_triggers_result _ _ _ _ _ H)
    as [(Hall & _) | [(-> & r & Hr & Ht & _) | (-> & _ & r & Hr & Ht & _)]].
  - rewrite Forall_forall in Hall. destruct (Hall _ Hin) as [Ho Hl].
    destruct Htrig; congruence.
  - split; [now left | now exists r].
  - split; [now right | now exists r].
Qed.

(** The second loop finds the first rule of the remembered trigger. *)
Lemma find_substitute_first pre r post a :
  trigger_ingredient r = a ->
  Forall (fun sub => trigger_ingredient sub <> a) pre ->
  find_substitute (pre ++ r :: post) a = Some r.
Proof.
  intros Hr Hpre. unfold find_substitute.
  induction pre as [|p pre IH]; simpl.
  - now rewrite Hr, py_eq_refl.
  - inversion Hpre as [|? ? Hp Hrest]; subst.
    destruct (py_eq (trigger_ingredient p) (trigger_ingredient r)) eqn:He.
    + apply py_eq_true in He. contradiction.
    + now apply IH.
Qed.

Lemma find_substitute_some subs a r :
  r ∈ subs -> trigger_ingredient r = a ->
  exists r', find_substitute subs a = Some r' /\ trigger_ingredient r' = a.
Proof.
  intros Hin Hr. unfold find_substitute.
  induction subs as [|p subs IH]; [now apply elem_of_nil in Hin|].
  simpl. destruct (py_eq (trigger_ingredient p) a) eqn:He.
  - exists p. split; [reflexivity | now apply py_eq_true].
  - apply elem_of_cons in Hin as [->|Hin]; [|now apply IH].
    rewrite Hr, py_eq_refl in He. discriminate.
Qed.

Lemma find_substitute_none subs a :
  find_substitute subs a = None ->
  forall sub, sub ∈ subs -> trigger_ingredient sub <> a.
Proof.
  unfold find_substitute. intros H sub Hin Heq.
  apply list_elem_of_In in Hin.
  pose proof (find_none _ _ H sub Hin) as Hn. simpl in Hn.
  rewrite Heq, py_eq_refl in Hn. discriminate.
Qed.

(** The resolver, by the state its first loop ends in. *)
Lemma check_stock_logic_cases item st a :
  scan_triggers (suggested_substitutions item) "In Stock" None = (st, a) ->
  check_stock_logic item =
    if String.eqb st "In Stock" then item
    else match find_substitute (suggested_substitutions item) a with
         | Some sub => set_outcome item (Some (make_suggestion item sub)) "Substituted"
         | None => set_outcome item (substitution item) st
         end.
Proof. intros H. unfold check_stock_logic. now rewrite H. Qed.

(** When a rule triggers, the result is the substitution of the first rule
    of the remembered trigger. *)
Lemma check_stock_logic_triggered item sub st a :
  sub ∈ suggested_substitutions item -> out sub = true \/ low sub = true ->
  scan_triggers (suggested_substitutions item) "In Stock" None = (st, a) ->
  exists r, find_substitute (suggested_substitutions item) a = Some r /\
            trigger_ingredient r = a /\
            check_stock_logic item
            = set_outcome item (Some (make_suggestion item r)) "Substituted".
Proof.
  intros Hin Htrig Hscan.
  destruct (scan_triggers_triggered _ _ _ _ Hin Htrig Hscan) as (Hst & r & Hr & Ht).
  destruct (find_substitute_some _ _ _ Hr Ht) as (r' & Hfind & Ht').
  exists r'. split; [assumption|]. split; [assumption|].
  rewrite (check_stock_logic_cases _ _ _ Hscan), Hfind.
  destruct Hst as [-> | ->]; reflexivity.
Qed.

(** The resolver touches the substitution and the availability only. *)
Lemma check_stock_logic_id item : item_id (check_stock_logic item) = item_id item.
Proof.
  unfold check_stock_logic.
  destruct (scan_triggers _ _ _) as [st a].
  destruct (String.eqb st "In Stock"); [reflexivity|].
  destruct (find_substitute _ _); reflexivity.
Qed.

(** When no rule triggers, the item comes back as it went in. *)
Lemma check_stock_logic_untriggered item :
  Forall (fun sub => out sub = false /\ low sub = false) (suggested_substitutions item) ->
  check_stock_logic item = item.
Proof.
  intros Hall.
  destruct (scan_triggers (suggested_substitutions item) "In Stock" None) as [st a] eqn:Hscan.
  rewrite (check_stock_logic_cases _ _ _ Hscan).
  destruct (scan_triggers_result _ _ _ _ _ Hscan)
    as [(_ & -> & _) | [(_ & r & Hr & _ & Ho) | (_ & _ & r & Hr & _ & Hl)]].
  - reflexivity.
  - rewrite Forall_forall in Hall. destruct (Hall _ Hr). congruence.
  - rewrite Forall_forall in Hall. destruct (Hall _ Hr). congruence.
Qed.

(** The second loop always finds a rule when the first one left a status
    other than ["In Stock"]. *)
Lemma second_loop_finds subs st a :
  scan_triggers subs "In Stock" None = (st, a) -> st <> "In Stock" ->
  exists r, find_substitute subs a = Some r.
Proof.
  intros Hscan Hst.
  destruct (scan_triggers_result _ _ _ _ _ Hscan)
    as [(_ & H & _) | [(_ & r & Hr & Ht & _) | (_ & _ & r & Hr & Ht & _)]].
  - contradiction.
  - destruct (find_substitute_some _ _ _ Hr Ht) as (r' & H & _). now exists r'.
  - destruct (find_substitute_some _ _ _ Hr Ht) as (r' & H & _). now exists r'.
Qed.

(** A candidate that goes in as ["In Stock"] comes back ["In Stock"] or
    ["Substituted"]. *)
Lemma check_stock_logic_status item :
  availability_status item = "In Stock" ->
  availability_status (check_stock_logic item) = "In Stock" \/
  availability_status (check_stock_logic item) = "Substituted".
Proof.
  intros Hitem.
  destruct (scan_triggers (suggested_substitutions item) "In Stock" None)
    as [st a] eqn:Hscan.
  rewrite (check_stock_logic_cases _ _ _ Hscan).
  destruct (String.eqb_spec st "In Stock") as [->|Hne]; [now left|].
  destruct (second_loop_finds _ _ _ Hscan Hne) as [r ->]. now right.
Qed.

Lemma checked_not_out_of_stock h :
  not_out_of_stock (check_stock_logic (candidate_of_hit h)) = true.
Proof.
  destruct (check_stock_logic_status (candidate_of_hit h) eq_refl) as [H|H];
    unfold not_out_of_stock; rewrite H; reflexivity.
Qed.

Lemma filter_keeps_checked hits :
  List.filter not_out_of_stock (map check_stock_logic (map candidate_of_hit hits))
  = map check_stock_logic (map candidate_of_hit hits).
Proof.
  induction hits as [|h hits IH]; [reflexivity|].
  simpl. now rewrite IH, checked_not_out_of_stock.
Qed.

(** C1. The first loop records ["Out of Stock"] and the trigger of the first
    rule whose trigger is out, whatever low triggers come before it and
    whatever rules follow it; the resolver then answers with the substitution
    of the first rule of that trigger. For rules [[ra; rb]] with the trigger
    of [ra] low and that of [rb] out, the availability is ["Out of Stock"],
    or ["Substituted"] with the suggestion built from [rb]; it is never the
    ["Low Stock"] of [ra]. *)
Theorem out_trigger_takes_precedence :
  (forall pre r post st a,
     Forall (fun sub => out sub = false) pre -> out r = true ->
     scan_triggers (pre ++ r :: post) st a
     = ("Out of Stock", trigger_ingredient r)) /\
  (forall item pre r post,
     suggested_substitutions item = pre ++ r :: post ->
     Forall (fun sub => out sub = false) pre -> out r = true ->
     exists r',
       find_substitute (suggested_substitutions item) (trigger_ingredient r) = Some r' /\
       trigger_ingredient r' = trigger_ingredient r /\
       check_stock_logic item
       = set_outcome item (Some (make_suggestion item r')) "Substituted") /\
  (forall item ra rb,
     suggested_substitutions item = [ra; rb] ->
     out ra = false -> low ra = true -> out rb = true ->
     let res := check_stock_logic item in
     (availability_status res = "Out of Stock" /\ substitution res = substitution item
      \/ availability_status res = "Substituted" /\
         substitution res = Some (make_suggestion item rb)) /\
     availability_status res <> "Low Stock").
Proof.
  split; [|split].
  - intros pre r post st a. apply scan_triggers_first_out.
  - intros item pre r post Hsubs Hpre Hr.
    pose proof (scan_triggers_first_out pre r post "In Stock" None Hpre Hr) as Hscan.
    rewrite <- Hsubs in Hscan.
    assert (Hin : r ∈ suggested_substitutions item).
    { rewrite Hsubs. apply elem_of_app. right. apply list_elem_of_here. }
    destruct (check_stock_logic_triggered item r _ _ Hin (or_introl Hr) Hscan)
      as (r' & Hfind & Ht & Hcheck).
    now exists r'.
  - intros item ra rb Hsubs Hoa Hla Hob res.
    assert (Hscan : scan_triggers (suggested_substitutions item) "In Stock" None
                    = ("Out of Stock", trigger_ingredient rb)).
    { rewrite Hsubs. apply (scan_triggers_first_out [ra] rb []); [|assumption].
      repeat constructor. assumption. }
    assert (Hfind : find_substitute (suggested_substitutions item) (trigger_ingredient rb)
                    = Some rb).
    { rewrite Hsubs. apply (find_substitute_first [ra] rb []); [reflexivity|].
      repeat constructor. intros Heq. rewrite Heq in Hoa. congruence. }
    subst res. rewrite (check_stock_logic_cases _ _ _ Hscan), Hfind. simpl.
    split; [right; split; reflexivity | discriminate].
Qed.

(** C2. When some rule's trigger is low or out, [a] is the trigger the first
    loop remembers and [r] is the first rule, in stored order, whose trigger
    is [a], then the result is ["Substituted"] and carries a suggestion whose
    suggested item is the suggested item name of [r] and whose reason is the
    justification of [r], or ["Better availability"] when [r] has none. *)
Theorem substitution_from_first_matching_rule
    (item : MenuItem) (sub : SubstitutionRule) (st : string) (a : option string)
    (pre : list SubstitutionRule) (r : SubstitutionRule) (post : list SubstitutionRule) :
  sub ∈ suggested_substitutions item ->
  out sub = true \/ low sub = true ->
  scan_triggers (suggested_substitutions item) "In Stock" None = (st, a) ->
  suggested_substitutions item = pre ++ r :: post ->
  trigger_ingredient r = a ->
  Forall (fun p => trigger_ingredient p <> a) pre ->
  let res := check_stock_logic item in
  availability_status res = "Substituted" /\
  exists sg,
    substitution res = Some sg /\
    original_item sg = item_name item /\
    (forall name, suggest_item_name r = Some name -> suggested_item sg = name) /\
    (forall text, rag_justification r = Some text -> reason sg = text) /\
    (rag_justification r = None -> reason sg = "Better availability").
Proof.
  intros Hin Htrig Hscan Hsubs Hr Hpre res.
  destruct (check_stock_logic_triggered item sub _ _ Hin Htrig Hscan)
    as (r' & Hfind & _ & Hcheck).
  rewrite Hsubs, (find_substitute_first pre r post a Hr Hpre) in Hfind.
  injection Hfind as <-.
  subst res. rewrite Hcheck. simpl. split; [reflexivity|].
  eexists. split; [reflexivity|]. simpl.
  repeat split.
  - intros name ->. reflexivity.
  - intros text ->. reflexivity.
  - intros ->. reflexivity.
Qed.

(** C9. For a candidate as [find_menu_candidates] builds it (in stock, no
    substitution), the resolver answers ["Out of Stock"] only when the first
    loop recorded that status and no rule has the remembered trigger, and an
    answer ["Substituted"] carries a substitution. *)
Theorem resolver_invariant (item : MenuItem) :
  availability_status item = "In Stock" ->
  substitution item = None ->
  let res := check_stock_logic item in
  let state := scan_triggers (suggested_substitutions item) "In Stock" None in
  (availability_status res = "Out of Stock" ->
     state.1 = "Out of Stock" /\
     forall sub, sub ∈ suggested_substitutions item ->
                 trigger_ingredient sub <> state.2) /\
  (availability_status res = "Substituted" -> substitution res <> None).
Proof.
  intros Hstatus Hsub res state.
  destruct state as [st a] eqn:Hscan. subst res.
  rewrite (check_stock_logic_cases _ _ _ Hscan). simpl.
  destruct (String.eqb st "In Stock") eqn:Hst.
  - rewrite Hstatus, Hsub. split; discriminate.
  - destruct (find_substitute (suggested_substitutions item) a) as [r|] eqn:Hfind; simpl.
    + split; discriminate.
    + split.
      * intros ->. split; [reflexivity|]. now apply find_substitute_none.
      * intros ->.
        destruct (scan_triggers_result _ _ _ _ _ Hscan)
          as [(_ & H & _) | [(H & _) | (H & _)]]; discriminate.
Qed.

(** C10. The fallback of the resolver is never taken: whenever the first
    loop leaves a status other than ["In Stock"], the second loop finds a
    rule; a candidate one of whose triggers is low or out comes back
    ["Substituted"]; a candidate never comes back ["Low Stock"] or
    ["Out of Stock"]; and the out-of-stock filter of the patron flow keeps
    every resolved candidate. *)
Theorem fallback_unreachable :
  (forall subs st a,
     scan_triggers subs "In Stock" None = (st, a) -> st <> "In Stock" ->
     exists r, find_substitute subs a = Some r) /\
  (forall item sub,
     sub ∈ suggested_substitutions item -> out sub = true \/ low sub = true ->
     availability_status (check_stock_logic item) = "Substituted") /\
  (forall item,
     availability_status item = "In Stock" ->
     availability_status (check_stock_logic item) <> "Low Stock" /\
     availability_status (check_stock_logic item) <> "Out of Stock") /\
  (forall menu_collection query,
     let checked := map check_stock_logic
                      (find_menu_candidates menu_collection query 5) in
     List.filter not_out_of_stock checked = checked).
Proof.
  split; [exact second_loop_finds|]. split; [|split].
  - intros item sub Hin Htrig.
    destruct (scan_triggers (suggested_substitutions item) "In Stock" None)
      as [st a] eqn:Hscan.
    destruct (check_stock_logic_triggered item sub _ _ Hin Htrig Hscan)
      as (r & _ & _ & ->).
    reflexivity.
  - intros item Hitem.
    destruct (check_stock_logic_status item Hitem) as [-> | ->];
      split; discriminate.
  - intros menu_collection query checked. subst checked.
    unfold find_menu_candidates.
    destruct menu_collection as [collection|]; [|reflexivity].
    apply filter_keeps_checked.
Qed.

End ResolverFacts.

(** ** Sorting *)

Section SortedFacts.

Context {A K : Type} (lt : K -> K -> bool) (key : A -> K).

Local Abbreviation insert_by := (insert_by lt key).
Local Abbreviation sorted := (sorted lt key).
Local Abbreviation le := (fun a b : A => lt (key b) (key a) = false).

Lemma insert_by_perm x l : Permutation (x :: l) (insert_by x l).
Proof.
  induction l as [|y l IH]; simpl; [reflexivity|].
  destruct (lt (key y) (key x)); [|reflexivity].
  rewrite <- IH. apply perm_swap.
Qed.

Lemma sorted_perm l : Permutation l (sorted l).
Proof.
  induction l as [|x l IH]; simpl; [reflexivity|].
  rewrite <- insert_by_perm. now constructor.
Qed.

(** An element passes only strictly smaller keys, so it stays in front of
    the elements it ranks with. *)
Lemma filter_insert_by (p : A -> bool) x l :
  (forall y, y ∈ l -> p x = true -> p y = true -> lt (key y) (key x) = false) ->
  List.filter p (insert_by x l) = List.filter p (x :: l).
Proof.
  induction l as [|y l IH]; intros H; [reflexivity|].
  simpl. destruct (lt (key y) (key x)) eqn:Hlt; [|reflexivity].
  simpl. rewrite IH by (intros z Hz; apply H; now apply list_elem_of_further).
  simpl. destruct (p x) eqn:Hx; [|reflexivity].
  destruct (p y) eqn:Hy; [|reflexivity].
  rewrite (H y (list_elem_of_here _ _) eq_refl Hy) in Hlt. discriminate.
Qed.

Lemma sorted_stable (p : A -> bool) l :
  (forall x y, x ∈ l -> y ∈ l -> p x = true -> p y = true ->
               lt (key y) (key x) = false) ->
  List.filter p (sorted l) = List.filter p l.
Proof.
  induction l as [|x l IH]; intros H; [reflexivity|].
  simpl. rewrite filter_insert_by.
  - simpl. rewrite IH; [reflexivity|].
    intros a b Ha Hb. apply H; now apply list_elem_of_further.
  - intros y Hy. apply H; [apply list_elem_of_here|].
    apply list_elem_of_further. now rewrite (sorted_perm l).
Qed.

Lemma insert_by_sorted (P : A -> Prop) x l :
  (forall a b, P a -> P b -> lt (key a) (key b) = true -> lt (key b) (key a) = false) ->
  (forall a b c, P a -> P b -> P c -> le a b -> le b c -> le a c) ->
  P x -> Forall P l ->
  StronglySorted le l -> StronglySorted le (insert_by x l).
Proof.
  intros Hasym Htrans Hx.
  induction l as [|y l IH]; intros HP Hs; simpl.
  - repeat constructor.
  - inversion HP as [|? ? Hy HPl]; subst.
    inversion Hs as [|? ? Hsl Hyl]; subst.
    destruct (lt (key y) (key x)) eqn:Hlt.
    + constructor; [now apply IH|].
      rewrite <- insert_by_perm. constructor; [|assumption].
      now apply Hasym.
    + constructor; [assumption|]. constructor; [assumption|].
      rewrite Forall_forall in Hyl, HPl. apply Forall_forall. intros z Hz.
      apply (Htrans x y z); auto.
Qed.

Lemma sorted_strongly (P : A -> Prop) l :
  (forall a b, P a -> P b -> lt (key a) (key b) = true -> lt (key b) (key a) = false) ->
  (forall a b c, P a -> P b -> P c -> le a b -> le b c -> le a c) ->
  Forall P l -> StronglySorted le (sorted l).
Proof.
  intros Hasym Htrans. induction l as [|x l IH]; intros HP; simpl.
  - constructor.
  - inversion HP as [|? ? Hx HPl]; subst.
    apply (insert_by_sorted P); auto.
    now rewrite <- (sorted_perm l).
Qed.

End SortedFacts.

(** ** Result ranker *)

Section RankFacts.
Import FloatOrder FloatOrderFacts.

Local Abbreviation valid k := (is_nan (k.2) = false).

Lemma lex3_lt_irrefl t : ~ lex3_lt t t.
Proof. destruct t as [[a b] c]. unfold lex3_lt. lia. Qed.

(** The tuple order on keys whose score is not NaN. *)
Lemma key_lt_ord (k1 k2 : Z * float) :
  valid k1 -> valid k2 ->
  key_lt k1 k2 = true <->
  k1.1 < k2.1 \/ (k1.1 = k2.1 /\ lex3_lt (ord k1.2) (ord k2.2)).
Proof.
  intros H1 H2. unfold key_lt.
  destruct (Z.eqb_spec k1.1 k2.1) as [He|Hne].
  - destruct (PrimFloat.eqb k1.2 k2.2) eqn:Hs.
    + apply (eqb_ord _ _ H1 H2) in Hs. split; [discriminate|].
      intros [Hlt | [_ Hlt]]; [lia|]. rewrite Hs in Hlt.
      now apply lex3_lt_irrefl in Hlt.
    + rewrite (ltb_ord _ _ H1 H2). split; [now right | intros [?|[_ ?]]; [lia | assumption]].
  - rewrite Z.ltb_lt. split; [now left | intros [?|[? _]]; [assumption | contradiction]].
Qed.

Lemma key_le_ord (k1 k2 : Z * float) :
  valid k1 -> valid k2 ->
  key_lt k2 k1 = false <->
  k1.1 < k2.1 \/ (k1.1 = k2.1 /\ ~ lex3_lt (ord k2.2) (ord k1.2)).
Proof.
  intros H1 H2. rewrite <- not_true_iff_false, (key_lt_ord _ _ H2 H1).
  destruct (ord k1.2) as [[a b] c], (ord k2.2) as [[a' b'] c'].
  unfold lex3_lt. lia.
Qed.

Lemma key_lt_asym (k1 k2 : Z * float) :
  valid k1 -> valid k2 -> key_lt k1 k2 = true -> key_lt k2 k1 = false.
Proof.
  intros H1 H2. rewrite (key_lt_ord _ _ H1 H2), (key_le_ord _ _ H1 H2).
  destruct (ord k1.2) as [[a b] c], (ord k2.2) as [[a' b'] c'].
  unfold lex3_lt. lia.
Qed.

Lemma key_le_trans (k1 k2 k3 : Z * float) :
  valid k1 -> valid k2 -> valid k3 ->
  key_lt k2 k1 = false -> key_lt k3 k2 = false -> key_lt k3 k1 = false.
Proof.
  intros H1 H2 H3.
  rewrite (key_le_ord _ _ H1 H2), (key_le_ord _ _ H2 H3), (key_le_ord _ _ H1 H3).
  destruct (ord k1.2) as [[a b] c], (ord k2.2) as [[a' b'] c'],
    (ord k3.2) as [[a'' b''] c''].
  unfold lex3_lt. lia.
Qed.

(** On scores that are not NaN, "not [key b < key a]" is the order of the
    specification. *)
Lemma key_le_tier_then_score (a b : MenuItem) :
  is_nan (item_score a) = false -> is_nan (item_score b) = false ->
  key_lt (sort_key b) (sort_key a) = false <-> tier_then_score a b.
Proof.
  intros Ha Hb. rewrite (key_le_ord (sort_key a) (sort_key b) Ha Hb).
  unfold tier_then_score, sort_key. simpl. now rewrite (leb_ord _ _ Ha Hb).
Qed.

Lemma eqb_true_not_nan x y : PrimFloat.eqb x y = true -> is_nan x = false /\ is_nan y = false.
Proof.
  rewrite FloatAxioms.eqb_spec, !is_nan_spec. intros H.
  destruct (sf_nan (Prim2SF x)) eqn:Hx; [now rewrite SFeqb_nan_l in H|].
  destruct (sf_nan (Prim2SF y)) eqn:Hy; [now rewrite SFeqb_nan_r in H|].
  now split.
Qed.

(** Two items that rank alike are not ordered by the sort key. *)
Lemma ranks_as_not_lt tier relevance (x y : MenuItem) :
  ranks_as tier relevance x = true -> ranks_as tier relevance y = true ->
  key_lt (sort_key y) (sort_key x) = false.
Proof.
  unfold ranks_as. rewrite !andb_true_iff, !Z.eqb_eq.
  intros [Hx Hsx] [Hy Hsy].
  destruct (eqb_true_not_nan _ _ Hsx) as [Nx Nr].
  destruct (eqb_true_not_nan _ _ Hsy) as [Ny _].
  apply (eqb_ord _ _ Nx Nr) in Hsx. apply (eqb_ord _ _ Ny Nr) in Hsy.
  unfold key_lt, sort_key. simpl. rewrite Hx, Hy, Z.eqb_refl.
  assert (He : PrimFloat.eqb (item_score y) (item_score x) = true).
  { apply (eqb_ord _ _ Ny Nx). congruence. }
  now rewrite He.
Qed.

Lemma StronglySorted_on {A} (P : A -> Prop) (R R' : A -> A -> Prop) l :
  (forall a b, P a -> P b -> R a b -> R' a b) ->
  Forall P l -> StronglySorted R l -> StronglySorted R' l.
Proof.
  intros HR. induction l as [|x l IH]; intros HP Hs; [constructor|].
  inversion HP as [|? ? Hx HPl]; subst. inversion Hs as [|? ? Hsl Hxl]; subst.
  constructor; [now apply IH|].
  rewrite Forall_forall in Hxl, HPl. apply Forall_forall. intros z Hz.
  apply HR; auto.
Qed.

(** C7. On candidates whose scores are numbers (no NaN), [rank_results]
    returns a rearrangement of its input in which every candidate stands
    before the candidates of a higher tier (In Stock 0, Substituted 1,
    Low Stock 2, Out of Stock 3) and, within a tier, before those of a
    greater score; candidates of the same tier and score keep the order they
    came in. *)
Theorem rank_results_stable_sort (items : list MenuItem) :
  Forall (fun item => is_nan (item_score item) = false) items ->
  (status_priority "In Stock" = 0 /\ status_priority "Substituted" = 1 /\
   status_priority "Low Stock" = 2 /\ status_priority "Out of Stock" = 3) /\
  Permutation items (rank_results items) /\
  StronglySorted tier_then_score (rank_results items) /\
  (forall tier relevance,
     List.filter (ranks_as tier relevance) (rank_results items)
     = List.filter (ranks_as tier relevance) items).
Proof.
  intros Hnan. split; [repeat split|]. split; [apply sorted_perm|]. split.
  - apply (StronglySorted_on (fun item => is_nan (item_score item) = false)
             (fun a b => key_lt (sort_key b) (sort_key a) = false)).
    + intros a b Ha Hb. now apply key_le_tier_then_score.
    + unfold rank_results. now rewrite <- (sorted_perm key_lt sort_key items).
    + apply (sorted_strongly key_lt sort_key
               (fun item => is_nan (item_score item) = false)); [| |assumption].
      * intros a b Ha Hb. now apply key_lt_asym.
      * intros a b c Ha Hb Hc. now apply key_le_trans.
  - intros tier relevance. apply sorted_stable.
    intros x y _ _. apply ranks_as_not_lt.
Qed.

End RankFacts.

(** ** Patron flow *)

(** An ingredient no rule refers to has no part in the two tests. *)
Lemma is_out_set_quantity self b q t :
  t <> Some b -> is_out (set_quantity self b q) t = is_out self t.
Proof.
  intros Ht. unfold is_out, get_quantity, dict_get, set_quantity. simpl.
  destruct t as [s|]; [|reflexivity].
  rewrite lookup_insert_ne; [reflexivity | congruence].
Qed.

Lemma is_low_set_quantity thresholds self b q t :
  t <> Some b -> is_low thresholds (set_quantity self b q) t = is_low thresholds self t.
Proof.
  intros Ht. unfold is_low, get_quantity, dict_get, set_quantity. simpl.
  destruct t as [s|]; [|reflexivity].
  rewrite lookup_insert_ne; [reflexivity | congruence].
Qed.

Lemma scan_triggers_set_quantity thresholds self b q subs : forall st a,
  Forall (fun sub => trigger_ingredient sub <> Some b) subs ->
  scan_triggers thresholds (set_quantity self b q) subs st a
  = scan_triggers thresholds self subs st a.
Proof.
  induction subs as [|sub subs IH]; intros st a Hall; [reflexivity|].
  inversion Hall as [|? ? Hsub Hrest]; subst. simpl.
  rewrite (is_out_set_quantity _ _ _ _ Hsub), (is_low_set_quantity _ _ _ _ _ Hsub).
  now rewrite !IH.
Qed.

Lemma check_stock_logic_set_quantity thresholds self b q item :
  Forall (fun sub => trigger_ingredient sub <> Some b) (suggested_substitutions item) ->
  check_stock_logic thresholds (set_quantity self b q) item
  = check_stock_logic thresholds self item.
Proof.
  intros Hall. unfold check_stock_logic.
  now rewrite (scan_triggers_set_quantity _ _ _ _ _ _ _ Hall).
Qed.

Section PatronFacts.

Context (INGREDIENT_THRESHOLDS : gmap string float)
        (inventory_manager : InventoryManager).

Local Abbreviation out sub := (is_out inventory_manager (trigger_ingredient sub)).
Local Abbreviation low sub :=
  (is_low INGREDIENT_THRESHOLDS inventory_manager (trigger_ingredient sub)).
Local Abbreviation resolve :=
  (check_stock_logic INGREDIENT_THRESHOLDS inventory_manager).
Local Abbreviation patron_search :=
  (patron_search INGREDIENT_THRESHOLDS inventory_manager).

(** Whatever the resolver answered, nothing out of stock passes the filter,
    the ranking and the projection. *)
Lemma pipeline_drops_out_of_stock (checked : list MenuItem) (r : MenuItemResult) :
  r ∈ map to_result (rank_results (List.filter not_out_of_stock checked)) ->
  res_availability_status r <> "Out of Stock".
Proof.
  intros Hr. apply list_elem_of_fmap in Hr as (item & -> & Hitem).
  unfold rank_results in Hitem. rewrite <- sorted_perm in Hitem.
  apply list_elem_of_In, filter_In in Hitem as [_ Hkeep].
  unfold not_out_of_stock in Hkeep. apply negb_true_iff in Hkeep.
  simpl. intros Heq. rewrite Heq in Hkeep. discriminate.
Qed.

(** The response holds the resolved candidates that are not out of stock,
    each once. *)
Lemma patron_search_perm menu_collection query :
  Permutation
    (patron_search menu_collection query)
    (map to_result
       (List.filter not_out_of_stock
          (map resolve (find_menu_candidates menu_collection query 5)))).
Proof.
  unfold patron_search, rank_results.
  apply Permutation_map. symmetry. apply sorted_perm.
Qed.

(** C8. The patron response is the projection of the ranking of the resolved
    candidates that are not out of stock: the filter comes after the
    resolver and before the ranker, and no result of the response is
    ["Out of Stock"], whatever its score. The stage after the resolver does
    this whatever the resolver answered: from any list of resolved
    candidates it drops those that are ["Out of Stock"] and ranks and
    projects all the others, so that none of the dropped ones reaches the
    response. *)
Theorem patron_never_sees_out_of_stock
    (menu_collection : option (string -> nat -> list menu_hit)) (query : string) :
  let checked :=
    map resolve (find_menu_candidates menu_collection query 5) in
  patron_search menu_collection query
  = map to_result (rank_results (List.filter not_out_of_stock checked)) /\
  Permutation (patron_search menu_collection query)
    (map to_result (List.filter not_out_of_stock checked)) /\
  (forall r, r ∈ patron_search menu_collection query ->
             res_availability_status r <> "Out of Stock") /\
  (forall resolved : list MenuItem,
     let served :=
       map to_result (rank_results (List.filter not_out_of_stock resolved)) in
     (forall r, r ∈ served -> res_availability_status r <> "Out of Stock") /\
     (forall item, item ∈ resolved ->
        availability_status item = "Out of Stock" ->
        not_out_of_stock item = false) /\
     (forall item, item ∈ resolved ->
        availability_status item <> "Out of Stock" ->
        to_result item ∈ served) /\
     Permutation served
       (map to_result
          (List.filter
             (fun item => negb (String.eqb (availability_status item) "Out of Stock"))
             resolved))).
Proof.
  intros checked. split; [reflexivity|]. split; [apply patron_search_perm|].
  split; [intros r; apply pipeline_drops_out_of_stock|].
  intros resolved served.
  assert (Hperm : Permutation served
            (map to_result
               (List.filter
                  (fun item => negb (String.eqb (availability_status item) "Out of Stock"))
                  resolved))).
  { subst served. unfold rank_results.
    apply Permutation_map. symmetry. apply sorted_perm. }
  split; [intros r; apply pipeline_drops_out_of_stock|].
  split; [|split; [|exact Hperm]].
  - intros item _ Hout. unfold not_out_of_stock. now rewrite Hout.
  - intros item Hin Hstatus. rewrite Hperm.
    apply list_elem_of_fmap. exists item. split; [reflexivity|].
    apply list_elem_of_In, filter_In. split; [now apply list_elem_of_In|].
    apply negb_true_iff. now apply String.eqb_neq.
Qed.

(** C3, as the code has it. A menu item none of whose rules refers to
    ingredient [b], of quantity zero, is resolved as it would be with any
    other quantity of [b], and its result is in the patron response; when
    none of its rules' triggers is low or out, it is there as ["In Stock"]. *)
Theorem unreferenced_ingredient_keeps_item
    (collection : string -> nat -> list menu_hit) (query : string)
    (h : menu_hit) (b : string) :
  h ∈ collection query 5%nat ->
  get_quantity inventory_manager (Some b) = 0%float ->
  (forall sub, sub ∈ meta_suggested_substitutions h ->
               trigger_ingredient sub <> Some b) ->
  let item := candidate_of_hit h in
  (forall q,
     check_stock_logic INGREDIENT_THRESHOLDS (set_quantity inventory_manager b q) item
     = resolve item) /\
  (exists r, r ∈ patron_search (Some collection) query /\
             r = to_result (resolve item) /\ res_id r = hit_id h) /\
  (Forall (fun sub => out sub = false /\ low sub = false)
     (meta_suggested_substitutions h) ->
   res_availability_status (to_result (resolve item)) = "In Stock").
Proof.
  intros Hh _ Hrules item. split; [|split].
  - intros q. apply check_stock_logic_set_quantity.
    apply Forall_forall. exact Hrules.
  - exists (to_result (resolve item)).
    split; [|split; [reflexivity|]].
    + rewrite patron_search_perm. simpl. rewrite filter_keeps_checked.
      apply list_elem_of_fmap. exists (resolve item).
      split; [reflexivity|].
      apply list_elem_of_fmap. exists item. split; [reflexivity|].
      apply list_elem_of_fmap. now exists h.
    + simpl. now rewrite check_stock_logic_id.
  - intros Hall.
    now rewrite (check_stock_logic_untriggered _ _ item Hall).
Qed.

End PatronFacts.

(** ** Owner flow *)

Section OwnerFacts.

Context (float_of_str : string -> option float).
Context (INGREDIENT_THRESHOLDS : gmap string float).

Local Abbreviation ingest_row := (ingest_row float_of_str).
Local Abbreviation ingest_rows := (ingest_rows float_of_str).
Local Abbreviation ingest_inventory := (ingest_inventory float_of_str).
Local Abbreviation inventory_entry := (inventory_entry INGREDIENT_THRESHOLDS).
Local Abbreviation inventory_listing := (inventory_listing INGREDIENT_THRESHOLDS).
Local Abbreviation get_inventory := (get_inventory INGREDIENT_THRESHOLDS).
Local Abbreviation get_threshold := (get_threshold INGREDIENT_THRESHOLDS).

(** The metadata [ingest_inventory] writes has no key ["ingredient_name"]:
    the name is stored under ["IngredientName"]. *)
Lemma ingest_row_keys row d :
  ingest_row row = Ok d ->
  doc_meta d !! "ingredient_name" = None /\
  exists name, doc_meta d !! "IngredientName" = Some (MStr name).
Proof.
  unfold ingest_row, column.
  destruct (row !! "IngredientName") as [name|]; [simpl|discriminate].
  destruct (row !! "Category") as [cat|]; [simpl|discriminate].
  destruct (row !! "LotID") as [lot|]; [simpl|discriminate].
  destruct (row !! "CurrentQuantity") as [qc|]; [simpl|discriminate].
  destruct (float_of_str qc) as [q|]; [simpl|discriminate].
  destruct (row !! "DefaultUnit") as [u|]; [simpl|discriminate].
  destruct (row !! "ExpirationDate") as [e|]; [simpl|discriminate].
  intros [= <-]. simpl. split.
  - now rewrite !lookup_insert_ne, lookup_empty by discriminate.
  - exists name. now rewrite lookup_insert_eq.
Qed.

(** An entry without a name under ["ingredient_name"] cannot be built. *)
Lemma inventory_entry_nameless meta :
  meta !! "ingredient_name" = None ->
  exists e, inventory_entry meta = Raise e.
Proof.
  intros Hname. unfold inventory_entry. rewrite Hname.
  destruct (default (MNum 0%float) (meta !! "current_quantity")) as [s|q]; simpl.
  - now exists TypeError.
  - now exists ValidationError.
Qed.

Lemma ingest_rows_head rows d ds :
  ingest_rows rows = Ok (d :: ds) ->
  exists row rest, rows = row :: rest /\ ingest_row row = Ok d.
Proof.
  destruct rows as [|row rest]; simpl; [discriminate|].
  destruct (ingest_row row) as [d'|e] eqn:Hrow; simpl; [|discriminate].
  destruct (ingest_rows rest) as [ds'|e]; simpl; [|discriminate].
  intros [= <- <-]. now exists row, rest.
Qed.

(** The stock status of the owner view. *)
Definition stock_status (qty threshold : float) : string :=
  if PrimFloat.leb qty 0%float then "Out"
  else if PrimFloat.ltb qty threshold then "Low"
  else "High".

(** Metadata with the keys the endpoint reads: a string name, and for the
    other keys the right kind of value or none. *)
Definition conforming (meta : gmap string meta_value) : Prop :=
  (exists s, meta !! "ingredient_name" = Some (MStr s)) /\
  (forall s, meta !! "current_quantity" <> Some (MStr s)) /\
  (forall x, meta !! "category" <> Some (MNum x)) /\
  (forall x, meta !! "unit" <> Some (MNum x)).

Definition name_of (meta : gmap string meta_value) : option string :=
  name_key (meta !! "ingredient_name").

Lemma inventory_entry_conforming meta s :
  conforming meta -> meta !! "ingredient_name" = Some (MStr s) ->
  exists r, inventory_entry meta = Ok r /\
    ingredient_name r = s /\ score r = 1%float /\
    MNum (current_quantity r) = default (MNum 0%float) (meta !! "current_quantity") /\
    status r = stock_status (current_quantity r) (get_threshold (Some s)).
Proof.
  intros (_ & Hq & Hc & Hu) Hs. unfold inventory_entry. rewrite Hs. simpl.
  destruct (meta !! "current_quantity") as [[t|q]|] eqn:Eq; simpl.
  - now destruct (Hq t).
  - destruct (meta !! "category") as [[c|x]|] eqn:Ec; simpl;
      [| now destruct (Hc x) |];
      (destruct (meta !! "unit") as [[u|y]|] eqn:Eu; simpl;
       [| now destruct (Hu y) |]);
      eexists; (split; [reflexivity|]); simpl; repeat split.
  - destruct (meta !! "category") as [[c|x]|] eqn:Ec; simpl;
      [| now destruct (Hc x) |];
      (destruct (meta !! "unit") as [[u|y]|] eqn:Eu; simpl;
       [| now destruct (Hu y) |]);
      eexists; (split; [reflexivity|]); simpl; repeat split.
Qed.

(** On conforming metadata the listing succeeds: it names each ingredient
    not seen before exactly once, in the order of first appearance, with
    score 1.0 and the status of the quantity of its entry against the
    threshold of its name. *)
Lemma inventory_listing_conforming metas : forall seen,
  Forall conforming metas ->
  exists output,
    inventory_listing metas seen = Ok output /\
    NoDup (map ingredient_name output) /\
    (forall s, s ∈ map ingredient_name output <->
               (s ∉ seen) /\ exists meta, meta ∈ metas /\ name_of meta = Some s) /\
    Forall (fun r => score r = 1%float /\
                     status r = stock_status (current_quantity r)
                                  (get_threshold (Some (ingredient_name r)))) output.
Proof.
  induction metas as [|meta metas IH]; intros seen Hall.
  - exists []. simpl. split; [reflexivity|]. split; [constructor|]. split; [|constructor].
    intros s. split; [intros H; now apply elem_of_nil in H|].
    intros (_ & meta & H & _). now apply elem_of_nil in H.
  - inversion Hall as [|? ? Hmeta Hrest]; subst.
    destruct Hmeta as [[s Hs] Hothers] eqn:Hc. clear Hc.
    simpl. rewrite Hs. simpl.
    destruct (bool_decide (s ∈ seen)) eqn:Hseen.
    + apply bool_decide_eq_true in Hseen.
      destruct (IH seen Hrest) as (output & -> & Hnd & Hmem & Hent).
      exists output. split; [reflexivity|]. split; [assumption|]. split; [|assumption].
      intros t. rewrite Hmem. split.
      * intros (Ht & m & Hm & Hn). split; [assumption|].
        exists m. split; [now apply list_elem_of_further | assumption].
      * intros (Ht & m & Hm & Hn). split; [assumption|].
        apply elem_of_cons in Hm as [->|Hm]; [|now exists m].
        unfold name_of in Hn. rewrite Hs in Hn. simpl in Hn.
        injection Hn as ->. contradiction.
    + apply bool_decide_eq_false in Hseen.
      destruct (inventory_entry_conforming meta s (conj (ex_intro _ s Hs) Hothers) Hs)
        as (r & -> & Hname & Hscore & _ & Hstatus).
      destruct (IH ({[s]} ∪ seen) Hrest) as (output & -> & Hnd & Hmem & Hent).
      exists (r :: output). simpl. split; [reflexivity|]. split; [|split].
      * constructor; [|assumption]. rewrite Hname, Hmem.
        intros (Hn & _). apply Hn. apply elem_of_union. left.
        now apply elem_of_singleton.
      * intros t. rewrite elem_of_cons, Hmem, Hname. split.
        { intros [-> | (Ht & m & Hm & Hn)].
          - split; [assumption|]. exists meta.
            split; [apply list_elem_of_here|]. unfold name_of. now rewrite Hs.
          - split; [intros Hin; apply Ht, elem_of_union; now right|]. exists m.
            split; [now apply list_elem_of_further | assumption]. }
        { intros (Ht & m & Hm & Hn).
          destruct (decide (t = s)) as [->|Hne]; [now left|]. right.
          split; [intros [Hin%elem_of_singleton|Hin]%elem_of_union; contradiction|].
          apply elem_of_cons in Hm as [->|Hm]; [|now exists m].
          unfold name_of in Hn. rewrite Hs in Hn. simpl in Hn. congruence. }
      * constructor; [|assumption]. rewrite Hname. now split.
Qed.

(** C4, on the collection this repository writes. Whenever [ingest_inventory]
    has stored at least one lot, [get_inventory] raises on the first document
    instead of listing it: it reads the name under ["ingredient_name"], which
    the ingest stores under ["IngredientName"]. *)
Theorem get_inventory_after_ingest
    (rows : option (list (gmap string string))) (d : inventory_doc)
    (docs : list inventory_doc) :
  ingest_inventory rows = Ok (d :: docs) ->
  get_inventory (Some (d :: docs)) = Raise ValidationError.
Proof.
  intros Hingest. destruct rows as [rows|]; [|discriminate].
  destruct (ingest_rows_head _ _ _ Hingest) as (row & rest & -> & Hrow).
  unfold get_inventory. simpl.
  revert Hrow. unfold ingest_row, column.
  destruct (row !! "IngredientName") as [name|]; [simpl|discriminate].
  destruct (row !! "Category") as [cat|]; [simpl|discriminate].
  destruct (row !! "LotID") as [lot|]; [simpl|discriminate].
  destruct (row !! "CurrentQuantity") as [qc|]; [simpl|discriminate].
  destruct (float_of_str qc) as [q|]; [simpl|discriminate].
  destruct (row !! "DefaultUnit") as [u|]; [simpl|discriminate].
  destruct (row !! "ExpirationDate") as [e|]; [simpl|discriminate].
  intros [= <-]. simpl. unfold inventory_entry. simpl.
  rewrite !lookup_insert_ne, !lookup_empty by discriminate. reflexivity.
Qed.

End OwnerFacts.

(** * Scenarios

    A kitchen on 4 November 2026, run with the stand-ins of [Sample]. *)

Definition lot_row (name qty expiration : string) : gmap string string :=
  <["Ingredient Name" := name]>
  (<["Current_Quantity" := qty]>
  (<["Expiration Date" := expiration]> ∅)).

Definition lots_csv : csv_file :=
  {| fieldnames := Some ["Lot"; "Ingredient Name"; "Current_Quantity"; "Expiration Date"];
     csv_rows :=
       [ lot_row "Beef" "10" "11/03/2026";
         lot_row "Onion" "5" "11/04/2026";
         lot_row " Onion " "7" "n/a";
         lot_row "Onion" "abc" "12/01/2026";
         lot_row "Onion" "2" "";
         lot_row "Lettuce" "0" "12/01/2026";
         lot_row "Tomato" "50" "12/25/2026" ] |}.

Definition now_2026_11_04 : Datetime.datetime :=
  {| Datetime.on := {| Datetime.year := 2026; Datetime.month := 11; Datetime.day := 4 |};
     Datetime.hour := 13; Datetime.minute := 30;
     Datetime.second := 0; Datetime.microsecond := 0 |}.

Definition kitchen : InventoryManager :=
  reload_inventory Sample.str_lower Sample.str_strip Sample.float_of_str
    Sample.strptime_mdY {| inventory_levels := ∅ |} (Some lots_csv) now_2026_11_04.

Definition rule (trigger suggestion : string) (justification : option string)
    : SubstitutionRule :=
  {| trigger_ingredient := Some trigger;
     suggest_item_id := None;
     suggest_item_name := Some suggestion;
     rag_justification := justification |}.

Definition hit (id name : string) (distance : float) (rules : list SubstitutionRule)
    : menu_hit :=
  {| hit_id := id; hit_document := name; hit_distance := distance;
     meta_name := name; meta_price := 9.5%float;
     meta_suggested_substitutions := rules |}.

Definition salad : menu_hit :=
  hit "m1" "Salad" 0.25%float [rule "Lettuce" "Cabbage Slaw" (Some "similar crunch")].
Definition burger : menu_hit := hit "m2" "Burger" 0.125%float [].
Definition soup : menu_hit :=
  hit "m3" "Soup" 0.5%float
    [rule "Onion" "Leek Soup" None; rule "Lettuce" "Kale Soup" (Some "greens")].
Definition stew : menu_hit :=
  hit "m4" "Stew" 0.5%float
    [rule "Tomato" "Bean Stew" None; rule "Onion" "Shallot Stew" None;
     rule "Onion" "Plain Stew" (Some "no onion")].

Definition menu : string -> nat -> list menu_hit :=
  fun _ _ => [salad; burger; soup; stew].

(** The beef lot expired yesterday and is not counted; the onion lots of
    today, without a date and with an unreadable date are, the one whose
    quantity is no number is not. *)
Example kitchen_quantities :
  get_quantity kitchen (Some "Beef") = 0%float /\
  inventory_levels kitchen !! "Beef" = None /\
  get_quantity kitchen (Some "Onion") = 14%float /\
  get_quantity kitchen (Some "Lettuce") = 0%float /\
  get_quantity kitchen (Some "Tomato") = 50%float.
Proof. vm_compute. repeat split. Qed.

Ltac complete_rows :=
  repeat (constructor;
          [ split; [|split];
            [ eexists; vm_compute; reflexivity
            | eexists; vm_compute; reflexivity
            | let e := fresh "e" in let He := fresh "He" in
              intros e He; vm_compute in He; injection He as <-;
              eexists; vm_compute; reflexivity ]
          | ]);
  constructor.

Lemma reload_inventory_aggregates_witness :
  get_quantity kitchen (Some "Onion")
  = aggregate Sample.str_strip Sample.float_of_str Sample.strptime_mdY
      "Ingredient Name" "Current_Quantity" (Some "Expiration Date")
      (Datetime.on now_2026_11_04) (csv_rows lots_csv) "Onion".
Proof.
  apply (reload_inventory_aggregates Sample.str_lower Sample.str_strip
           Sample.float_of_str Sample.strptime_mdY
           {| inventory_levels := ∅ |} lots_csv
           ["Lot"; "Ingredient Name"; "Current_Quantity"; "Expiration Date"]
           now_2026_11_04 "Onion").
  - reflexivity.
  - vm_compute. reflexivity.
  - vm_compute. reflexivity.
  - complete_rows.
Defined.

(** A line shorter than the header stops the load at that line. *)
Example short_row_stops_the_load :
  get_quantity
    (reload_inventory Sample.str_lower Sample.str_strip Sample.float_of_str
       Sample.strptime_mdY {| inventory_levels := ∅ |}
       (Some {| fieldnames := Some ["Name"; "Quantity"; "Expiry"];
                csv_rows := [ <["Name" := "Beef"]> (<["Quantity" := "5"]> ∅);
                              <["Name" := "Pork"]> (<["Quantity" := "3"]>
                                (<["Expiry" := ""]> ∅)) ] |})
       now_2026_11_04)
    (Some "Pork") = 0%float.
Proof. vm_compute. reflexivity. Qed.

(** A line of a file as [csv.DictReader] reads it: the cells under the
    headers, in order; the headers a short line does not reach have no
    cell. *)
Definition csv_line (headers cells : list string) : gmap string string :=
  list_to_map (zip headers cells).

Definition ragged_csv : csv_file :=
  {| fieldnames := Some ["Name"; "Quantity"; "Expiry"];
     csv_rows := [ csv_line ["Name"; "Quantity"; "Expiry"] ["Onion"; "5"; ""];
                   csv_line ["Name"; "Quantity"; "Expiry"] ["Garlic"];
                   csv_line ["Name"; "Quantity"; "Expiry"] ["Pork"; "3"; ""] ] |}.

Definition dateless_csv : csv_file :=
  {| fieldnames := Some ["Name"; "Quantity"; "Expiry"];
     csv_rows := [ csv_line ["Name"; "Quantity"; "Expiry"] ["Beef"; "5"] ] |}.

(** C6, where the code departs from it. In a file whose second line holds a
    name only, the pork lot of the third line is lost: the reload gives pork
    the quantity 0.0, where the sum over its lot rows is 3.0 (the onion lot
    read before is kept). And a beef lot whose line ends before the
    expiration cell, an absent date, is not counted: the reload gives beef
    0.0, where the sum that counts lots without a date is 5.0. In both files
    [.strip()] on the [None] cell raises an exception that the handlers of
    the loop, which catch [ValueError] only, let through to the outer one. *)
Theorem reload_inventory_short_line_loses_lots :
  let reload f :=
    reload_inventory Sample.str_lower Sample.str_strip Sample.float_of_str
      Sample.strptime_mdY {| inventory_levels := ∅ |} (Some f) now_2026_11_04 in
  let sum f n :=
    aggregate Sample.str_strip Sample.float_of_str Sample.strptime_mdY
      "Name" "Quantity" (Some "Expiry") (Datetime.on now_2026_11_04) (csv_rows f) n in
  (name_col_of Sample.str_lower ["Name"; "Quantity"; "Expiry"] = Some "Name" /\
   qty_col_of Sample.str_lower ["Name"; "Quantity"; "Expiry"] = Some "Quantity" /\
   exp_col_of Sample.str_lower ["Name"; "Quantity"; "Expiry"] = Some "Expiry") /\
  (get_quantity (reload ragged_csv) (Some "Onion") = 5%float /\
   get_quantity (reload ragged_csv) (Some "Pork") = 0%float /\
   sum ragged_csv "Pork" = 3%float) /\
  (get_quantity (reload dateless_csv) (Some "Beef") = 0%float /\
   sum dateless_csv "Beef" = 5%float).
Proof. vm_compute. repeat split. Qed.

Example threshold_and_stock_tests_kitchen :
  is_low ∅ kitchen (Some "Onion") = true /\
  is_out kitchen (Some "Onion") = false /\
  is_low ∅ (set_quantity kitchen "Onion" 15%float) (Some "Onion") = false /\
  is_out kitchen (Some "Beef") = true /\
  is_out kitchen None = true /\
  is_low {["Onion" := 10%float]} kitchen (Some "Onion") = false.
Proof. vm_compute. repeat split. Qed.

(** The patron response for the kitchen: nothing is dropped; the burger,
    none of whose rules names the missing beef, is served as in stock, and
    the three items with a low or missing trigger come back substituted. *)
Example patron_search_kitchen :
  map (fun r => (res_name r, res_availability_status r,
                 suggested_item <$> res_substitution r))
      (patron_search ∅ kitchen (Some menu) "lunch")
  = [ ("Burger", "In Stock", None);
      ("Salad", "Substituted", Some "Cabbage Slaw");
      ("Soup", "Substituted", Some "Kale Soup");
      ("Stew", "Substituted", Some "Shallot Stew") ].
Proof. vm_compute. reflexivity. Qed.

(** Soup: the onion of the first rule is low, the lettuce of the second is
    out; the lettuce rule decides. *)
Example out_trigger_takes_precedence_soup :
  scan_triggers ∅ kitchen (meta_suggested_substitutions soup) "In Stock" None
  = ("Out of Stock", Some "Lettuce") /\
  check_stock_logic ∅ kitchen (candidate_of_hit soup)
  = set_outcome (candidate_of_hit soup)
      (Some {| original_item := "Soup"; suggested_item := "Kale Soup";
               reason := "greens" |})
      "Substituted".
Proof. vm_compute. split; reflexivity. Qed.

Lemma substitution_from_first_matching_rule_witness :
  let res := check_stock_logic ∅ kitchen (candidate_of_hit stew) in
  availability_status res = "Substituted" /\
  exists sg,
    substitution res = Some sg /\
    original_item sg = "Stew" /\
    (forall name, Some "Shallot Stew" = Some name -> suggested_item sg = name) /\
    (forall text, @None string = Some text -> reason sg = text) /\
    (@None string = None -> reason sg = "Better availability").
Proof.
  apply (substitution_from_first_matching_rule ∅ kitchen (candidate_of_hit stew)
           (rule "Onion" "Shallot Stew" None) "Low Stock" (Some "Onion")
           [rule "Tomato" "Bean Stew" None] (rule "Onion" "Shallot Stew" None)
           [rule "Onion" "Plain Stew" (Some "no onion")]).
  - apply list_elem_of_further, list_elem_of_here.
  - right. vm_compute. reflexivity.
  - vm_compute. reflexivity.
  - reflexivity.
  - reflexivity.
  - repeat constructor. discriminate.
Defined.

Lemma resolver_invariant_witness :
  let res := check_stock_logic ∅ kitchen (candidate_of_hit salad) in
  let state := scan_triggers ∅ kitchen (meta_suggested_substitutions salad)
                 "In Stock" None in
  (availability_status res = "Out of Stock" ->
     state.1 = "Out of Stock" /\
     forall sub, sub ∈ meta_suggested_substitutions salad ->
                 trigger_ingredient sub <> state.2) /\
  (availability_status res = "Substituted" -> substitution res <> None).
Proof.
  apply (resolver_invariant ∅ kitchen (candidate_of_hit salad)); reflexivity.
Defined.

(** The scenario of the specification: no rule of the burger names beef,
    beef has quantity zero, and the burger is in the response. *)
Lemma burger_is_not_excluded :
  ~ excluded_when_unreferenced_out ∅ kitchen menu "burger" burger "Beef".
Proof.
  intros Hclaim.
  apply (Hclaim (list_elem_of_further _ _ _ (list_elem_of_here _ _))
           eq_refl
           (fun sub Hin _ => proj1 (elem_of_nil sub) Hin)
           (to_result (candidate_of_hit burger))).
  - vm_compute. apply list_elem_of_here.
  - reflexivity.
Qed.

Lemma unreferenced_ingredient_keeps_item_witness :
  let item := candidate_of_hit burger in
  (forall q, check_stock_logic ∅ (set_quantity kitchen "Beef" q) item
             = check_stock_logic ∅ kitchen item) /\
  (exists r, r ∈ patron_search ∅ kitchen (Some menu) "burger" /\
             r = to_result (check_stock_logic ∅ kitchen item) /\ res_id r = "m2") /\
  (Forall (fun sub => is_out kitchen (trigger_ingredient sub) = false /\
                      is_low ∅ kitchen (trigger_ingredient sub) = false) [] ->
   res_availability_status (to_result (check_stock_logic ∅ kitchen item)) = "In Stock").
Proof.
  apply (unreferenced_ingredient_keeps_item ∅ kitchen menu "burger" burger "Beef").
  - apply list_elem_of_further, list_elem_of_here.
  - vm_compute. reflexivity.
  - intros sub Hin. now apply elem_of_nil in Hin.
Defined.

Definition ranked_example : list MenuItem :=
  [ set_outcome (candidate_of_hit salad) None "Substituted";
    set_outcome (candidate_of_hit soup) None "In Stock";
    set_outcome (candidate_of_hit burger) None "In Stock";
    set_outcome (candidate_of_hit stew) None "In Stock" ].

(** Soup and stew have the same tier and score: soup stays first. *)
Example rank_results_example :
  map item_name (rank_results ranked_example) = ["Burger"; "Soup"; "Stew"; "Salad"].
Proof. vm_compute. reflexivity. Qed.

Lemma rank_results_stable_sort_witness :
  Permutation ranked_example (rank_results ranked_example) /\
  StronglySorted tier_then_score (rank_results ranked_example) /\
  (forall tier relevance,
     List.filter (ranks_as tier relevance) (rank_results ranked_example)
     = List.filter (ranks_as tier relevance) ranked_example).
Proof.
  apply (rank_results_stable_sort ranked_example).
  repeat constructor.
Defined.

(** One lot, ingested and then listed. *)
Definition ingest_csv : list (gmap string string) :=
  [ <["LotID" := "L1"]> (<["IngredientName" := "Onion"]> (<["Category" := "Produce"]>
    (<["CurrentQuantity" := "5"]> (<["DefaultUnit" := "kg"]>
    (<["ExpirationDate" := "11/04/2026"]> ∅))))) ].

Definition ingested_doc : inventory_doc :=
  {| doc_id := "L1";
     doc_text := "Onion. Category: Produce.";
     doc_meta := <["IngredientName" := MStr "Onion"]>
                 (<["Category" := MStr "Produce"]>
                 (<["CurrentQuantity" := MNum 5%float]>
                 (<["DefaultUnit" := MStr "kg"]>
                 (<["ExpirationDate" := MStr "11/04/2026"]> ∅)))) |}.

Lemma get_inventory_after_ingest_witness :
  ingest_inventory Sample.float_of_str (Some ingest_csv) = Ok [ingested_doc] /\
  get_inventory ∅ (Some [ingested_doc]) = Raise ValidationError.
Proof.
  assert (H : ingest_inventory Sample.float_of_str (Some ingest_csv) = Ok [ingested_doc])
    by (vm_compute; reflexivity).
  split; [exact H|].
  exact (get_inventory_after_ingest Sample.float_of_str ∅ (Some ingest_csv)
           ingested_doc [] H).
Defined.

(** With the keys the endpoint reads, the same lots are listed once per
    ingredient, from the quantity of the first lot met. *)
Example get_inventory_conforming_example :
  get_inventory ∅
    (Some [ {| doc_id := "L1"; doc_text := "";
               doc_meta := <["ingredient_name" := MStr "Onion"]>
                           (<["current_quantity" := MNum 5%float]> ∅) |};
            {| doc_id := "L2"; doc_text := "";
               doc_meta := <["ingredient_name" := MStr "Onion"]>
                           (<["current_quantity" := MNum 100%float]> ∅) |};
            {| doc_id := "L3"; doc_text := "";
               doc_meta := <["ingredient_name" := MStr "Beef"]>
                           (<["unit" := MStr "kg"]> ∅) |} ])
  = Ok [ {| ingredient_name := "Onion"; category := "General";
            current_quantity := 5%float; unit := "units";
            score := 1%float; status := "Low" |};
         {| ingredient_name := "Beef"; category := "General";
            current_quantity := 0%float; unit := "kg";
            score := 1%float; status := "Out" |} ].
Proof. vm_compute. reflexivity. Qed.

(** * Further properties of the code *)

(** ** More on the order of binary64 numbers *)

Module FloatOrderMore.
Import FloatOrder FloatOrderFacts.

Lemma SFleb_nan_l x y : sf_nan x = true -> SFleb x y = false.
Proof. destruct x; try discriminate. reflexivity. Qed.

Lemma SFleb_nan_r x y : sf_nan y = true -> SFleb x y = false.
Proof.
  destruct y; try discriminate. intros _. unfold SFleb.
  destruct x as [s|s| |s m e]; simpl; try reflexivity; destruct s; reflexivity.
Qed.

Lemma leb_true_not_nan x y :
  PrimFloat.leb x y = true -> is_nan x = false /\ is_nan y = false.
Proof.
  rewrite FloatAxioms.leb_spec, !is_nan_spec. intros H.
  destruct (sf_nan (Prim2SF x)) eqn:Hx; [now rewrite SFleb_nan_l in H|].
  destruct (sf_nan (Prim2SF y)) eqn:Hy; [now rewrite SFleb_nan_r in H|].
  now split.
Qed.

Lemma ltb_true_not_nan x y :
  PrimFloat.ltb x y = true -> is_nan x = false /\ is_nan y = false.
Proof.
  rewrite FloatAxioms.ltb_spec, !is_nan_spec. intros H.
  destruct (sf_nan (Prim2SF x)) eqn:Hx; [now rewrite SFltb_nan_l in H|].
  destruct (sf_nan (Prim2SF y)) eqn:Hy; [now rewrite SFltb_nan_r in H|].
  now split.
Qed.

(** [x <= y] and [y < z] give [x < z]. *)
Lemma leb_ltb_trans x y z :
  PrimFloat.leb x y = true -> PrimFloat.ltb y z = true -> PrimFloat.ltb x z = true.
Proof.
  intros Hxy Hyz.
  destruct (leb_true_not_nan _ _ Hxy) as [Nx Ny].
  destruct (ltb_true_not_nan _ _ Hyz) as [_ Nz].
  apply (leb_ord _ _ Nx Ny) in Hxy. apply (ltb_ord _ _ Ny Nz) in Hyz.
  apply (ltb_ord _ _ Nx Nz).
  destruct (ord x) as [[a b] c], (ord y) as [[a' b'] c'], (ord z) as [[a'' b''] c''].
  unfold lex3_lt in *. lia.
Qed.

End FloatOrderMore.

(** ** Inventory manager: reloading *)

Section ReloadFacts.

Context (str_lower : string -> string)
        (str_strip : string -> string)
        (float_of_str : string -> option float)
        (strptime_mdY : string -> option Datetime.date).

Local Abbreviation add_lot := (add_lot str_strip float_of_str strptime_mdY).
Local Abbreviation load_rows := (load_rows str_strip float_of_str strptime_mdY).
Local Abbreviation reload_inventory :=
  (reload_inventory str_lower str_strip float_of_str strptime_mdY).
Local Abbreviation lot_quantity := (lot_quantity str_strip float_of_str strptime_mdY).
Local Abbreviation name_col_of := (name_col_of str_lower).
Local Abbreviation qty_col_of := (qty_col_of str_lower).
Local Abbreviation exp_col_of := (exp_col_of str_lower).

(** X1. A reload either keeps the snapshot or replaces it as a whole: a
    missing file, or a header in which the name or the quantity column is
    not found, leaves the snapshot as it was; a file without header line
    empties it; and when both columns are found the new snapshot is read from
    the file alone, nothing of the old one remaining. *)
Theorem reload_inventory_keeps_or_replaces (self : InventoryManager)
    (now : Datetime.datetime) :
  reload_inventory self None now = self /\
  (forall f, fieldnames f = None ->
     inventory_levels (reload_inventory self (Some f) now) = ∅) /\
  (forall f headers,
     fieldnames f = Some headers ->
     truthy (name_col_of headers) = false \/ truthy (qty_col_of headers) = false ->
     reload_inventory self (Some f) now = self) /\
  (forall f headers other,
     fieldnames f = Some headers ->
     truthy (name_col_of headers) = true -> truthy (qty_col_of headers) = true ->
     reload_inventory self (Some f) now = reload_inventory other (Some f) now) /\
  (forall f headers,
     fieldnames f = Some headers ->
     truthy (name_col_of headers) = true -> truthy (qty_col_of headers) = true ->
     csv_rows f = [] ->
     inventory_levels (reload_inventory self (Some f) now) = ∅).
Proof.
  split; [reflexivity|]. split; [|split; [|split]].
  - intros f Hf. unfold reload_inventory. now rewrite Hf.
  - intros f headers Hf Hcols. unfold reload_inventory. rewrite Hf.
    destruct Hcols as [-> | ->]; [reflexivity|].
    now rewrite orb_true_r.
  - intros f headers other Hf Hn Hq. unfold reload_inventory.
    now rewrite Hf, Hn, Hq.
  - intros f headers Hf Hn Hq Hrows. unfold reload_inventory.
    now rewrite Hf, Hn, Hq, Hrows.
Qed.

(** A row with a [None] cell under the name column, or under the expiration
    column when there is one, raises whatever the totals. *)
Definition short_row (nc : string) (ec : option string) (row : gmap string string)
    : Prop :=
  row !! nc = None \/ (truthy ec = true /\ row !! default "" ec = None).

Lemma add_lot_short_row nc qc ec today row totals :
  short_row nc ec row -> exists e, add_lot nc qc ec today row totals = Raise e.
Proof.
  intros [Hn | [Ht He]]; unfold add_lot.
  - rewrite Hn. now exists AttributeError.
  - destruct (row !! nc) as [c|]; simpl; [|now exists AttributeError].
    rewrite Ht, He. now exists AttributeError.
Qed.

Lemma load_rows_stops nc qc ec today pre row rest : forall totals,
  short_row nc ec row ->
  load_rows nc qc ec today (pre ++ row :: rest) totals
  = load_rows nc qc ec today pre totals.
Proof.
  induction pre as [|p pre IH]; intros totals Hrow; simpl.
  - destruct (add_lot_short_row nc qc ec today row totals Hrow) as [e ->].
    reflexivity.
  - destruct (add_lot nc qc ec today p totals); [now apply IH | reflexivity].
Qed.

(** X2. The rows after a row that is shorter than the header are never
    read: when a row lacks the cell of the name column (or of the expiration
    column), the reloaded snapshot is the one of the rows before it, whatever
    the later rows hold. *)
Theorem reload_inventory_stops_at_short_row (self : InventoryManager)
    (headers : list string) (pre : list (gmap string string))
    (row : gmap string string) (rest : list (gmap string string))
    (now : Datetime.datetime) :
  truthy (name_col_of headers) = true ->
  truthy (qty_col_of headers) = true ->
  short_row (default "" (name_col_of headers)) (exp_col_of headers) row ->
  reload_inventory self
    (Some {| fieldnames := Some headers; csv_rows := pre ++ row :: rest |}) now
  = reload_inventory self
      (Some {| fieldnames := Some headers; csv_rows := pre |}) now.
Proof.
  intros Hn Hq Hrow. unfold reload_inventory. simpl. rewrite Hn, Hq. simpl.
  f_equal. now apply load_rows_stops.
Qed.

(** One complete row, exactly. *)
Lemma add_lot_complete_eq nc qc ec now row totals c :
  complete_row nc qc (if truthy ec then ec else None) row ->
  row !! nc = Some c ->
  add_lot nc qc ec (Datetime.midnight now) row totals
  = Ok match lot_quantity nc qc (if truthy ec then ec else None)
               (Datetime.on now) (str_strip c) row with
       | Some q => <[str_strip c := (default 0 (totals !! str_strip c) + q)%float]> totals
       | None => totals
       end.
Proof.
  intros (_ & [cq Hq] & He) Hn.
  unfold add_lot, lot_quantity. rewrite Hn, Hq. simpl.
  rewrite String.eqb_refl. simpl.
  destruct (truthy ec) eqn:Ht.
  - destruct ec as [e|]; [|discriminate]. simpl.
    destruct (He e eq_refl) as [ce Hce]. rewrite Hce. simpl.
    rewrite (is_expired_excluded str_strip strptime_mdY now ce). simpl.
    destruct (strptime_mdY (str_strip ce)) as [d|];
      [destruct (Datetime.date_ltb d (Datetime.on now))|];
      simpl; try reflexivity; destruct (float_of_str cq); reflexivity.
  - simpl. destruct (float_of_str cq); reflexivity.
Qed.

Lemma lot_quantity_name nc qc ec as_of n row q c :
  lot_quantity nc qc ec as_of n row = Some q -> row !! nc = Some c -> str_strip c = n.
Proof.
  unfold lot_quantity. intros H Hc. rewrite Hc in H.
  destruct (String.eqb_spec (str_strip c) n); [assumption | discriminate].
Qed.

Lemma load_rows_tracked nc qc ec now rows : forall totals n,
  Forall (complete_row nc qc (if truthy ec then ec else None)) rows ->
  is_Some (load_rows nc qc ec (Datetime.midnight now) rows totals !! n) <->
  is_Some (totals !! n) \/
  exists row, row ∈ rows /\
    is_Some (lot_quantity nc qc (if truthy ec then ec else None) (Datetime.on now) n row).
Proof.
  induction rows as [|row rows IH]; intros totals n Hall; simpl.
  - split; [now left|]. intros [H | (row & Hin & _)]; [assumption|].
    now apply elem_of_nil in Hin.
  - inversion Hall as [|? ? Hrow Hrest]; subst.
    destruct Hrow as ([c Hc] & Hrow').
    rewrite (add_lot_complete_eq nc qc ec now row totals c
               (conj (ex_intro _ c Hc) Hrow') Hc).
    rewrite (IH _ n Hrest). clear IH.
    destruct (lot_quantity nc qc (if truthy ec then ec else None) (Datetime.on now)
                (str_strip c) row) as [q|] eqn:Hlq.
    + split.
      * intros [Hs | (r & Hin & Hr)].
        { destruct (decide (str_strip c = n)) as [<-|Hne].
          - right. exists row. split; [apply list_elem_of_here|]. now rewrite Hlq.
          - left. now rewrite lookup_insert_ne in Hs. }
        { right. exists r. split; [now apply list_elem_of_further | assumption]. }
      * intros [Hs | (r & Hin & Hr)].
        { left. destruct (decide (str_strip c = n)) as [<-|Hne].
          - now rewrite lookup_insert_eq.
          - now rewrite lookup_insert_ne. }
        { apply elem_of_cons in Hin as [->|Hin].
          - left. destruct Hr as [q' Hq'].
            pose proof (lot_quantity_name _ _ _ _ _ _ _ _ Hq' Hc) as Hname.
            subst n. now rewrite lookup_insert_eq.
          - right. now exists r. }
    + split.
      * intros [Hs | (r & Hin & Hr)]; [now left|].
        right. exists r. split; [now apply list_elem_of_further | assumption].
      * intros [Hs | (r & Hin & Hr)]; [now left|].
        apply elem_of_cons in Hin as [->|Hin]; [|right; now exists r].
        destruct Hr as [q' Hq'].
        pose proof (lot_quantity_name _ _ _ _ _ _ _ _ Hq' Hc) as Hname.
        subst n. rewrite Hlq in Hq'. discriminate.
Qed.

(** X3. After a reload of a table whose rows are as long as its header, an
    ingredient is tracked exactly when one of its lots is counted: an
    ingredient all of whose lots are expired, or have a quantity that is no
    number, is not in the snapshot at all. *)
Theorem reload_inventory_tracks_counted (self : InventoryManager) (f : csv_file)
    (headers : list string) (now : Datetime.datetime) (n : string) :
  let nc := default "" (name_col_of headers) in
  let qc := default "" (qty_col_of headers) in
  let ec := if truthy (exp_col_of headers) then exp_col_of headers else None in
  fieldnames f = Some headers ->
  truthy (name_col_of headers) = true ->
  truthy (qty_col_of headers) = true ->
  Forall (complete_row nc qc ec) (csv_rows f) ->
  is_Some (inventory_levels (reload_inventory self (Some f) now) !! n) <->
  exists row, row ∈ csv_rows f /\
              is_Some (lot_quantity nc qc ec (Datetime.on now) n row).
Proof.
  intros nc qc ec Hf Hn Hq Hrows.
  unfold reload_inventory. rewrite Hf, Hn, Hq.
  change (negb true || negb true) with false. cbv iota.
  change (inventory_levels {| inventory_levels := ?m |}) with m.
  etransitivity;
    [apply (load_rows_tracked nc qc (exp_col_of headers) now (csv_rows f) ∅ n Hrows)|].
  rewrite lookup_empty.
  split; [intros [[x Hx] | H]; [discriminate | exact H] | now right].
Qed.

End ReloadFacts.

(** ** Threshold resolver: out and low *)

(** X4. With a threshold above zero (the default 15.0 is), an ingredient that
    is out is also low: [is_low] alone does not tell the two apart, which is
    why the resolver tests [is_out] first. *)
Theorem out_is_low_above_zero (INGREDIENT_THRESHOLDS : gmap string float)
    (self : InventoryManager) (n : option string) :
  PrimFloat.ltb 0%float (get_threshold INGREDIENT_THRESHOLDS n) = true ->
  is_out self n = true ->
  is_low INGREDIENT_THRESHOLDS self n = true.
Proof.
  unfold is_out, is_low. intros Ht Ho.
  exact (FloatOrderMore.leb_ltb_trans _ _ _ Ho Ht).
Qed.

(** ** Threshold table *)

Section ThresholdFacts.

Context (str_lower : string -> string)
        (str_strip : string -> string)
        (float_of_str : string -> option float).

Local Abbreviation threshold_row := (threshold_row str_strip float_of_str).
Local Abbreviation threshold_rows := (threshold_rows str_strip float_of_str).
Local Abbreviation load_thresholds_from_csv :=
  (load_thresholds_from_csv str_lower str_strip float_of_str).
Local Abbreviation threshold_of := (threshold_of str_strip float_of_str).
Local Abbreviation threshold_name_col := (threshold_name_col str_lower).
Local Abbreviation threshold_val_col := (threshold_val_col str_lower).

Lemma last_omap_cons {A B} (g : A -> option B) x l :
  last (omap g (x :: l))
  = match last (omap g l) with
    | Some y => Some y
    | None => g x
    end.
Proof.
  change (omap g (x :: l))
    with (match g x with Some y => y :: omap g l | None => omap g l end).
  destruct (g x) as [v|].
  - apply last_cons.
  - now destruct (last (omap g l)).
Qed.

Lemma threshold_rows_complete nc vc rows : forall thresholds,
  Forall (fun row => is_Some (row !! nc) /\ is_Some (row !! vc)) rows ->
  exists t,
    threshold_rows nc vc rows thresholds = Ok t /\
    forall n, t !! n = match last (omap (threshold_of nc vc n) rows) with
                       | Some v => Some v
                       | None => thresholds !! n
                       end.
Proof.
  induction rows as [|row rows IH]; intros thresholds Hall.
  - exists thresholds. now split.
  - inversion Hall as [|? ? ([c Hc] & [v Hv]) Hrest]; subst.
    simpl. unfold threshold_row at 1. rewrite Hc, Hv.
    assert (Hstep : forall t0,
      (forall n, t0 !! n = match threshold_of nc vc n row with
                           | Some x => Some x
                           | None => thresholds !! n
                           end) ->
      exists t, threshold_rows nc vc rows t0 = Ok t /\
        forall n, t !! n = match last (omap (threshold_of nc vc n) (row :: rows)) with
                           | Some v => Some v
                           | None => thresholds !! n
                           end).
    { intros t0 Ht0. destruct (IH t0 Hrest) as (t & Ht & Hlook).
      exists t. split; [assumption|]. intros n.
      rewrite Hlook, last_omap_cons, Ht0.
      now destruct (last (omap (threshold_of nc vc n) rows)). }
    destruct (float_of_str v) as [x|] eqn:Hx; simpl; apply Hstep; intros n;
      unfold threshold_of; rewrite Hc, Hv; simpl; rewrite Hx.
    + destruct (String.eqb_spec (str_strip c) n) as [->|Hne].
      * now rewrite lookup_insert_eq.
      * now rewrite lookup_insert_ne.
    + now destruct (String.eqb (str_strip c) n).
Qed.

(** X5. When the two columns are found and every row has both cells, the
    table gives a name the value of the last row of that name whose value
    is a number: later rows override earlier ones, rows whose value is no
    number are passed over, and a name without such a row falls back to the
    default 15.0. *)
Theorem load_thresholds_last_row_wins (f : csv_file) (headers : list string)
    (n : string) :
  let nc := default "" (threshold_name_col headers) in
  let vc := default "" (threshold_val_col headers) in
  fieldnames f = Some headers ->
  truthy (threshold_name_col headers) = true ->
  truthy (threshold_val_col headers) = true ->
  Forall (fun row => is_Some (row !! nc) /\ is_Some (row !! vc)) (csv_rows f) ->
  load_thresholds_from_csv (Some f) !! n
  = last (omap (threshold_of nc vc n) (csv_rows f)) /\
  get_threshold (load_thresholds_from_csv (Some f)) (Some n)
  = default 15%float (last (omap (threshold_of nc vc n) (csv_rows f))).
Proof.
  intros nc vc Hf Hn Hv Hrows.
  assert (H : load_thresholds_from_csv (Some f) !! n
              = last (omap (threshold_of nc vc n) (csv_rows f))).
  { unfold load_thresholds_from_csv. rewrite Hf, Hn, Hv.
    change (negb true || negb true) with false. cbv iota.
    destruct (threshold_rows_complete nc vc (csv_rows f) ∅ Hrows) as (t & Ht & Hlook).
    fold nc vc. rewrite Ht, Hlook, lookup_empty.
    now destruct (last (omap (threshold_of nc vc n) (csv_rows f))). }
  split; [exact H|].
  unfold get_threshold, dict_get. now rewrite H.
Qed.

Lemma threshold_rows_short nc vc pre row rest : forall thresholds,
  row !! nc = None \/ row !! vc = None ->
  exists e, threshold_rows nc vc (pre ++ row :: rest) thresholds = Raise e.
Proof.
  induction pre as [|p pre IH]; intros thresholds Hrow; simpl.
  - unfold threshold_row at 1.
    destruct (row !! nc) as [c|]; [|now exists AttributeError].
    destruct Hrow as [Hrow | ->]; [discriminate|]. now exists TypeError.
  - destruct (threshold_row nc vc p thresholds) as [t|e]; simpl.
    + now apply IH.
    + now exists e.
Qed.

(** X6. The threshold table is all or nothing: a missing file, a file
    without header line, a header in which one of the two columns is not
    found, and a single row shorter than the header anywhere in the file
    each give the empty table, also for the rows read before the short one;
    every ingredient then has the default threshold 15.0. *)
Theorem load_thresholds_all_or_nothing :
  load_thresholds_from_csv None = ∅ /\
  (forall f, fieldnames f = None -> load_thresholds_from_csv (Some f) = ∅) /\
  (forall f headers,
     fieldnames f = Some headers ->
     truthy (threshold_name_col headers) = false \/
     truthy (threshold_val_col headers) = false ->
     load_thresholds_from_csv (Some f) = ∅) /\
  (forall headers pre row rest,
     row !! default "" (threshold_name_col headers) = None \/
     row !! default "" (threshold_val_col headers) = None ->
     load_thresholds_from_csv
       (Some {| fieldnames := Some headers; csv_rows := pre ++ row :: rest |}) = ∅) /\
  (forall n, get_threshold ∅ n = 15%float).
Proof.
  split; [reflexivity|]. split; [|split; [|split]].
  - intros f Hf. unfold load_thresholds_from_csv. now rewrite Hf.
  - intros f headers Hf Hcols. unfold load_thresholds_from_csv. rewrite Hf.
    destruct Hcols as [-> | ->]; [reflexivity|]. now rewrite orb_true_r.
  - intros headers pre row rest Hrow. unfold load_thresholds_from_csv. simpl.
    destruct (negb _ || negb _); [reflexivity|].
    destruct (threshold_rows_short _ _ pre row rest ∅ Hrow) as [e ->].
    reflexivity.
  - intros [s|]; reflexivity.
Qed.

End ThresholdFacts.

(** ** Substitution resolver: what it changes and which rule decides *)

Section ResolverMore.

Context (INGREDIENT_THRESHOLDS : gmap string float)
        (inventory_manager : InventoryManager).

Local Abbreviation out sub := (is_out inventory_manager (trigger_ingredient sub)).
Local Abbreviation low sub :=
  (is_low INGREDIENT_THRESHOLDS inventory_manager (trigger_ingredient sub)).
Local Abbreviation scan_triggers := (scan_triggers INGREDIENT_THRESHOLDS inventory_manager).
Local Abbreviation check_stock_logic :=
  (check_stock_logic INGREDIENT_THRESHOLDS inventory_manager).

(** The resolver answers with the item itself, or with the item under a new
    substitution and availability. *)
Lemma check_stock_logic_shape item :
  check_stock_logic item = item \/
  exists s a, check_stock_logic item = set_outcome item s a.
Proof.
  unfold check_stock_logic.
  destruct (scan_triggers _ _ _) as [st a].
  destruct (String.eqb st "In Stock"); [now left|]. right.
  destruct (find_substitute _ _); eexists _, _; reflexivity.
Qed.

(** X7. The resolver changes nothing of a candidate but its substitution
    and its availability: id, name, description, price, score and the rule
    list come back as they went in. *)
Theorem check_stock_logic_frame (item : MenuItem) :
  let res := check_stock_logic item in
  item_id res = item_id item /\
  item_name res = item_name item /\
  item_description res = item_description item /\
  item_price res = item_price item /\
  item_score res = item_score item /\
  suggested_substitutions res = suggested_substitutions item.
Proof.
  intros res. subst res.
  destruct (check_stock_logic_shape item) as [-> | (s & a & ->)];
    repeat split.
Qed.

(** X8. Resolving a resolved item again changes nothing. *)
Theorem check_stock_logic_idempotent (item : MenuItem) :
  check_stock_logic (check_stock_logic item) = check_stock_logic item.
Proof.
  destruct (scan_triggers (suggested_substitutions item) "In Stock" None)
    as [st a] eqn:Hscan.
  rewrite (check_stock_logic_cases _ _ item st a Hscan).
  destruct (String.eqb st "In Stock") eqn:Hst.
  - rewrite (check_stock_logic_cases _ _ item st a Hscan). now rewrite Hst.
  - destruct (find_substitute (suggested_substitutions item) a) as [sub|] eqn:Hfind.
    + rewrite (check_stock_logic_cases _ _ (set_outcome item _ _) st a Hscan).
      simpl. now rewrite Hst, Hfind.
    + rewrite (check_stock_logic_cases _ _ (set_outcome item _ _) st a Hscan).
      simpl. now rewrite Hst, Hfind.
Qed.

(** X9. A candidate that goes in as in stock comes back in stock exactly
    when none of its rules' triggers is low or out, and then it comes back
    unchanged; otherwise it comes back substituted. *)
Theorem in_stock_iff_no_trigger (item : MenuItem) :
  availability_status item = "In Stock" ->
  let quiet := Forall (fun sub => out sub = false /\ low sub = false)
                 (suggested_substitutions item) in
  (availability_status (check_stock_logic item) = "In Stock" <-> quiet) /\
  (quiet -> check_stock_logic item = item) /\
  (~ quiet -> availability_status (check_stock_logic item) = "Substituted").
Proof.
  intros Hitem quiet. subst quiet.
  destruct (scan_triggers (suggested_substitutions item) "In Stock" None)
    as [st a] eqn:Hscan.
  assert (Hsub : forall r, r ∈ suggested_substitutions item ->
                   out r = true \/ low r = true ->
                   availability_status (check_stock_logic item) = "Substituted").
  { intros r Hr Htrig.
    destruct (check_stock_logic_triggered _ _ item r st a Hr Htrig Hscan)
      as (r' & _ & _ & ->).
    reflexivity. }
  destruct (scan_triggers_result _ _ _ _ _ _ _ Hscan)
    as [(Hall & _) | [(_ & r & Hr & _ & Ho) | (_ & _ & r & Hr & _ & Hl)]].
  - rewrite (check_stock_logic_untriggered _ _ item Hall).
    split; [tauto|]. split; [reflexivity | contradiction].
  - assert (Hnot : ~ Forall (fun sub => out sub = false /\ low sub = false)
                     (suggested_substitutions item)).
    { rewrite Forall_forall. intros H. destruct (H r Hr). congruence. }
    rewrite (Hsub r Hr (or_introl Ho)).
    split; [split; [discriminate | contradiction]|].
    split; [contradiction | reflexivity].
  - assert (Hnot : ~ Forall (fun sub => out sub = false /\ low sub = false)
                     (suggested_substitutions item)).
    { rewrite Forall_forall. intros H. destruct (H r Hr). congruence. }
    rewrite (Hsub r Hr (or_intror Hl)).
    split; [split; [discriminate | contradiction]|].
    split; [contradiction | reflexivity].
Qed.

Lemma scan_triggers_quiet subs : forall st a,
  Forall (fun sub => out sub = false /\ low sub = false) subs ->
  scan_triggers subs st a = (st, a).
Proof.
  induction subs as [|sub subs IH]; intros st a Hall; [reflexivity|].
  inversion Hall as [|? ? [Ho Hl] Hrest]; subst. simpl.
  rewrite Ho, Hl. now apply IH.
Qed.

Lemma scan_triggers_last_low pre r post : forall st a,
  Forall (fun sub => out sub = false) (pre ++ r :: post) ->
  low r = true ->
  Forall (fun sub => low sub = false) post ->
  scan_triggers (pre ++ r :: post) st a = ("Low Stock", trigger_ingredient r).
Proof.
  induction pre as [|p pre IH]; intros st a Hout Hr Hpost.
  - simpl in *. inversion Hout as [|? ? Ho Hrest]; subst.
    rewrite Ho, Hr. apply scan_triggers_quiet.
    rewrite Forall_forall in *. intros sub Hin. split; auto.
  - simpl in *. inversion Hout as [|? ? Ho Hrest]; subst.
    rewrite Ho. destruct (low p); now apply IH.
Qed.

(** X10. When no trigger is out, the last rule whose trigger is low decides:
    its trigger is the one remembered, and the suggestion is that of the
    first rule with that trigger. (An earlier low trigger is overwritten.) *)
Theorem last_low_trigger_decides (item : MenuItem)
    (pre : list SubstitutionRule) (r : SubstitutionRule)
    (post : list SubstitutionRule) :
  suggested_substitutions item = pre ++ r :: post ->
  Forall (fun sub => out sub = false) (suggested_substitutions item) ->
  low r = true ->
  Forall (fun sub => low sub = false) post ->
  scan_triggers (suggested_substitutions item) "In Stock" None
  = ("Low Stock", trigger_ingredient r) /\
  exists r',
    find_substitute (suggested_substitutions item) (trigger_ingredient r) = Some r' /\
    trigger_ingredient r' = trigger_ingredient r /\
    check_stock_logic item
    = set_outcome item (Some (make_suggestion item r')) "Substituted".
Proof.
  intros Hsubs Hout Hr Hpost.
  assert (Hscan : scan_triggers (suggested_substitutions item) "In Stock" None
                  = ("Low Stock", trigger_ingredient r)).
  { rewrite Hsubs in *. now apply scan_triggers_last_low. }
  split; [exact Hscan|].
  assert (Hin : r ∈ suggested_substitutions item).
  { rewrite Hsubs. apply elem_of_app. right. apply list_elem_of_here. }
  destruct (check_stock_logic_triggered _ _ item r _ _ Hin (or_intror Hr) Hscan)
    as (r' & Hfind & Ht & Hcheck).
  now exists r'.
Qed.

(** X11. A rule whose trigger is missing, or names an ingredient the
    inventory does not track, always triggers: the item comes back
    substituted, with the suggestion of one of its rules. *)
Theorem untracked_trigger_substitutes (item : MenuItem) (r : SubstitutionRule) :
  r ∈ suggested_substitutions item ->
  trigger_ingredient r = None \/
  (exists s, trigger_ingredient r = Some s /\
             inventory_levels inventory_manager !! s = None) ->
  availability_status (check_stock_logic item) = "Substituted" /\
  exists r', r' ∈ suggested_substitutions item /\
             substitution (check_stock_logic item) = Some (make_suggestion item r').
Proof.
  intros Hin Htrig.
  assert (Ho : out r = true).
  { unfold is_out, get_quantity, dict_get.
    destruct Htrig as [-> | (s & -> & ->)]; reflexivity. }
  destruct (scan_triggers (suggested_substitutions item) "In Stock" None)
    as [st a] eqn:Hscan.
  destruct (check_stock_logic_triggered _ _ item r st a Hin (or_introl Ho) Hscan)
    as (r' & Hfind & _ & ->).
  split; [reflexivity|]. exists r'. split; [|reflexivity].
  unfold find_substitute in Hfind. apply find_some in Hfind as [Hr' _].
  now apply list_elem_of_In.
Qed.

End ResolverMore.

(** ** Result ranker: lists already in order *)

Section SortedMore.

Context {A K : Type} (lt : K -> K -> bool) (key : A -> K).

Local Abbreviation insert_by := (insert_by lt key).
Local Abbreviation sorted := (sorted lt key).
Local Abbreviation le := (fun a b : A => lt (key b) (key a) = false).

Lemma sorted_fixpoint l : StronglySorted le l -> sorted l = l.
Proof.
  induction l as [|x l IH]; intros Hs; [reflexivity|].
  inversion Hs as [|? ? Hsl Hxl]; subst.
  simpl. rewrite (IH Hsl).
  destruct l as [|y l']; [reflexivity|].
  simpl. inversion Hxl as [|? ? Hxy _]; subst. now rewrite Hxy.
Qed.

Lemma sorted_length l : length (sorted l) = length l.
Proof. apply Permutation_length. symmetry. apply sorted_perm. Qed.

End SortedMore.

Section RankMore.
Import FloatOrder FloatOrderFacts.

(** X12. On scores that are numbers, a list that already stands in the
    order of tier then score is returned as it is, and ranking a ranked list
    changes nothing. *)
Theorem rank_results_fixpoint (items : list MenuItem) :
  Forall (fun item => is_nan (item_score item) = false) items ->
  (StronglySorted tier_then_score items -> rank_results items = items) /\
  rank_results (rank_results items) = rank_results items.
Proof.
  intros Hnan.
  assert (Hfix : forall l,
    Forall (fun item => is_nan (item_score item) = false) l ->
    StronglySorted tier_then_score l -> rank_results l = l).
  { intros l Hl Hs. apply sorted_fixpoint.
    apply (StronglySorted_on (fun item => is_nan (item_score item) = false)
             tier_then_score); [|assumption|assumption].
    intros a b Ha Hb. now apply key_le_tier_then_score. }
  split; [now apply Hfix|].
  apply sorted_fixpoint.
  apply (sorted_strongly key_lt sort_key
           (fun item => is_nan (item_score item) = false)); [| |assumption].
  - intros a b Ha Hb. now apply key_lt_asym.
  - intros a b c Ha Hb Hc. now apply key_le_trans.
Qed.

End RankMore.

(** ** Patron flow: what the response holds and in which order *)

(** The order of two results of the response: tier, then score. *)
Definition result_tier_then_score (a b : MenuItemResult) : Prop :=
  let ta := status_priority (res_availability_status a) in
  let tb := status_priority (res_availability_status b) in
  ta < tb \/ (ta = tb /\ PrimFloat.leb (res_score a) (res_score b) = true).

Lemma StronglySorted_map {A B} (R : A -> A -> Prop) (R' : B -> B -> Prop)
    (g : A -> B) l :
  (forall a b, R a b -> R' (g a) (g b)) ->
  StronglySorted R l -> StronglySorted R' (map g l).
Proof.
  intros HR Hs. induction Hs as [|x l Hs IH Hx]; simpl.
  - constructor.
  - constructor; [assumption|].
    rewrite Forall_forall in Hx. apply Forall_forall. intros y Hy.
    apply list_elem_of_fmap in Hy as (z & -> & Hz). auto.
Qed.

Section PatronMore.
Import FloatOrder FloatOrderFacts.

Context (INGREDIENT_THRESHOLDS : gmap string float)
        (inventory_manager : InventoryManager).

Local Abbreviation resolve :=
  (check_stock_logic INGREDIENT_THRESHOLDS inventory_manager).
Local Abbreviation patron_search :=
  (patron_search INGREDIENT_THRESHOLDS inventory_manager).

(** A fresh candidate comes back as it is, or substituted from one of its
    rules. *)
Lemma resolve_candidate h :
  resolve (candidate_of_hit h) = candidate_of_hit h \/
  exists sub, sub ∈ meta_suggested_substitutions h /\
    resolve (candidate_of_hit h)
    = set_outcome (candidate_of_hit h)
        (Some (make_suggestion (candidate_of_hit h) sub)) "Substituted".
Proof.
  destruct (scan_triggers INGREDIENT_THRESHOLDS inventory_manager
              (suggested_substitutions (candidate_of_hit h)) "In Stock" None)
    as [st a] eqn:Hscan.
  rewrite (check_stock_logic_cases _ _ _ st a Hscan).
  destruct (String.eqb_spec st "In Stock") as [->|Hne]; [now left|]. right.
  destruct (second_loop_finds _ _ _ _ _ Hscan Hne) as [r Hfind].
  rewrite Hfind. exists r. split; [|reflexivity].
  unfold find_substitute in Hfind. apply find_some in Hfind as [Hr _].
  now apply list_elem_of_In.
Qed.

Lemma patron_search_all collection query :
  Permutation (patron_search (Some collection) query)
    (map (fun h => to_result (resolve (candidate_of_hit h))) (collection query 5%nat)).
Proof.
  rewrite patron_search_perm. simpl. rewrite filter_keeps_checked.
  now rewrite <- !list_fmap_compose.
Qed.

(** X13. The patron response answers every hit of the search, once: it is a
    rearrangement of the resolved hits, as long as the hit list, and each
    result carries the id, name, description, price and distance of its hit
    and is either in stock without substitution or substituted from one of
    the rules of the hit. Without a menu collection the response is empty. *)
Theorem patron_search_answers_every_hit
    (collection : string -> nat -> list menu_hit) (query : string) :
  patron_search None query = [] /\
  Permutation (patron_search (Some collection) query)
    (map (fun h => to_result (resolve (candidate_of_hit h))) (collection query 5%nat)) /\
  length (patron_search (Some collection) query) = length (collection query 5%nat) /\
  forall r, r ∈ patron_search (Some collection) query ->
    exists h, h ∈ collection query 5%nat /\
      res_id r = hit_id h /\ res_name r = meta_name h /\
      res_description r = hit_document h /\
      res_price r = meta_price h /\ res_score r = hit_distance h /\
      (res_availability_status r = "In Stock" /\ res_substitution r = None \/
       res_availability_status r = "Substituted" /\
       exists sub, sub ∈ meta_suggested_substitutions h /\
         res_substitution r = Some (make_suggestion (candidate_of_hit h) sub)).
Proof.
  split; [reflexivity|]. split; [apply patron_search_all|]. split.
  - rewrite (Permutation_length (patron_search_all collection query)).
    apply length_map.
  - intros r Hr. rewrite patron_search_all in Hr.
    apply list_elem_of_fmap in Hr as (h & -> & Hh).
    exists h. split; [assumption|].
    destruct (resolve_candidate h) as [-> | (sub & Hsub & ->)]; simpl.
    + repeat split. now left.
    + repeat split. right. split; [reflexivity|]. now exists sub.
Qed.

(** X14. When the distances are numbers, the patron response is in order:
    every result stands before the results of a higher tier and, within a
    tier, before those of a greater distance; so the items in stock come
    first and the substituted ones after them. *)
Theorem patron_search_in_order
    (menu_collection : option (string -> nat -> list menu_hit)) (query : string) :
  (forall collection h, menu_collection = Some collection ->
     h ∈ collection query 5%nat -> is_nan (hit_distance h) = false) ->
  StronglySorted result_tier_then_score (patron_search menu_collection query).
Proof.
  intros Hnan. unfold patron_search.
  apply (StronglySorted_map tier_then_score); [intros a b H; exact H|].
  set (kept := List.filter not_out_of_stock _).
  assert (Hkept : Forall (fun item => is_nan (item_score item) = false) kept).
  { apply Forall_forall. intros item Hitem. subst kept.
    apply list_elem_of_In, filter_In in Hitem as [Hitem _].
    apply list_elem_of_In, list_elem_of_fmap in Hitem as (c & -> & Hc).
    unfold find_menu_candidates in Hc.
    destruct menu_collection as [collection|]; [|now apply elem_of_nil in Hc].
    apply list_elem_of_fmap in Hc as (h & -> & Hh).
    destruct (resolve_candidate h) as [-> | (sub & _ & ->)]; simpl;
      now apply (Hnan collection). }
  apply (StronglySorted_on (fun item => is_nan (item_score item) = false)
           (fun a b => key_lt (sort_key b) (sort_key a) = false)).
  - intros a b Ha Hb. now apply key_le_tier_then_score.
  - unfold rank_results. now rewrite <- (sorted_perm key_lt sort_key kept).
  - apply (sorted_strongly key_lt sort_key
             (fun item => is_nan (item_score item) = false)); [| |assumption].
    + intros a b Ha Hb. now apply key_lt_asym.
    + intros a b c Ha Hb Hc. now apply key_le_trans.
Qed.

End PatronMore.

(** ** Owner flow: search, full listing and ingest *)

(** [r] with another score. *)
Definition with_score (x : float) (r : InventorySearchResult) : InventorySearchResult :=
  {| ingredient_name := ingredient_name r;
     category := category r;
     current_quantity := current_quantity r;
     unit := unit r;
     score := x;
     status := status r |}.

(** The hit a document of the collection makes in the full listing. *)
Definition listed_hit (d : inventory_doc) : inventory_hit :=
  {| ihit_id := doc_id d; ihit_meta := doc_meta d; ihit_distance := 1%float |}.

Section OwnerMore.

Context (float_of_str : string -> option float).
Context (INGREDIENT_THRESHOLDS : gmap string float).

Local Abbreviation ingest_row := (ingest_row float_of_str).
Local Abbreviation ingest_rows := (ingest_rows float_of_str).
Local Abbreviation ingest_inventory := (ingest_inventory float_of_str).
Local Abbreviation inventory_entry := (inventory_entry INGREDIENT_THRESHOLDS).
Local Abbreviation inventory_listing := (inventory_listing INGREDIENT_THRESHOLDS).
Local Abbreviation get_inventory := (get_inventory INGREDIENT_THRESHOLDS).
Local Abbreviation get_threshold := (get_threshold INGREDIENT_THRESHOLDS).
Local Abbreviation candidate_entry := (candidate_entry INGREDIENT_THRESHOLDS).
Local Abbreviation inventory_candidates := (inventory_candidates INGREDIENT_THRESHOLDS).
Local Abbreviation find_inventory_candidates :=
  (find_inventory_candidates INGREDIENT_THRESHOLDS).
Local Abbreviation owner_substitute := (owner_substitute INGREDIENT_THRESHOLDS).

Local Abbreviation hit_name h := (name_of (ihit_meta h)).

(** What a built entry says of its hit. *)
Lemma candidate_entry_ok h r :
  candidate_entry h = Ok r ->
  ihit_meta h !! "ingredient_name" = Some (MStr (ingredient_name r)) /\
  score r = ihit_distance h /\
  MNum (current_quantity r)
  = default (MNum 0%float) (ihit_meta h !! "current_quantity") /\
  status r = stock_status (current_quantity r)
               (get_threshold (Some (ingredient_name r))).
Proof.
  unfold candidate_entry.
  destruct (ihit_meta h !! "ingredient_name") as [[s|x]|] eqn:Hn; simpl.
  - destruct (default (MNum 0%float) (ihit_meta h !! "current_quantity")) as [t|q];
      simpl; [discriminate|].
    destruct (default (MStr "General") (ihit_meta h !! "category")) as [c|y];
      simpl; [|discriminate].
    destruct (default (MStr "units") (ihit_meta h !! "unit")) as [u|z];
      simpl; [|discriminate].
    intros [= <-]. simpl. repeat split.
  - destruct (default (MNum 0%float) (ihit_meta h !! "current_quantity")); discriminate.
  - destruct (default (MNum 0%float) (ihit_meta h !! "current_quantity")); discriminate.
Qed.

(** The entry of the search is the entry of the listing under the distance
    of the hit. *)
Lemma candidate_entry_listing h :
  candidate_entry h
  = match inventory_entry (ihit_meta h) with
    | Ok r => Ok (with_score (ihit_distance h) r)
    | Raise e => Raise e
    end.
Proof.
  unfold candidate_entry, inventory_entry.
  destruct (default (MNum 0%float) (ihit_meta h !! "current_quantity")) as [t|q];
    simpl; [reflexivity|].
  destruct (str_field (ihit_meta h !! "ingredient_name")); simpl; [|reflexivity].
  destruct (default (MStr "General") (ihit_meta h !! "category")) as [c|y];
    simpl; [|reflexivity].
  destruct (default (MStr "units") (ihit_meta h !! "unit")) as [u|z];
    simpl; reflexivity.
Qed.

Lemma inventory_entry_score meta r :
  inventory_entry meta = Ok r -> score r = 1%float.
Proof.
  unfold inventory_entry.
  destruct (default (MNum 0%float) (meta !! "current_quantity")) as [t|q];
    simpl; [discriminate|].
  destruct (str_field (meta !! "ingredient_name")); simpl; [|discriminate].
  destruct (default (MStr "General") (meta !! "category")) as [c|y];
    simpl; [|discriminate].
  destruct (default (MStr "units") (meta !! "unit")) as [u|z];
    simpl; [|discriminate].
  now intros [= <-].
Qed.

Lemma with_score_back x r : score r = 1%float -> with_score 1%float (with_score x r) = r.
Proof. destruct r. simpl. intros ->. reflexivity. Qed.

Lemma listing_of_candidates hits : forall seen,
  inventory_listing (map ihit_meta hits) seen
  = match inventory_candidates hits seen with
    | Ok rs => Ok (map (with_score 1%float) rs)
    | Raise e => Raise e
    end.
Proof.
  induction hits as [|h hits IH]; intros seen; [reflexivity|].
  simpl. destruct (seen_mem _ seen); [apply IH|].
  rewrite candidate_entry_listing.
  destruct (inventory_entry (ihit_meta h)) as [r|e] eqn:Hr; simpl; [|reflexivity].
  rewrite IH.
  destruct (inventory_candidates hits _) as [rs|e]; simpl; [|reflexivity].
  now rewrite (with_score_back _ _ (inventory_entry_score _ _ Hr)).
Qed.

(** The loop of the search, whenever it ends without exception. *)
Lemma inventory_candidates_ok hits : forall seen rs,
  inventory_candidates hits seen = Ok rs ->
  NoDup (map ingredient_name rs) /\
  (forall r, r ∈ rs ->
     (ingredient_name r ∉ seen) /\
     exists pre h post,
       hits = pre ++ h :: post /\ candidate_entry h = Ok r /\
       Forall (fun h' => hit_name h' <> Some (ingredient_name r)) pre) /\
  (forall h, h ∈ hits ->
     exists s, hit_name h = Some s /\ (s ∈ seen \/ s ∈ map ingredient_name rs)) /\
  sublist (map ingredient_name rs) (omap (fun h => hit_name h) hits).
Proof.
  induction hits as [|h hits IH]; intros seen rs Hrun; simpl in Hrun.
  - injection Hrun as <-. simpl. split; [constructor|]. split; [|split].
    + intros r Hr. now apply elem_of_nil in Hr.
    + intros h Hh. now apply elem_of_nil in Hh.
    + constructor.
  - destruct (seen_mem (ihit_meta h !! "ingredient_name") seen) eqn:Hseen.
    + unfold seen_mem in Hseen.
      destruct (ihit_meta h !! "ingredient_name") as [[s|x]|] eqn:Hn; try discriminate.
      apply bool_decide_eq_true in Hseen.
      assert (Hname : hit_name h = Some s) by (unfold name_of; now rewrite Hn).
      destruct (IH seen rs Hrun) as (Hnd & Hfrom & Hcover & Hsub).
      split; [assumption|]. split; [|split].
      * intros r Hr. destruct (Hfrom r Hr) as (Hfresh & pre & h' & post & -> & He & Hpre).
        split; [assumption|]. exists (h :: pre), h', post.
        split; [reflexivity|]. split; [assumption|].
        constructor; [|assumption]. rewrite Hname. intros [= ->]. contradiction.
      * intros h' Hh'. apply elem_of_cons in Hh' as [->|Hh'].
        { exists s. split; [assumption | now left]. }
        { now apply Hcover. }
      * change (omap (fun h0 => hit_name h0) (h :: hits))
          with (match hit_name h with
                | Some y => y :: omap (fun h0 => hit_name h0) hits
                | None => omap (fun h0 => hit_name h0) hits
                end).
        rewrite Hname. now apply sublist_cons.
    + destruct (candidate_entry h) as [r0|e] eqn:He; simpl in Hrun; [|discriminate].
      destruct (inventory_candidates hits _) as [rs'|e] eqn:Hrest;
        simpl in Hrun; [|discriminate].
      injection Hrun as <-.
      destruct (candidate_entry_ok h r0 He) as (Hn & _).
      assert (Hname : hit_name h = Some (ingredient_name r0))
        by (unfold name_of; now rewrite Hn).
      rewrite Hn in Hseen, Hrest. simpl in Hseen, Hrest.
      apply bool_decide_eq_false in Hseen.
      destruct (IH _ rs' Hrest) as (Hnd & Hfrom & Hcover & Hsub).
      split; [|split; [|split]].
      * simpl. constructor; [|assumption].
        intros Hin. apply list_elem_of_fmap in Hin as (r & Hr & Hin).
        destruct (Hfrom r Hin) as (Hfresh & _). apply Hfresh.
        apply elem_of_union. left. apply elem_of_singleton. now symmetry.
      * intros r Hr. apply elem_of_cons in Hr as [->|Hr].
        { split; [assumption|]. exists [], h, hits. repeat split; [assumption | constructor]. }
        { destruct (Hfrom r Hr) as (Hfresh & pre & h' & post & -> & He' & Hpre).
          split; [intros Hin; apply Hfresh, elem_of_union; now right|].
          exists (h :: pre), h', post. split; [reflexivity|]. split; [assumption|].
          constructor; [|assumption]. rewrite Hname. intros [= Heq].
          apply Hfresh, elem_of_union. left. now apply elem_of_singleton. }
      * intros h' Hh'. apply elem_of_cons in Hh' as [->|Hh'].
        { exists (ingredient_name r0). split; [assumption|]. right. simpl.
          apply list_elem_of_here. }
        { destruct (Hcover h' Hh') as (s & Hs & [Hin | Hin]).
          - exists s. split; [assumption|].
            apply elem_of_union in Hin as [Hin%elem_of_singleton | Hin].
            + right. subst s. simpl. apply list_elem_of_here.
            + now left.
          - exists s. split; [assumption|]. right. simpl.
            now apply list_elem_of_further. }
      * change (omap (fun h0 => hit_name h0) (h :: hits))
          with (match hit_name h with
                | Some y => y :: omap (fun h0 => hit_name h0) hits
                | None => omap (fun h0 => hit_name h0) hits
                end).
        rewrite Hname. simpl. now apply sublist_skip.
Qed.

(** X15. Whenever the owner search answers, it names each ingredient of
    the hits once, in the order of the hits, and every result is built from
    the first hit of its name: it has the distance of that hit as score, the
    quantity stored with that hit (0.0 when none is stored), and the status
    of that quantity against the threshold of the name; later hits of the
    same name are dropped. The patron results of the answer are always
    empty, and without a collection the answer is empty. *)
Theorem owner_search_keeps_first_hits
    (collection : string -> nat -> list inventory_hit) (query : string)
    (response : OwnerSearchResponse) :
  owner_substitute (Some collection) query = Ok response ->
  let hits := collection query 5%nat in
  owner_substitute None query = Ok {| results := []; patron_results := [] |} /\
  patron_results response = [] /\
  NoDup (map ingredient_name (results response)) /\
  sublist (map ingredient_name (results response)) (omap (fun h => hit_name h) hits) /\
  (forall h, h ∈ hits ->
     exists r, r ∈ results response /\ hit_name h = Some (ingredient_name r)) /\
  (forall r, r ∈ results response ->
     exists pre h post,
       hits = pre ++ h :: post /\
       hit_name h = Some (ingredient_name r) /\
       Forall (fun h' => hit_name h' <> Some (ingredient_name r)) pre /\
       score r = ihit_distance h /\
       MNum (current_quantity r)
       = default (MNum 0%float) (ihit_meta h !! "current_quantity") /\
       status r = stock_status (current_quantity r)
                    (get_threshold (Some (ingredient_name r)))).
Proof.
  intros Hrun hits. split; [reflexivity|].
  unfold owner_substitute in Hrun.
  unfold find_inventory_candidates in Hrun. fold hits in Hrun.
  destruct (inventory_candidates hits ∅) as [rs|e] eqn:Hloop; simpl in Hrun;
    [|discriminate].
  injection Hrun as <-. simpl.
  destruct (inventory_candidates_ok hits ∅ rs Hloop) as (Hnd & Hfrom & Hcover & Hsub).
  split; [reflexivity|]. split; [assumption|]. split; [assumption|]. split.
  - intros h Hh. destruct (Hcover h Hh) as (s & Hs & [Hin | Hin]).
    + now apply not_elem_of_empty in Hin.
    + apply list_elem_of_fmap in Hin as (r & -> & Hr). now exists r.
  - intros r Hr. destruct (Hfrom r Hr) as (_ & pre & h & post & Hhits & He & Hpre).
    destruct (candidate_entry_ok h r He) as (Hn & Hscore & Hq & Hstatus).
    exists pre, h, post. repeat split; try assumption.
    unfold name_of. now rewrite Hn.
Qed.

(** X16. The full listing and the owner search run the same loop: on the
    same metadata, in the same order, the listing fails where the search
    fails and otherwise returns the results of the search with every score
    replaced by 1.0. *)
Theorem get_inventory_agrees_with_owner_search
    (collection : string -> nat -> list inventory_hit) (query : string)
    (n_results : nat) (docs : list inventory_doc) :
  map ihit_meta (collection query n_results) = map doc_meta docs ->
  get_inventory (Some docs)
  = match find_inventory_candidates (Some collection) query n_results with
    | Ok rs => Ok (map (with_score 1%float) rs)
    | Raise e => Raise e
    end.
Proof.
  intros Hmeta. unfold get_inventory, find_inventory_candidates.
  rewrite <- Hmeta. apply listing_of_candidates.
Qed.

Lemma map_listed_hit docs : map ihit_meta (map listed_hit docs) = map doc_meta docs.
Proof. induction docs as [|d docs IH]; simpl; [reflexivity | now rewrite IH]. Qed.

(** X17. Whenever the full listing answers, it names each ingredient of the
    collection once, in the order of the documents, every entry with score
    1.0; the quantity and the status of an entry are those of the first
    document of its name, the quantities of the later lots of the same
    ingredient playing no part. *)
Theorem get_inventory_lists_first_documents (docs : list inventory_doc)
    (output : list InventorySearchResult) :
  get_inventory (Some docs) = Ok output ->
  NoDup (map ingredient_name output) /\
  sublist (map ingredient_name output) (omap (fun d => name_of (doc_meta d)) docs) /\
  (forall d, d ∈ docs ->
     exists r, r ∈ output /\ name_of (doc_meta d) = Some (ingredient_name r)) /\
  (forall r, r ∈ output ->
     exists pre d post,
       docs = pre ++ d :: post /\
       name_of (doc_meta d) = Some (ingredient_name r) /\
       Forall (fun d' => name_of (doc_meta d') <> Some (ingredient_name r)) pre /\
       score r = 1%float /\
       MNum (current_quantity r)
       = default (MNum 0%float) (doc_meta d !! "current_quantity") /\
       status r = stock_status (current_quantity r)
                    (get_threshold (Some (ingredient_name r)))).
Proof.
  unfold get_inventory. rewrite <- (map_listed_hit docs), listing_of_candidates.
  destruct (inventory_candidates (map listed_hit docs) ∅) as [rs|e] eqn:Hloop;
    [|discriminate].
  intros [= <-].
  destruct (inventory_candidates_ok _ _ _ Hloop) as (Hnd & Hfrom & Hcover & Hsub).
  assert (Hdoc : forall r, r ∈ rs ->
    exists pre d post,
      docs = pre ++ d :: post /\ candidate_entry (listed_hit d) = Ok r /\
      Forall (fun d' => name_of (doc_meta d') <> Some (ingredient_name r)) pre).
  { intros r Hr. destruct (Hfrom r Hr) as (_ & pre & h & post & Hhits & He & Hpre).
    apply map_eq_app in Hhits as (pre' & tl & -> & <- & Htl).
    apply map_eq_cons in Htl as (d & post' & -> & <- & <-).
    exists pre', d, post'. split; [reflexivity|]. split; [assumption|].
    rewrite Forall_forall in Hpre. apply Forall_forall. intros d' Hd'.
    apply (Hpre (listed_hit d')). apply list_elem_of_fmap. now exists d'. }
  assert (Hsame : map (with_score 1%float) rs = rs).
  { transitivity (map id rs); [|apply map_id].
    apply map_ext_in. intros r Hr%list_elem_of_In. unfold id.
    destruct (Hdoc r Hr) as (_ & d & _ & _ & He & _).
    destruct (candidate_entry_ok _ _ He) as (_ & Hscore & _).
    destruct r. simpl in *. now rewrite Hscore. }
  rewrite Hsame. split; [assumption|]. split; [|split].
  - clear -Hsub. revert Hsub.
    replace (omap (fun h => hit_name h) (map listed_hit docs))
      with (omap (fun d => name_of (doc_meta d)) docs); [trivial|].
    induction docs as [|d docs IH]; [reflexivity|].
    change (omap (fun d0 => name_of (doc_meta d0)) (d :: docs))
      with (match name_of (doc_meta d) with
            | Some y => y :: omap (fun d0 => name_of (doc_meta d0)) docs
            | None => omap (fun d0 => name_of (doc_meta d0)) docs
            end).
    rewrite IH. reflexivity.
  - intros d Hd.
    destruct (Hcover (listed_hit d)) as (s & Hs & [Hin | Hin]).
    + apply list_elem_of_fmap. now exists d.
    + now apply not_elem_of_empty in Hin.
    + apply list_elem_of_fmap in Hin as (r & -> & Hr). now exists r.
  - intros r Hr. destruct (Hdoc r Hr) as (pre & d & post & Hdocs & He & Hpre).
    destruct (candidate_entry_ok _ _ He) as (Hn & Hscore & Hq & Hstatus).
    exists pre, d, post. repeat split; try assumption.
    unfold name_of. simpl in Hn. now rewrite Hn.
Qed.

Lemma ingest_rows_member rows docs d :
  ingest_rows rows = Ok docs -> d ∈ docs ->
  exists row, row ∈ rows /\ ingest_row row = Ok d.
Proof.
  revert docs. induction rows as [|row rows IH]; intros docs Hrun Hd; simpl in Hrun.
  - injection Hrun as <-. now apply elem_of_nil in Hd.
  - destruct (ingest_row row) as [d0|e] eqn:Hrow; simpl in Hrun; [|discriminate].
    destruct (ingest_rows rows) as [ds|e]; simpl in Hrun; [|discriminate].
    injection Hrun as <-. apply elem_of_cons in Hd as [->|Hd].
    + exists row. split; [apply list_elem_of_here | assumption].
    + destruct (IH ds eq_refl Hd) as (row' & Hin & Hrow').
      exists row'. split; [now apply list_elem_of_further | assumption].
Qed.

Lemma ingest_row_no_quantity_key row d :
  ingest_row row = Ok d -> doc_meta d !! "current_quantity" = None.
Proof.
  unfold ingest_row, column.
  destruct (row !! "IngredientName") as [name|]; [simpl|discriminate].
  destruct (row !! "Category") as [cat|]; [simpl|discriminate].
  destruct (row !! "LotID") as [lot|]; [simpl|discriminate].
  destruct (row !! "CurrentQuantity") as [qc|]; [simpl|discriminate].
  destruct (float_of_str qc) as [q|]; [simpl|discriminate].
  destruct (row !! "DefaultUnit") as [u|]; [simpl|discriminate].
  destruct (row !! "ExpirationDate") as [e|]; [simpl|discriminate].
  intros [= <-]. simpl.
  now rewrite !lookup_insert_ne, lookup_empty by discriminate.
Qed.

(** X18. On the collection this repository writes, the owner search fails
    like the full listing does: whenever the first hit of the search is a
    document [ingest_inventory] stored, [owner_substitute] raises a
    validation error instead of answering. *)
Theorem owner_search_after_ingest
    (rows : option (list (gmap string string))) (docs : list inventory_doc)
    (collection : string -> nat -> list inventory_hit) (query : string)
    (h : inventory_hit) (rest : list inventory_hit) (d : inventory_doc) :
  ingest_inventory rows = Ok docs ->
  collection query 5%nat = h :: rest ->
  d ∈ docs -> ihit_meta h = doc_meta d ->
  owner_substitute (Some collection) query = Raise ValidationError.
Proof.
  intros Hingest Hhits Hd Hmeta.
  destruct rows as [rows|]; [|injection Hingest as <-; now apply elem_of_nil in Hd].
  destruct (ingest_rows_member rows docs d Hingest Hd) as (row & _ & Hrow).
  destruct (ingest_row_keys float_of_str row d Hrow) as (Hname & _).
  pose proof (ingest_row_no_quantity_key row d Hrow) as Hqty.
  unfold owner_substitute, find_inventory_candidates.
  rewrite Hhits. simpl. unfold candidate_entry.
  rewrite Hmeta, Hname, Hqty. reflexivity.
Qed.

Lemma ingest_rows_Forall2 rows : forall docs,
  ingest_rows rows = Ok docs <-> Forall2 (fun row d => ingest_row row = Ok d) rows docs.
Proof.
  induction rows as [|row rows IH]; intros docs; simpl.
  - split; [intros [= <-]; constructor | intros H; now inversion H].
  - split.
    + destruct (ingest_row row) as [d|e] eqn:Hrow; simpl; [|discriminate].
      destruct (ingest_rows rows) as [ds|e] eqn:Hrest; simpl; [|discriminate].
      intros [= <-]. constructor; [assumption | now apply IH].
    + intros H. inversion H as [|? d ? ds Hrow Hrest]; subst.
      rewrite Hrow. simpl. apply IH in Hrest. rewrite Hrest. reflexivity.
Qed.

End OwnerMore.

Section InventoryIngestFacts.

Context (float_of_str : string -> option float).
Context {collection : Type} (created : collection).

Local Abbreviation ingest_row := (ingest_row float_of_str).
Local Abbreviation ingest_rows := (ingest_rows float_of_str).
Local Abbreviation ingest_inventory := (ingest_inventory float_of_str).
Local Abbreviation ingest_inventory_into := (ingest_inventory_into created float_of_str).

Lemma full_line_cell (headers : list string) (row : gmap string string) (k : string) :
  dom row = (list_to_set headers : gset string) ->
  (k ∈ headers <-> is_Some (row !! k)).
Proof.
  intros Hdom. rewrite <- elem_of_dom, Hdom, elem_of_list_to_set. reflexivity.
Qed.

(** On a full line of a file that has the six columns, only [float] can
    fail. *)
Lemma ingest_row_full (headers : list string) (row : gmap string string) :
  dom row = (list_to_set headers : gset string) ->
  lot_columns ⊆ headers ->
  exists c, row !! "CurrentQuantity" = Some c /\
    match float_of_str c with
    | Some _ => exists d, ingest_row row = Ok d
    | None => ingest_row row = Raise ValueError
    end.
Proof.
  intros Hdom Hcols.
  assert (Hcell : forall k, k ∈ lot_columns -> is_Some (row !! k)).
  { intros k Hk. apply (full_line_cell headers row k Hdom), Hcols, Hk. }
  destruct (Hcell "IngredientName") as [name Hname]; [repeat constructor|].
  destruct (Hcell "Category") as [cat Hcat]; [repeat constructor|].
  destruct (Hcell "LotID") as [lot Hlot]; [repeat constructor|].
  destruct (Hcell "CurrentQuantity") as [c Hc]; [repeat constructor|].
  destruct (Hcell "DefaultUnit") as [u Hu]; [repeat constructor|].
  destruct (Hcell "ExpirationDate") as [e He]; [repeat constructor|].
  exists c. split; [assumption|].
  unfold ingest_row, column. rewrite Hname, Hcat, Hlot, Hc, Hu, He. simpl.
  destruct (float_of_str c) as [q|]; simpl; [eexists|]; reflexivity.
Qed.

(** X19. For an inventory file whose lines are as long as its header, the
    run of the inventory ingest against the store. When the reading loop
    ends without exception, the run hands to [collection.add] (unless there
    is no row) one document per lot row, in row order, and answers what the
    store answers: the document has the lot id of its row as id and carries
    the name and the parsed quantity of the row under the keys
    ["IngredientName"] and ["CurrentQuantity"], and nothing under
    ["ingredient_name"] or ["current_quantity"]. When the header lacks one
    of the six columns read, the run raises at the first row without
    reaching the store. When the header has them, the loop ends without
    exception if every quantity is a number, and the run raises
    [ValueError] without reaching the store if one is not. A missing file
    leaves the collection as it was created. *)
Theorem ingest_inventory_hands_over_rows
    (headers : list string) (rows : list (gmap string string)) :
  full_lines headers rows ->
  (forall collection_add, ingest_inventory_into collection_add None = Ok created) /\
  (forall docs, ingest_inventory (Some rows) = Ok docs ->
     (forall collection_add,
        ingest_inventory_into collection_add (Some rows)
        = match rows with [] => Ok created | _ :: _ => collection_add docs end) /\
     length docs = length rows /\
     Forall2 (fun row d =>
                row !! "LotID" = Some (doc_id d) /\
                MStr <$> row !! "IngredientName" = doc_meta d !! "IngredientName" /\
                (exists c q, row !! "CurrentQuantity" = Some c /\
                             float_of_str c = Some q /\
                             doc_meta d !! "CurrentQuantity" = Some (MNum q)) /\
                doc_meta d !! "ingredient_name" = None /\
                doc_meta d !! "current_quantity" = None)
             rows docs) /\
  (forall k, rows <> [] -> k ∈ lot_columns -> k ∉ headers ->
     exists e, (e = KeyError \/ e = ValueError) /\
       forall collection_add,
         ingest_inventory_into collection_add (Some rows) = Raise e) /\
  (lot_columns ⊆ headers ->
     (Forall (fun row => exists c q, row !! "CurrentQuantity" = Some c /\
                                     float_of_str c = Some q) rows ->
      exists docs, ingest_inventory (Some rows) = Ok docs) /\
     (forall row c, row ∈ rows ->
        row !! "CurrentQuantity" = Some c -> float_of_str c = None ->
        forall collection_add,
          ingest_inventory_into collection_add (Some rows) = Raise ValueError)).
Proof.
  intros Hfull. split; [reflexivity|]. split; [|split].
  - intros docs Hrun. simpl in Hrun.
    pose proof (proj1 (ingest_rows_Forall2 float_of_str rows docs) Hrun) as HF.
    split; [|split; [symmetry; eapply Forall2_length; eassumption|]].
    + intros collection_add. unfold ingest_inventory_into. simpl. rewrite Hrun. simpl.
      inversion HF; reflexivity.
    + eapply Forall2_impl; [exact HF|].
      intros row d Hrow.
      destruct (ingest_row_keys float_of_str row d Hrow) as (Hname & _).
      pose proof (ingest_row_no_quantity_key float_of_str row d Hrow) as Hqty.
      revert Hrow. unfold ingest_row, column.
      destruct (row !! "IngredientName") as [name|]; [simpl|discriminate].
      destruct (row !! "Category") as [cat|]; [simpl|discriminate].
      destruct (row !! "LotID") as [lot|]; [simpl|discriminate].
      destruct (row !! "CurrentQuantity") as [qc|]; [simpl|discriminate].
      destruct (float_of_str qc) as [q|] eqn:Hq; [simpl|discriminate].
      destruct (row !! "DefaultUnit") as [u|]; [simpl|discriminate].
      destruct (row !! "ExpirationDate") as [e|]; [simpl|discriminate].
      intros [= <-]. simpl in *. split; [reflexivity|]. split; [|split].
      * now rewrite lookup_insert_eq.
      * exists qc, q. split; [reflexivity|]. split; [assumption|].
        now rewrite !lookup_insert_ne, lookup_insert_eq by discriminate.
      * split; assumption.
  - intros k Hne Hk Hnot. destruct rows as [|row rest]; [now destruct Hne|].
    apply Forall_cons in Hfull as [Hrow _].
    assert (Hnone : row !! k = None).
    { apply eq_None_not_Some. rewrite <- (full_line_cell headers row k Hrow). exact Hnot. }
    assert (Hraise : exists e, (e = KeyError \/ e = ValueError) /\ ingest_row row = Raise e).
    { unfold ingest_row, column.
      destruct (row !! "IngredientName") eqn:H1; simpl; [|eauto].
      destruct (row !! "Category") eqn:H2; simpl; [|eauto].
      destruct (row !! "LotID") eqn:H3; simpl; [|eauto].
      destruct (row !! "CurrentQuantity") as [qc|] eqn:H4; simpl; [|eauto].
      destruct (float_of_str qc); simpl; [|eauto].
      destruct (row !! "DefaultUnit") eqn:H5; simpl; [|eauto].
      destruct (row !! "ExpirationDate") eqn:H6; simpl; [|eauto].
      exfalso. unfold lot_columns in Hk.
      repeat (apply elem_of_cons in Hk as [->|Hk]; [congruence|]).
      now apply elem_of_nil in Hk. }
    destruct Hraise as (e & He & Hrow'). exists e. split; [exact He|].
    intros collection_add. unfold ingest_inventory_into. simpl.
    rewrite Hrow'. reflexivity.
  - intros Hcols. split.
    + intros Hnum. simpl. induction rows as [|row rest IH]; [now exists []|].
      apply Forall_cons in Hfull as [Hrow Hrest].
      apply Forall_cons in Hnum as [(c & q & Hc & Hq) Hnum].
      destruct (ingest_row_full headers row Hrow Hcols) as (c' & Hc' & Hd).
      rewrite Hc in Hc'. injection Hc' as <-. rewrite Hq in Hd.
      destruct Hd as [d Hd]. destruct (IH Hrest Hnum) as [ds Hds].
      exists (d :: ds). simpl. rewrite Hd. simpl. rewrite Hds. reflexivity.
    + intros row c Hin Hc Hq collection_add.
      assert (Hloop : ingest_rows rows = Raise ValueError).
      { induction rows as [|r rest IH]; [now apply elem_of_nil in Hin|].
        apply Forall_cons in Hfull as [Hr Hrest].
        destruct (ingest_row_full headers r Hr Hcols) as (c' & Hc' & Hd).
        simpl. apply elem_of_cons in Hin as [<-|Hin].
        - rewrite Hc in Hc'. injection Hc' as <-. rewrite Hq in Hd.
          rewrite Hd. reflexivity.
        - destruct (float_of_str c').
          + destruct Hd as [d ->]. simpl. rewrite (IH Hrest Hin). reflexivity.
          + rewrite Hd. reflexivity. }
      unfold ingest_inventory_into. simpl. rewrite Hloop. reflexivity.
Qed.

End InventoryIngestFacts.


(** ** Menu build: columns and substitution rules *)

Lemma truthy_Some s : truthy (Some s) = true <-> s <> "".
Proof.
  simpl. destruct (String.eqb_spec s ""); simpl; split; congruence.
Qed.

(** A cell that [get_col] passes over: absent, or empty. *)
Definition blank (row : gmap string string) (col : string) : Prop :=
  row !! col = None \/ row !! col = Some "".

(** X20. [get_col] returns the cell of the first candidate column, in the
    order given, whose cell is present and not empty; when every candidate
    is absent or empty it returns the default. *)
Theorem get_col_first_filled (row : gmap string string) (candidates : list string)
    (dflt : string) :
  (exists pre col post,
     candidates = pre ++ col :: post /\ Forall (blank row) pre /\
     row !! col = Some (get_col row candidates dflt) /\
     get_col row candidates dflt <> "") \/
  (Forall (blank row) candidates /\ get_col row candidates dflt = dflt).
Proof.
  induction candidates as [|col rest IH]; simpl.
  - right. split; [constructor | reflexivity].
  - destruct (row !! col) as [val|] eqn:Hcol.
    + destruct (String.eqb_spec val "") as [->|Hne]; simpl.
      * destruct IH as [(pre & c & post & -> & Hpre & Hc & Hne) | [Hall Hd]].
        { left. exists (col :: pre), c, post. repeat split; try assumption.
          constructor; [now right | assumption]. }
        { right. split; [constructor; [now right | assumption] | assumption]. }
      * left. exists [], col, rest. repeat split; [constructor | assumption | assumption].
    + destruct IH as [(pre & c & post & -> & Hpre & Hc & Hne) | [Hall Hd]].
      * left. exists (col :: pre), c, post. repeat split; try assumption.
        constructor; [now left | assumption].
      * right. split; [constructor; [now left | assumption] | assumption].
Qed.

Lemma get_col_not_empty row candidates dflt :
  dflt <> "" -> get_col row candidates dflt <> "".
Proof.
  intros Hd. induction candidates as [|col rest IH]; simpl; [assumption|].
  destruct (row !! col) as [val|]; [|assumption].
  destruct (String.eqb_spec val ""); simpl; assumption.
Qed.

(** A rule as [add_substitution] writes it: the four keys are present, the
    trigger and the suggested name are not empty. *)
Definition pipeline_rule (r : SubstitutionRule) : Prop :=
  exists t i n j,
    r = {| trigger_ingredient := Some t; suggest_item_id := Some i;
           suggest_item_name := Some n; rag_justification := Some j |} /\
    t <> "" /\ n <> "".

Section MenuBuildFacts.

Context (str_strip : string -> string).

Local Abbreviation add_substitution := (add_substitution str_strip).
Local Abbreviation add_substitutions := (add_substitutions str_strip).

Lemma rule_names_pipeline subs :
  Forall pipeline_rule subs ->
  exists names, rule_names subs = Ok names /\ map Some names = map suggest_item_name subs.
Proof.
  induction 1 as [|r subs (t & i & n & j & -> & _) _ (names & Hn & Hmap)]; simpl.
  - now exists [].
  - rewrite Hn. simpl. exists (n :: names). split; [reflexivity|]. simpl. now rewrite Hmap.
Qed.

Lemma add_substitution_step row subs :
  Forall pipeline_rule subs ->
  NoDup (map suggest_item_name subs) ->
  let sub_name :=
    str_strip (get_col row ["SubstituteName"; "Substitute_ItemName"; "Substitute Name"] "") in
  exists subs',
    add_substitution row subs = Ok subs' /\
    Forall pipeline_rule subs' /\
    NoDup (map suggest_item_name subs') /\
    (sub_name = "" \/ Some sub_name ∈ map suggest_item_name subs -> subs' = subs) /\
    (sub_name <> "" -> Some sub_name ∉ map suggest_item_name subs ->
     exists r, subs' = subs ++ [r] /\ suggest_item_name r = Some sub_name /\
               trigger_ingredient r = Some (get_col row ["Category"] "General") /\
               rag_justification r
               = Some (get_col row ["RAG_Justification"; "Justification";
                                    "RAG Justification"] "")).
Proof.
  intros Hwf Hnd sub_name. unfold add_substitution. fold sub_name.
  destruct (String.eqb_spec sub_name "") as [He|Hne].
  - rewrite He. simpl. exists subs. repeat split; try assumption; try reflexivity.
    intros H. now contradiction H.
  - assert (Ht : truthy (Some sub_name) = true) by now apply truthy_Some.
    rewrite Ht.
    destruct (rule_names_pipeline subs Hwf) as (names & -> & Hmap). simpl.
    destruct (existsb (String.eqb sub_name) names) eqn:Hex.
    + assert (Hin : Some sub_name ∈ map suggest_item_name subs).
      { apply existsb_exists in Hex as (n & Hn & Heq%String.eqb_eq). subst n.
        rewrite <- Hmap. apply list_elem_of_fmap. exists sub_name.
        split; [reflexivity | now apply list_elem_of_In]. }
      exists subs. repeat split; try assumption; try reflexivity.
      intros _ Hnot. contradiction.
    + assert (Hnot : Some sub_name ∉ map suggest_item_name subs).
      { rewrite <- Hmap. intros Hin.
        apply list_elem_of_fmap in Hin as (n & [= <-] & Hn).
        assert (Hc : existsb (String.eqb sub_name) names = true).
        { apply existsb_exists. exists sub_name.
          split; [now apply list_elem_of_In | apply String.eqb_refl]. }
        congruence. }
      eexists. split; [reflexivity|]. split; [|split; [|split]].
      * apply Forall_app. split; [assumption|]. constructor; [|constructor].
        eexists _, _, _, _. split; [reflexivity|]. split; [|assumption].
        exact (get_col_not_empty row ["Category"] "General" ltac:(discriminate)).
      * rewrite map_app. simpl. apply NoDup_app. split; [assumption|].
        split; [|repeat constructor; intros H; now apply elem_of_nil in H].
        intros x Hx Hx'. apply list_elem_of_singleton in Hx'. subst x. contradiction.
      * intros [H | H]; contradiction.
      * intros _ _. eexists. repeat split.
Qed.

(** X21. [add_substitution] keeps a rule list well formed: on a list whose
    rules have their four keys and pairwise different suggested names it
    never raises, leaves the rules it has as they are, and appends one rule
    exactly when the substitute name of the row, stripped, is not empty and
    not yet the suggested name of a rule; the new rule has the category of
    the row (["General"] without one) as trigger and the justification
    cell, possibly empty, as justification. *)
Theorem add_substitution_keeps_names_distinct (row : gmap string string)
    (subs : list SubstitutionRule) :
  Forall pipeline_rule subs ->
  NoDup (map suggest_item_name subs) ->
  let sub_name :=
    str_strip (get_col row ["SubstituteName"; "Substitute_ItemName"; "Substitute Name"] "") in
  exists subs',
    add_substitution row subs = Ok subs' /\
    Forall pipeline_rule subs' /\
    NoDup (map suggest_item_name subs') /\
    (sub_name = "" \/ Some sub_name ∈ map suggest_item_name subs -> subs' = subs) /\
    (sub_name <> "" -> Some sub_name ∉ map suggest_item_name subs ->
     exists r, subs' = subs ++ [r] /\ suggest_item_name r = Some sub_name /\
               trigger_ingredient r = Some (get_col row ["Category"] "General") /\
               rag_justification r
               = Some (get_col row ["RAG_Justification"; "Justification";
                                    "RAG Justification"] "")).
Proof.
  intros Hwf Hnd sub_name.
  destruct (add_substitution_step row subs Hwf Hnd)
    as (subs' & Hrun & Hwf' & Hnd' & Hkeep & Hadd).
  exists subs'. split; [exact Hrun|]. split; [exact Hwf'|]. split; [exact Hnd'|].
  split; [exact Hkeep | exact Hadd].
Qed.

Lemma add_substitutions_pipeline rows : forall subs,
  Forall pipeline_rule subs ->
  NoDup (map suggest_item_name subs) ->
  exists subs',
    add_substitutions rows subs = Ok subs' /\
    Forall pipeline_rule subs' /\ NoDup (map suggest_item_name subs').
Proof.
  induction rows as [|row rows IH]; intros subs Hwf Hnd; simpl.
  - now exists subs.
  - destruct (add_substitution_step row subs Hwf Hnd) as (s1 & -> & Hwf1 & Hnd1 & _).
    simpl. now apply IH.
Qed.

(** X22. The rules the menu build writes never reach the fallbacks of the
    resolver: the rule list of a menu item, built from the empty list by any
    rows, always exists, and when the resolver substitutes an item with that
    list, the suggested item is the substitute name of one of its rules and
    the reason is the justification cell of that rule as it stands (also
    when it is empty), never the generic text the resolver falls back to. *)
Theorem pipeline_rules_skip_the_fallbacks
    (INGREDIENT_THRESHOLDS : gmap string float) (inventory_manager : InventoryManager)
    (rows : list (gmap string string)) (item : MenuItem) :
  substitution item = None ->
  add_substitutions rows [] = Ok (suggested_substitutions item) ->
  Forall pipeline_rule (suggested_substitutions item) /\
  NoDup (map suggest_item_name (suggested_substitutions item)) /\
  forall sg,
    substitution (check_stock_logic INGREDIENT_THRESHOLDS inventory_manager item)
    = Some sg ->
    exists r, r ∈ suggested_substitutions item /\
              suggest_item_name r = Some (suggested_item sg) /\
              rag_justification r = Some (reason sg) /\
              suggested_item sg <> "".
Proof.
  intros Hnone Hbuilt.
  destruct (add_substitutions_pipeline rows [] (List.Forall_nil _) (NoDup_nil_2))
    as (subs & Hrun & Hwf & Hnd).
  rewrite Hbuilt in Hrun. injection Hrun as <-.
  split; [assumption|]. split; [assumption|].
  intros sg Hsg.
  destruct (scan_triggers INGREDIENT_THRESHOLDS inventory_manager
              (suggested_substitutions item) "In Stock" None) as [st a] eqn:Hscan.
  rewrite (check_stock_logic_cases _ _ item st a Hscan) in Hsg.
  destruct (String.eqb_spec st "In Stock") as [->|Hne]; [congruence|].
  destruct (second_loop_finds _ _ _ _ _ Hscan Hne) as [r Hfind].
  rewrite Hfind in Hsg. simpl in Hsg. injection Hsg as <-.
  assert (Hr : r ∈ suggested_substitutions item).
  { unfold find_substitute in Hfind. apply find_some in Hfind as [Hr _].
    now apply list_elem_of_In. }
  exists r. split; [assumption|].
  rewrite Forall_forall in Hwf. destruct (Hwf r Hr) as (t & i & n & j & -> & _ & Hn).
  simpl. repeat split. assumption.
Qed.

End MenuBuildFacts.

(** ** Menu ingest *)

Lemma process_items_Forall2 items : forall docs,
  process_items items = Ok docs <-> Forall2 (fun item d => process_item item = Ok d) items docs.
Proof.
  induction items as [|item items IH]; intros docs; simpl.
  - split; [intros [= <-]; constructor | intros H; now inversion H].
  - split.
    + destruct (process_item item) as [d|e] eqn:Hitem; simpl; [|discriminate].
      destruct (process_items items) as [ds|e] eqn:Hrest; simpl; [|discriminate].
      intros [= <-]. constructor; [assumption | now apply IH].
    + intros H. inversion H as [|? d ? ds Hitem Hrest]; subst.
      rewrite Hitem. simpl. apply IH in Hrest. rewrite Hrest. reflexivity.
Qed.

Lemma process_item_ok item d :
  process_item item = Ok d <->
  mi_id item = Some (mdoc_id d) /\ mi_name item = Some (mdoc_name d) /\
  mi_category item = Some (mdoc_category d) /\ mi_price item = Some (mdoc_price d) /\
  mdoc_suggested_substitutions d = default [] (mi_suggested_substitutions item) /\
  exists description,
    mi_description item = Some description /\
    mdoc_text d = mdoc_name d +:+ ". " +:+ description +:+ ". Tags: "
                  +:+ join ", " (default [] (mi_tags item)).
Proof.
  unfold process_item, required. split.
  - destruct (mi_name item) as [name|]; [simpl|discriminate].
    destruct (mi_description item) as [description|]; [simpl|discriminate].
    destruct (mi_id item) as [id|]; [simpl|discriminate].
    destruct (mi_category item) as [cat|]; [simpl|discriminate].
    destruct (mi_price item) as [price|]; [simpl|discriminate].
    intros [= <-]. simpl. repeat split. now exists description.
  - intros (-> & -> & -> & -> & Hrules & description & -> & Htext). simpl.
    destruct d. simpl in *. now rewrite Hrules, Htext.
Qed.

Lemma process_item_raises item e :
  process_item item = Raise e -> e = KeyError.
Proof.
  unfold process_item, required.
  destruct (mi_name item); [simpl|now intros [= <-]].
  destruct (mi_description item); [simpl|now intros [= <-]].
  destruct (mi_id item); [simpl|now intros [= <-]].
  destruct (mi_category item); [simpl|now intros [= <-]].
  destruct (mi_price item); [simpl|now intros [= <-]].
  discriminate.
Qed.

(** An item has the five keys [process_item] reads by subscript. *)
Definition has_required_keys (item : menu_item) : Prop :=
  is_Some (mi_id item) /\ is_Some (mi_name item) /\ is_Some (mi_description item) /\
  is_Some (mi_category item) /\ is_Some (mi_price item).

Section MenuIngestFacts.

Context {collection : Type} (created : collection).

Local Abbreviation ingest_menu_into := (ingest_menu_into created).

(** X23. The run of the menu ingest against the store. When the reading
    loop ends without exception, the run hands to [collection.add] (unless
    there is no item) one document per item, category by category in file
    order, and answers what the store answers: the document carries the id,
    name, category and price of its item, its rule list (empty when the item
    has none) and a text made of the name, the description and the tags
    joined by commas. The loop ends without exception when every item has
    its id, name, description, category and price; a file without the key
    [menu], or an item that lacks one of the five, makes the run raise
    [KeyError] without reaching the store. A missing file leaves the
    collection as it was created. *)
Theorem ingest_menu_hands_over_items (data : menu_file) :
  (forall collection_add, ingest_menu_into collection_add None = Ok created) /\
  (data_menu data = None ->
   forall collection_add, ingest_menu_into collection_add (Some data) = Raise KeyError) /\
  (forall categories docs,
     data_menu data = Some categories ->
     ingest_menu (Some data) = Ok docs ->
     (forall collection_add,
        ingest_menu_into collection_add (Some data)
        = match concat (map snd categories) with
          | [] => Ok created
          | _ :: _ => collection_add docs
          end) /\
     length docs = length (concat (map snd categories)) /\
     Forall2 (fun item d =>
                mi_id item = Some (mdoc_id d) /\ mi_name item = Some (mdoc_name d) /\
                mi_category item = Some (mdoc_category d) /\
                mi_price item = Some (mdoc_price d) /\
                mdoc_suggested_substitutions d
                = default [] (mi_suggested_substitutions item) /\
                exists description,
                  mi_description item = Some description /\
                  mdoc_text d = mdoc_name d +:+ ". " +:+ description +:+ ". Tags: "
                                +:+ join ", " (default [] (mi_tags item)))
             (concat (map snd categories)) docs) /\
  (forall categories,
     data_menu data = Some categories ->
     Forall has_required_keys (concat (map snd categories)) ->
     exists docs, ingest_menu (Some data) = Ok docs) /\
  (forall categories item,
     data_menu data = Some categories ->
     item ∈ concat (map snd categories) ->
     ~ has_required_keys item ->
     forall collection_add, ingest_menu_into collection_add (Some data) = Raise KeyError).
Proof.
  split; [reflexivity|]. split; [|split; [|split]].
  - intros H collection_add. unfold ingest_menu_into, ingest_menu. now rewrite H.
  - intros categories docs H Hrun.
    assert (HF : Forall2 (fun item d => process_item item = Ok d)
                   (concat (map snd categories)) docs).
    { revert Hrun. unfold ingest_menu. rewrite H. simpl.
      now rewrite process_items_Forall2. }
    split; [|split; [symmetry; eapply Forall2_length; eassumption|]].
    + intros collection_add. unfold ingest_menu_into. rewrite Hrun. simpl.
      inversion HF; reflexivity.
    + eapply Forall2_impl; [exact HF|]. intros item d. apply process_item_ok.
  - intros categories H Hall. unfold ingest_menu. rewrite H. simpl.
    induction (concat (map snd categories)) as [|item items IH]; [now exists []|].
    apply Forall_cons in Hall as [(Hid & Hname & Hdesc & Hcat & Hprice) Hall].
    destruct (IH Hall) as [ds Hds].
    destruct Hid as [id Hid], Hname as [name Hname], Hdesc as [desc Hdesc],
      Hcat as [cat Hcat], Hprice as [price Hprice].
    eexists. simpl. unfold process_item at 1, required.
    rewrite Hid, Hname, Hdesc, Hcat, Hprice. simpl. rewrite Hds. reflexivity.
  - intros categories item H Hin Hmiss collection_add.
    assert (Hitem : process_item item = Raise KeyError).
    { unfold process_item, required.
      destruct (mi_name item) eqn:H1; [simpl|reflexivity].
      destruct (mi_description item) eqn:H2; [simpl|reflexivity].
      destruct (mi_id item) eqn:H3; [simpl|reflexivity].
      destruct (mi_category item) eqn:H4; [simpl|reflexivity].
      destruct (mi_price item) eqn:H5; [simpl|reflexivity].
      destruct Hmiss. unfold has_required_keys.
      rewrite H1, H2, H3, H4, H5. repeat split; eexists; reflexivity. }
    assert (Hloop : process_items (concat (map snd categories)) = Raise KeyError).
    { induction (concat (map snd categories)) as [|i items IH];
        [now apply elem_of_nil in Hin|].
      simpl. apply elem_of_cons in Hin as [<-|Hin].
      - now rewrite Hitem.
      - destruct (process_item i) as [d|e] eqn:Hpi; simpl.
        + now rewrite (IH Hin).
        + now rewrite (process_item_raises i e Hpi). }
    unfold ingest_menu_into, ingest_menu. rewrite H. simpl. rewrite Hloop. reflexivity.
Qed.

End MenuIngestFacts.

(** ** From [menu.json] to the patron response *)

(** X24. When the search returns documents the menu ingest stored, every
    result of the patron response is an item of [menu.json]: it has the id,
    the name and the price of that item, and its substitution, when it has
    one, is built from a rule of that item. *)
Theorem patron_results_are_menu_items
    (INGREDIENT_THRESHOLDS : gmap string float) (inventory_manager : InventoryManager)
    (data : menu_file) (categories : list (string * list menu_item))
    (docs : list menu_doc)
    (collection : string -> nat -> list menu_hit) (query : string) :
  data_menu data = Some categories ->
  ingest_menu (Some data) = Ok docs ->
  (forall h, h ∈ collection query 5%nat ->
     exists d distance, d ∈ docs /\ h = hit_of_doc d distance) ->
  forall r,
    r ∈ patron_search INGREDIENT_THRESHOLDS inventory_manager (Some collection) query ->
    exists item,
      item ∈ concat (map snd categories) /\
      mi_id item = Some (res_id r) /\
      mi_name item = Some (res_name r) /\
      mi_price item = Some (res_price r) /\
      (res_substitution r = None \/
       exists sub,
         sub ∈ default [] (mi_suggested_substitutions item) /\
         res_substitution r
         = Some {| original_item := res_name r;
                   suggested_item := fstring (suggest_item_name sub);
                   reason := default "Better availability" (rag_justification sub) |}).
Proof.
  intros Hmenu Hingest Hhits r Hr.
  unfold ingest_menu in Hingest. rewrite Hmenu in Hingest. simpl in Hingest.
  apply process_items_Forall2 in Hingest.
  rewrite (patron_search_all INGREDIENT_THRESHOLDS inventory_manager) in Hr.
  apply list_elem_of_fmap in Hr as (h & -> & Hh).
  destruct (Hhits h Hh) as (d & distance & Hd & ->).
  apply list_elem_of_lookup in Hd as [k Hk].
  destruct (Forall2_lookup_r _ _ _ _ _ Hingest Hk) as (item & Hitem & Hok).
  apply process_item_ok in Hok as (Hid & Hname & _ & Hprice & Hrules & _).
  exists item. split; [now apply list_elem_of_lookup; exists k|].
  destruct (resolve_candidate INGREDIENT_THRESHOLDS inventory_manager
              (hit_of_doc d distance)) as [-> | (sub & Hsub & ->)]; simpl.
  - repeat split; try assumption. now left.
  - repeat split; try assumption. right. exists sub.
    split; [|reflexivity]. simpl in Hsub. now rewrite <- Hrules.
Qed.

(** * Further scenarios *)

(** The onion lot before the short line is kept, the pork lot after it is
    not read. *)
Lemma reload_inventory_stops_at_short_row_witness :
  reload_inventory Sample.str_lower Sample.str_strip Sample.float_of_str
    Sample.strptime_mdY {| inventory_levels := ∅ |} (Some ragged_csv) now_2026_11_04
  = reload_inventory Sample.str_lower Sample.str_strip Sample.float_of_str
      Sample.strptime_mdY {| inventory_levels := ∅ |}
      (Some {| fieldnames := Some ["Name"; "Quantity"; "Expiry"];
               csv_rows := [csv_line ["Name"; "Quantity"; "Expiry"] ["Onion"; "5"; ""]] |})
      now_2026_11_04 /\
  get_quantity
    (reload_inventory Sample.str_lower Sample.str_strip Sample.float_of_str
       Sample.strptime_mdY {| inventory_levels := ∅ |} (Some ragged_csv) now_2026_11_04)
    (Some "Onion") = 5%float /\
  csv_line ["Name"; "Quantity"; "Expiry"] ["Garlic"] !! "Name" = Some "Garlic" /\
  csv_line ["Name"; "Quantity"; "Expiry"] ["Garlic"] !! "Expiry" = None.
Proof.
  split; [|vm_compute; repeat split].
  apply (reload_inventory_stops_at_short_row Sample.str_lower Sample.str_strip
           Sample.float_of_str Sample.strptime_mdY {| inventory_levels := ∅ |}
           ["Name"; "Quantity"; "Expiry"]
           [csv_line ["Name"; "Quantity"; "Expiry"] ["Onion"; "5"; ""]]
           (csv_line ["Name"; "Quantity"; "Expiry"] ["Garlic"])
           [csv_line ["Name"; "Quantity"; "Expiry"] ["Pork"; "3"; ""]]
           now_2026_11_04).
  - vm_compute. reflexivity.
  - vm_compute. reflexivity.
  - right. split; vm_compute; reflexivity.
Defined.

Lemma reload_inventory_tracks_counted_witness :
  is_Some (inventory_levels kitchen !! "Onion") <->
  exists row, row ∈ csv_rows lots_csv /\
    is_Some (lot_quantity Sample.str_strip Sample.float_of_str Sample.strptime_mdY
               "Ingredient Name" "Current_Quantity" (Some "Expiration Date")
               (Datetime.on now_2026_11_04) "Onion" row).
Proof.
  apply (reload_inventory_tracks_counted Sample.str_lower Sample.str_strip
           Sample.float_of_str Sample.strptime_mdY
           {| inventory_levels := ∅ |} lots_csv
           ["Lot"; "Ingredient Name"; "Current_Quantity"; "Expiration Date"]
           now_2026_11_04 "Onion").
  - reflexivity.
  - vm_compute. reflexivity.
  - vm_compute. reflexivity.
  - complete_rows.
Defined.

Lemma out_is_low_above_zero_witness : is_low ∅ kitchen (Some "Beef") = true.
Proof.
  apply (out_is_low_above_zero ∅ kitchen (Some "Beef")); vm_compute; reflexivity.
Defined.

Definition thresholds_csv : csv_file :=
  {| fieldnames := Some ["Ingredient"; "Low Threshold"];
     csv_rows :=
       [ <["Ingredient" := "Onion"]> (<["Low Threshold" := "10"]> ∅);
         <["Ingredient" := " Onion "]> (<["Low Threshold" := "20"]> ∅);
         <["Ingredient" := "Onion"]> (<["Low Threshold" := "many"]> ∅);
         <["Ingredient" := "Beef"]> (<["Low Threshold" := "5"]> ∅) ] |}.

Lemma load_thresholds_last_row_wins_witness :
  load_thresholds_from_csv Sample.str_lower Sample.str_strip Sample.float_of_str
    (Some thresholds_csv) !! "Onion"
  = last (omap (threshold_of Sample.str_strip Sample.float_of_str
                  "Ingredient" "Low Threshold" "Onion") (csv_rows thresholds_csv)) /\
  get_threshold
    (load_thresholds_from_csv Sample.str_lower Sample.str_strip Sample.float_of_str
       (Some thresholds_csv)) (Some "Onion")
  = default 15%float
      (last (omap (threshold_of Sample.str_strip Sample.float_of_str
                     "Ingredient" "Low Threshold" "Onion") (csv_rows thresholds_csv))).
Proof.
  apply (load_thresholds_last_row_wins Sample.str_lower Sample.str_strip
           Sample.float_of_str thresholds_csv ["Ingredient"; "Low Threshold"] "Onion").
  - reflexivity.
  - vm_compute. reflexivity.
  - vm_compute. reflexivity.
  - repeat (constructor; [split; eexists; vm_compute; reflexivity|]). constructor.
Defined.

Example load_thresholds_example :
  get_threshold
    (load_thresholds_from_csv Sample.str_lower Sample.str_strip Sample.float_of_str
       (Some thresholds_csv)) (Some "Onion") = 20%float /\
  get_threshold
    (load_thresholds_from_csv Sample.str_lower Sample.str_strip Sample.float_of_str
       (Some thresholds_csv)) (Some "Tomato") = 15%float.
Proof. vm_compute. split; reflexivity. Qed.

Definition tomato_soup : menu_hit :=
  hit "m8" "Tomato Soup" 0.5%float [rule "Tomato" "Pumpkin Soup" None].

(** The stew, whose onion is low, comes back substituted; the tomato soup,
    whose one trigger is neither low nor out, comes back as it went in. *)
Lemma in_stock_iff_no_trigger_witness :
  availability_status (check_stock_logic ∅ kitchen (candidate_of_hit stew))
  = "Substituted" /\
  check_stock_logic ∅ kitchen (candidate_of_hit tomato_soup)
  = candidate_of_hit tomato_soup /\
  availability_status (check_stock_logic ∅ kitchen (candidate_of_hit tomato_soup))
  = "In Stock".
Proof.
  destruct (in_stock_iff_no_trigger ∅ kitchen (candidate_of_hit stew) eq_refl)
    as (_ & _ & Hloud).
  destruct (in_stock_iff_no_trigger ∅ kitchen (candidate_of_hit tomato_soup) eq_refl)
    as (Hiff & Hquiet & _).
  assert (Hq : Forall (fun sub => is_out kitchen (trigger_ingredient sub) = false /\
                                  is_low ∅ kitchen (trigger_ingredient sub) = false)
                 (suggested_substitutions (candidate_of_hit tomato_soup))).
  { repeat constructor. }
  split; [|split; [exact (Hquiet Hq) | exact (proj2 Hiff Hq)]].
  apply Hloud. intros Hall. rewrite Forall_forall in Hall.
  destruct (Hall (rule "Onion" "Shallot Stew" None)) as [_ Hlow].
  - apply list_elem_of_further, list_elem_of_here.
  - vm_compute in Hlow. discriminate.
Defined.

Definition two_low : menu_hit :=
  hit "m5" "Pie" 0.5%float
    [rule "Onion" "Leek Pie" None; rule "Tomato" "Pumpkin Pie" None].

Lemma last_low_trigger_decides_witness :
  scan_triggers {["Tomato" := 60%float]} kitchen
    (meta_suggested_substitutions two_low) "In Stock" None
  = ("Low Stock", Some "Tomato").
Proof.
  apply (last_low_trigger_decides {["Tomato" := 60%float]} kitchen
           (candidate_of_hit two_low) [rule "Onion" "Leek Pie" None]
           (rule "Tomato" "Pumpkin Pie" None) []).
  - reflexivity.
  - repeat constructor.
  - vm_compute. reflexivity.
  - constructor.
Defined.

Lemma untracked_trigger_substitutes_witness :
  availability_status
    (check_stock_logic ∅ kitchen
       (candidate_of_hit (hit "m6" "Roast" 0.5%float [rule "Beef" "Nut Roast" None])))
  = "Substituted".
Proof.
  apply (untracked_trigger_substitutes ∅ kitchen
           (candidate_of_hit (hit "m6" "Roast" 0.5%float [rule "Beef" "Nut Roast" None]))
           (rule "Beef" "Nut Roast" None)).
  - apply list_elem_of_here.
  - right. exists "Beef". split; [reflexivity | vm_compute; reflexivity].
Defined.

Lemma rank_results_fixpoint_witness :
  rank_results (rank_results ranked_example) = rank_results ranked_example.
Proof.
  apply (rank_results_fixpoint ranked_example). repeat constructor.
Defined.

Lemma patron_search_in_order_witness :
  StronglySorted result_tier_then_score (patron_search ∅ kitchen (Some menu) "lunch").
Proof.
  apply (patron_search_in_order ∅ kitchen (Some menu) "lunch").
  intros collection h [= <-] Hin.
  repeat (apply elem_of_cons in Hin as [->|Hin]; [reflexivity|]).
  now apply elem_of_nil in Hin.
Defined.

Definition stock_hit (id name : string) (qty : option float) (distance : float)
    : inventory_hit :=
  {| ihit_id := id;
     ihit_meta := <["ingredient_name" := MStr name]>
                  (match qty with
                   | Some q => <["current_quantity" := MNum q]> ∅
                   | None => ∅
                   end);
     ihit_distance := distance |}.

Definition stock : string -> nat -> list inventory_hit :=
  fun _ _ => [ stock_hit "L1" "Onion" (Some 5%float) 0.25%float;
               stock_hit "L2" "Onion" (Some 100%float) 0.5%float;
               stock_hit "L3" "Beef" None 0.75%float ].

Definition stock_response : OwnerSearchResponse :=
  {| results :=
       [ {| ingredient_name := "Onion"; category := "General";
            current_quantity := 5%float; unit := "units";
            score := 0.25%float; status := "Low" |};
         {| ingredient_name := "Beef"; category := "General";
            current_quantity := 0%float; unit := "units";
            score := 0.75%float; status := "Out" |} ];
     patron_results := [] |}.

Lemma owner_search_keeps_first_hits_witness :
  owner_substitute ∅ (Some stock) "onion" = Ok stock_response /\
  NoDup (map ingredient_name (results stock_response)).
Proof.
  assert (H : owner_substitute ∅ (Some stock) "onion" = Ok stock_response)
    by (vm_compute; reflexivity).
  split; [exact H|].
  exact (proj1 (proj2 (proj2 (owner_search_keeps_first_hits ∅ stock "onion"
                                stock_response H)))).
Defined.

Definition stock_docs : list inventory_doc :=
  map (fun h => {| doc_id := ihit_id h; doc_text := ""; doc_meta := ihit_meta h |})
      (stock "" 5%nat).

Lemma get_inventory_agrees_with_owner_search_witness :
  get_inventory ∅ (Some stock_docs)
  = match find_inventory_candidates ∅ (Some stock) "onion" 5 with
    | Ok rs => Ok (map (with_score 1%float) rs)
    | Raise e => Raise e
    end.
Proof.
  apply (get_inventory_agrees_with_owner_search ∅ stock "onion" 5 stock_docs).
  reflexivity.
Defined.

Lemma get_inventory_lists_first_documents_witness :
  NoDup (map ingredient_name (map (with_score 1%float) (results stock_response))).
Proof.
  assert (H : get_inventory ∅ (Some stock_docs)
              = Ok (map (with_score 1%float) (results stock_response)))
    by (vm_compute; reflexivity).
  exact (proj1 (get_inventory_lists_first_documents ∅ stock_docs _ H)).
Defined.

Lemma owner_search_after_ingest_witness :
  owner_substitute ∅
    (Some (fun _ _ => [ {| ihit_id := "L1"; ihit_meta := doc_meta ingested_doc;
                           ihit_distance := 0.25%float |} ]))
    "onion"
  = Raise ValidationError.
Proof.
  apply (owner_search_after_ingest Sample.float_of_str ∅ (Some ingest_csv)
           [ingested_doc]
           (fun _ _ => [ {| ihit_id := "L1"; ihit_meta := doc_meta ingested_doc;
                            ihit_distance := 0.25%float |} ])
           "onion"
           {| ihit_id := "L1"; ihit_meta := doc_meta ingested_doc;
              ihit_distance := 0.25%float |} [] ingested_doc).
  - vm_compute. reflexivity.
  - reflexivity.
  - apply list_elem_of_here.
  - reflexivity.
Defined.

Definition lot_header : list string :=
  ["LotID"; "IngredientName"; "Category"; "CurrentQuantity"; "DefaultUnit";
   "ExpirationDate"].

Definition leek_csv : list (gmap string string) :=
  ingest_csv ++ [ csv_line lot_header ["L2"; "Leek"; "Produce"; "a few"; "kg"; ""] ].

(** Two stand-ins for the store: one that keeps every batch, and one that
    refuses, with the exception [e] of its choice, a batch in which an id
    occurs twice. *)
Definition keep_batch {doc : Type} (documents : list doc) : outcome (list doc) :=
  Ok documents.

Definition refuse_repeated_ids (e : exn) (documents : list inventory_doc)
    : outcome (list inventory_doc) :=
  if bool_decide (NoDup (map doc_id documents)) then Ok documents else Raise e.

(** The onion lot reaches the store as one document; with a leek lot whose
    quantity is no number after it, the run raises and the store is not
    reached. *)
Lemma ingest_inventory_hands_over_rows_witness :
  full_lines lot_header ingest_csv /\
  ingest_inventory_into [] Sample.float_of_str keep_batch (Some ingest_csv)
  = Ok [ingested_doc] /\
  full_lines lot_header leek_csv /\
  (forall e, ingest_inventory_into [] Sample.float_of_str (refuse_repeated_ids e)
               (Some leek_csv) = Raise ValueError).
Proof.
  assert (Hfull : full_lines lot_header ingest_csv).
  { repeat constructor. }
  assert (Hleek : full_lines lot_header leek_csv).
  { repeat constructor. }
  split; [exact Hfull|]. split; [|split; [exact Hleek|]].
  - destruct (ingest_inventory_hands_over_rows Sample.float_of_str
                (@nil inventory_doc) lot_header ingest_csv Hfull)
      as (_ & Hok & _ & _).
    assert (Hloop : ingest_inventory Sample.float_of_str (Some ingest_csv)
                    = Ok [ingested_doc]) by (vm_compute; reflexivity).
    destruct (Hok [ingested_doc] Hloop) as (Hrun & _).
    exact (Hrun keep_batch).
  - intros e.
    destruct (ingest_inventory_hands_over_rows Sample.float_of_str
                (@nil inventory_doc) lot_header leek_csv Hleek)
      as (_ & _ & _ & Hcols).
    assert (Hsub : lot_columns ⊆ lot_header).
    { intros k Hk. unfold lot_columns in Hk. unfold lot_header.
      repeat (apply elem_of_cons in Hk as [->|Hk]; [repeat constructor|]).
      now apply elem_of_nil in Hk. }
    destruct (Hcols Hsub) as (_ & Hbad).
    apply (Hbad (csv_line lot_header ["L2"; "Leek"; "Produce"; "a few"; "kg"; ""])
             "a few").
    + apply list_elem_of_further, list_elem_of_here.
    + vm_compute. reflexivity.
    + vm_compute. reflexivity.
Defined.

(** Two lots under one id: the reading loop ends with both documents, and
    the run raises what the store raises for the repeated id. *)
Example repeated_lot_id_is_refused_by_the_store (e : exn) :
  ingest_inventory Sample.float_of_str (Some (ingest_csv ++ ingest_csv))
  = Ok [ingested_doc; ingested_doc] /\
  ingest_inventory_into [] Sample.float_of_str (refuse_repeated_ids e)
    (Some (ingest_csv ++ ingest_csv)) = Raise e.
Proof. split; vm_compute; reflexivity. Qed.

Definition menu_row : gmap string string :=
  <["ItemName" := "Salad"]> (<["Category" := "Salads"]>
  (<["SubstituteName" := " Cabbage Slaw "]> (<["Justification" := ""]> ∅))).

Definition slaw_rule : SubstitutionRule :=
  {| trigger_ingredient := Some "Salads"; suggest_item_id := Some "";
     suggest_item_name := Some "Cabbage Slaw"; rag_justification := Some "" |}.

Lemma add_substitution_keeps_names_distinct_witness :
  exists subs',
    add_substitution Sample.str_strip menu_row [slaw_rule] = Ok subs' /\
    Forall pipeline_rule subs' /\ NoDup (map suggest_item_name subs').
Proof.
  destruct (add_substitution_keeps_names_distinct Sample.str_strip menu_row [slaw_rule])
    as (subs' & Hrun & Hwf & Hnd & _).
  - repeat constructor. eexists _, _, _, _.
    split; [reflexivity|]. split; discriminate.
  - repeat constructor. intros H. now apply elem_of_nil in H.
  - exists subs'. split; [exact Hrun|]. split; [exact Hwf | exact Hnd].
Defined.

(** The salad of the menu build: its trigger is the category, which the
    kitchen does not track, and its reason is the empty justification cell. *)
Lemma pipeline_rules_skip_the_fallbacks_witness :
  Forall pipeline_rule [slaw_rule] /\ NoDup (map suggest_item_name [slaw_rule]).
Proof.
  destruct (pipeline_rules_skip_the_fallbacks Sample.str_strip ∅ kitchen
              [menu_row; menu_row]
              (candidate_of_hit (hit "m7" "Salad" 0.25%float [slaw_rule]))
              eq_refl ltac:(vm_compute; reflexivity)) as (Hwf & Hnd & _).
  split; [exact Hwf | exact Hnd].
Defined.

Example pipeline_salad_is_substituted :
  res_substitution
    (to_result (check_stock_logic ∅ kitchen
                  (candidate_of_hit (hit "m7" "Salad" 0.25%float [slaw_rule]))))
  = Some {| original_item := "Salad"; suggested_item := "Cabbage Slaw"; reason := "" |}.
Proof. vm_compute. reflexivity. Qed.

Definition menu_json : menu_file :=
  {| data_menu :=
       Some [ ("lunch",
               [ {| mi_id := Some "m7"; mi_name := Some "Salad";
                    mi_description := Some "Green salad";
                    mi_category := Some "Salads"; mi_price := Some 7.5%float;
                    mi_tags := Some ["fresh"; "cold"];
                    mi_suggested_substitutions := Some [slaw_rule] |};
                 {| mi_id := Some "m2"; mi_name := Some "Burger";
                    mi_description := Some "Beef burger";
                    mi_category := Some "Mains"; mi_price := Some 9.5%float;
                    mi_tags := None; mi_suggested_substitutions := None |} ]) ] |}.

Definition menu_docs : list menu_doc :=
  [ {| mdoc_id := "m7"; mdoc_text := "Salad. Green salad. Tags: fresh, cold";
       mdoc_name := "Salad"; mdoc_category := "Salads"; mdoc_price := 7.5%float;
       mdoc_suggested_substitutions := [slaw_rule] |};
    {| mdoc_id := "m2"; mdoc_text := "Burger. Beef burger. Tags: ";
       mdoc_name := "Burger"; mdoc_category := "Mains"; mdoc_price := 9.5%float;
       mdoc_suggested_substitutions := [] |} ].

Example ingest_menu_example : ingest_menu (Some menu_json) = Ok menu_docs.
Proof. vm_compute. reflexivity. Qed.

(** The run hands the two documents to the store; without the key [menu]
    it raises before. *)
Example ingest_menu_into_example :
  ingest_menu_into [] keep_batch (Some menu_json) = Ok menu_docs /\
  ingest_menu_into [] keep_batch (Some {| data_menu := None |}) = Raise KeyError /\
  ingest_menu_into [] keep_batch None = Ok [].
Proof. repeat split; vm_compute; reflexivity. Qed.

Definition burger_result : MenuItemResult :=
  {| res_id := "m2"; res_name := "Burger";
     res_description := "Burger. Beef burger. Tags: ";
     res_price := 9.5%float; res_score := 0.5%float;
     res_substitution := None; res_availability_status := "In Stock" |}.

Lemma patron_results_are_menu_items_witness :
  exists item,
    item ∈ concat (map snd (default [] (data_menu menu_json))) /\
    mi_id item = Some "m2" /\ mi_name item = Some "Burger" /\
    mi_price item = Some 9.5%float.
Proof.
  assert (Hhits : forall h,
            h ∈ map (fun d => hit_of_doc d 0.5%float) menu_docs ->
            exists d distance, d ∈ menu_docs /\ h = hit_of_doc d distance).
  { intros h Hh. apply list_elem_of_fmap in Hh as (d & -> & Hd).
    now exists d, 0.5%float. }
  assert (Hingest : ingest_menu (Some menu_json) = Ok menu_docs)
    by (vm_compute; reflexivity).
  assert (Hr : burger_result ∈
               patron_search ∅ kitchen
                 (Some (fun _ _ => map (fun d => hit_of_doc d 0.5%float) menu_docs))
                 "salad")
    by (vm_compute; apply list_elem_of_here).
  destruct (patron_results_are_menu_items ∅ kitchen menu_json
              (default [] (data_menu menu_json)) menu_docs
              (fun _ _ => map (fun d => hit_of_doc d 0.5%float) menu_docs) "salad"
              eq_refl Hingest Hhits burger_result Hr)
    as (item & Hin & Hid & Hname & Hprice & _).
  exists item. repeat split; assumption.
Defined.
